(** * polyjson: a JSON codec that keeps the concrete type behind interface slots

    A shallow embedding of the two source files of
    [github.com/xaionaro-go/polyjson] (the encoder [MarshalWithTypeIDs] /
    [marshal] / [stringifyMapKey] and the decoder [UnmarshalWithTypeIDs] /
    [unmarshal] / [unmarshalTo] / [unstringifyMapKey]) together with the
    small part of [reflect], [encoding/json] and [gjson] they are written
    against.

    Conventions of the embedding.
    - Go values are trees ([reflect.GoValue]); every value carries enough of
      its type for [reflect.TypeOf] to be computed, as a [reflect.Value] does.
      The fragment has [bool], [int], [string], [float64] (NaN and the values
      that are integers), pointers, interfaces, maps and structs.  Sequences,
      the other floats and recursive (self-referential) types are outside the
      fragment.
    - A JSON text is represented by the document it spells ([gjson.Result]);
      [json.render] gives back the bytes where the code handles them as data.
      Input that is not a JSON document is outside the model.  Strings are
      byte strings, as in Go: encoding/json replaces every byte that starts
      no valid UTF-8 encoding by U+FFFD when it writes and when it reads a
      string; gjson hands the names of the members over as they are.
    - A Go map is the list of its entries.  The encoder ranges over it in the
      order of the list, Go in an unspecified order: the statements hold for
      every list, hence for every order.
    - Functions that can fail return a [result]: a value, a Go [error], or a
      panic.  The decoder recurses on the document and on the destination, so
      it takes a recursion budget ([fuel]); [OutOfFuel] is not a behaviour of
      the program and every statement about a returned value gives the budget
      that suffices.
    - The decoder mutates its destination in place; here it returns the new
      content of the destination (state passing).  The content left behind by
      a failed call is not modelled. *)

From Stdlib Require Import ZArith String Ascii List Lia DecimalString.
From stdpp Require Import base option list strings gmap sorting.

#[local] Set Warnings "-register-all,-clear-no-such-hyp".
Local Open Scope Z_scope.

(** ** The fragment of package [reflect] *)

Module reflect.

Inductive Kind :=
| Invalid | Bool | Int | String | Interface | Pointer | Map | Struct | Float64.

(** [reflect.StructField]; [Tag] holds the value of the field's [json] key,
    that is [fT.Tag.Get("json")]. *)
Record StructField (T : Type) := mkStructField {
  Name : string;
  PkgPath : string;
  Tag : string;
  Type_ : T
}.
Arguments mkStructField {T} _ _ _ _.
Arguments Name {T} _.
Arguments PkgPath {T} _.
Arguments Tag {T} _.
Arguments Type_ {T} _.

(** [reflect.Type].  An interface type is given by its method names; a struct
    type carries the names of the methods declared with a value receiver
    ([vmethods]) and with a pointer receiver ([pmethods]). *)
Inductive rtype :=
| TBool
| TInt
| TString
| TPointer (elem : rtype)
| TInterface (methods : list string)
| TMap (key elem : rtype)
| TStruct (name : string) (vmethods pmethods : list string)
          (fields : list (StructField rtype))
| TFloat64.

(** The [float64] values of the fragment: NaN, and the finite values that
    are integers (the numbers of a document are integers), [Float 0] being
    the positive zero.  [==] on them: NaN is equal to nothing, itself
    included. *)
Inductive float64 :=
| NaN
| Float (z : Z).

Definition float64_eqb (a b : float64) : bool :=
  match a, b with
  | Float x, Float y => Z.eqb x y
  | _, _ => false
  end.

(** Go values.  A map is the list of its entries in iteration order, or [None]
    for the nil map; a pointer is its pointee, or [None] for nil. *)
Inductive GoValue :=
| VBool (b : bool)
| VInt (z : Z)
| VString (s : string)
| VPointer (elem : rtype) (p : option GoValue)
| VInterface (methods : list string) (dyn : option GoValue)
| VMap (key elem : rtype) (m : option (list (GoValue * GoValue)))
| VStruct (name : string) (vmethods pmethods : list string)
          (fields : list (StructField rtype)) (vals : list GoValue)
| VFloat64 (f : float64).

(** A value of Go's type [any]: [None] is the untyped nil. *)
Definition any := option GoValue.

(** [reflect.Value]: the zero Value, or a value with its addressability flag. *)
Inductive Value :=
| ZeroValue
| Val (x : GoValue) (flagAddr : bool).

Definition KindOf (t : rtype) : Kind :=
  match t with
  | TBool => Bool
  | TInt => Int
  | TString => String
  | TPointer _ => Pointer
  | TInterface _ => Interface
  | TMap _ _ => Map
  | TStruct _ _ _ _ => Struct
  | TFloat64 => Float64
  end.

Definition TypeOf (x : GoValue) : rtype :=
  match x with
  | VBool _ => TBool
  | VInt _ => TInt
  | VString _ => TString
  | VPointer elem _ => TPointer elem
  | VInterface methods _ => TInterface methods
  | VMap key elem _ => TMap key elem
  | VStruct name vm pm fields _ => TStruct name vm pm fields
  | VFloat64 _ => TFloat64
  end.

(** [v.Kind()] *)
Definition Kind_ (v : Value) : Kind :=
  match v with
  | ZeroValue => Invalid
  | Val x _ => KindOf (TypeOf x)
  end.

(** [reflect.ValueOf(a)] *)
Definition ValueOf (a : any) : Value :=
  match a with
  | None => ZeroValue
  | Some x => Val x false
  end.

(** [v.Interface()] on a valid value: an interface-kind value gives its
    dynamic value, any other value is boxed. *)
Definition Interface_ (x : GoValue) : any :=
  match x with
  | VInterface _ dyn => dyn
  | _ => Some x
  end.

(** The operand of the verb [%T]: the dynamic type, [None] printing [<nil>]. *)
Definition runtimeType (a : any) : option rtype := TypeOf <$> a.

(** [v.String()] and [v.SetString(s)] of a value of kind String. *)
Definition String_ (x : GoValue) : string :=
  match x with
  | VString s => s
  | _ => "<invalid Value>"
  end.

Definition SetString (x : GoValue) (s : string) : GoValue :=
  match x with
  | VString _ => VString s
  | _ => x
  end.

(** [reflect.Zero(t)] *)
Fixpoint Zero (t : rtype) : GoValue :=
  match t with
  | TBool => VBool false
  | TInt => VInt 0
  | TString => VString ""
  | TPointer elem => VPointer elem None
  | TInterface methods => VInterface methods None
  | TMap key elem => VMap key elem None
  | TStruct name vm pm fields =>
      VStruct name vm pm fields (List.map (fun f => Zero (Type_ f)) fields)
  | TFloat64 => VFloat64 (Float 0)
  end.

(** [reflect.New(t)]: a pointer to a fresh zero value. *)
Definition New (t : rtype) : GoValue := VPointer t (Some (Zero t)).

(** [v.Addr()] of an addressable value. *)
Definition Addr (x : GoValue) : Value := Val (VPointer (TypeOf x) (Some x)) false.

(** The method set of a type. *)
Definition methodSet (t : rtype) : list string :=
  match t with
  | TInterface methods => methods
  | TStruct _ vm _ _ => vm
  | TPointer (TStruct _ vm pm _) => vm ++ pm
  | _ => []
  end.

(** [t.AssignableTo(u)] for an interface type [u]: [t] implements [u]. *)
Definition AssignableTo (t u : rtype) : bool :=
  match u with
  | TInterface methods =>
      forallb (fun m => existsb (String.eqb m) (methodSet t)) methods
  | _ => false
  end.

(** [out.Set(x)]: an interface slot keeps its static type and stores the
    dynamic value of [x]. *)
Definition Set_ (out x : GoValue) : GoValue :=
  match out with
  | VInterface methods _ => VInterface methods (Interface_ x)
  | _ => x
  end.

(** Equality of types and of map keys (Go's [==]).  The fragment has no
    addresses: pointers are compared by their pointees.  A Go map key never
    is or holds a map; on maps the function compares the entries.  A key
    that is NaN, or a struct or an interface value that holds NaN, is not
    equal to itself. *)
Definition strings_eqb (l1 l2 : list string) : bool :=
  bool_decide (l1 = l2).

Fixpoint rtype_eqb (t u : rtype) {struct t} : bool :=
  match t, u with
  | TBool, TBool | TInt, TInt | TString, TString | TFloat64, TFloat64 => true
  | TPointer a, TPointer b => rtype_eqb a b
  | TInterface m1, TInterface m2 => strings_eqb m1 m2
  | TMap k1 e1, TMap k2 e2 => rtype_eqb k1 k2 && rtype_eqb e1 e2
  | TStruct n1 vm1 pm1 fs1, TStruct n2 vm2 pm2 fs2 =>
      String.eqb n1 n2 && strings_eqb vm1 vm2 && strings_eqb pm1 pm2
      && (fix fields_eqb (fs1 fs2 : list (StructField rtype)) {struct fs1} :=
            match fs1, fs2 with
            | [], [] => true
            | f :: fs1, g :: fs2 =>
                String.eqb (Name f) (Name g) && String.eqb (PkgPath f) (PkgPath g)
                && String.eqb (Tag f) (Tag g) && rtype_eqb (Type_ f) (Type_ g)
                && fields_eqb fs1 fs2
            | _, _ => false
            end) fs1 fs2
  | _, _ => false
  end.

Fixpoint GoValue_eqb (x y : GoValue) {struct x} : bool :=
  match x, y with
  | VBool a, VBool b => Bool.eqb a b
  | VInt a, VInt b => Z.eqb a b
  | VString a, VString b => String.eqb a b
  | VFloat64 a, VFloat64 b => float64_eqb a b
  | VPointer t1 p1, VPointer t2 p2 =>
      rtype_eqb t1 t2
      && match p1, p2 with
         | None, None => true
         | Some a, Some b => GoValue_eqb a b
         | _, _ => false
         end
  | VInterface m1 d1, VInterface m2 d2 =>
      strings_eqb m1 m2
      && match d1, d2 with
         | None, None => true
         | Some a, Some b => GoValue_eqb a b
         | _, _ => false
         end
  | VMap k1 e1 m1, VMap k2 e2 m2 =>
      rtype_eqb k1 k2 && rtype_eqb e1 e2
      && match m1, m2 with
         | None, None => true
         | Some l1, Some l2 =>
             (fix entries_eqb (l1 l2 : list (GoValue * GoValue)) {struct l1} :=
                match l1, l2 with
                | [], [] => true
                | (k1, e1) :: l1, (k2, e2) :: l2 =>
                    GoValue_eqb k1 k2 && GoValue_eqb e1 e2 && entries_eqb l1 l2
                | _, _ => false
                end) l1 l2
         | _, _ => false
         end
  | VStruct n1 vm1 pm1 fs1 vs1, VStruct n2 vm2 pm2 fs2 vs2 =>
      rtype_eqb (TStruct n1 vm1 pm1 fs1) (TStruct n2 vm2 pm2 fs2)
      && (fix vals_eqb (vs1 vs2 : list GoValue) {struct vs1} :=
            match vs1, vs2 with
            | [], [] => true
            | a :: vs1, b :: vs2 => GoValue_eqb a b && vals_eqb vs1 vs2
            | _, _ => false
            end) vs1 vs2
  | _, _ => false
  end.

(** [v.MapRange()]: the entries of a map; a nil map has none. *)
Definition MapRange (m : option (list (GoValue * GoValue))) : list (GoValue * GoValue) :=
  match m with
  | None => []
  | Some l => l
  end.

(** [v.MapIndex(key)] on the entries of a map. *)
Fixpoint MapIndex (l : list (GoValue * GoValue)) (key : GoValue) : option GoValue :=
  match l with
  | [] => None
  | (k, e) :: l => if GoValue_eqb k key then Some e else MapIndex l key
  end.

(** [v.SetMapIndex(key, elem)] on the entries of a non-nil map: the zero
    Value as [elem] deletes the key; otherwise the entry is replaced, or added
    when the key is new. *)
Fixpoint MapAssign (l : list (GoValue * GoValue)) (key elem : GoValue) : list (GoValue * GoValue) :=
  match l with
  | [] => [(key, elem)]
  | (k, e) :: l =>
      if GoValue_eqb k key then (k, elem) :: l else (k, e) :: MapAssign l key elem
  end.

Definition SetMapIndex (l : list (GoValue * GoValue)) (key : GoValue) (elem : option GoValue)
    : list (GoValue * GoValue) :=
  match elem with
  | None => List.filter (fun kv => negb (GoValue_eqb (fst kv) key)) l
  | Some e => MapAssign l key e
  end.

End reflect.

Export reflect (GoValue (..), rtype (..), StructField (..), Value (..), float64 (..), any).

(** ** The fragment of package [gjson] *)

Module gjson.

(** A parsed JSON value ([gjson.Result]).  Numbers are integers. *)
Inductive Result :=
| JNull
| JBool (b : bool)
| JNumber (z : Z)
| JString (s : string)
| JArray (l : list Result)
| JObject (l : list (string * Result)).

(** [gjson.Type] *)
Inductive Type_ := Null | False_ | Number | String | True_ | JSON.

Definition TypeOf (t : Result) : Type_ :=
  match t with
  | JNull => Null
  | JBool false => False_
  | JBool true => True_
  | JNumber _ => Number
  | JString _ => String
  | JArray _ | JObject _ => JSON
  end.

(** [t.ForEach(iterator)]: the pairs [(key.Str, value)] the iterator is called
    with, in order.  An object passes its members in document order; an array
    passes its elements under numeric keys, whose [Str] is empty; any other
    value is passed once, as the value of an empty key. *)
Definition ForEach (t : Result) : list (string * Result) :=
  match t with
  | JObject l => l
  | JArray l => List.map (fun v => (""%string, v)) l
  | _ => [(""%string, t)]
  end.

(** [t.Map()]: the members of an object, the first member of a name being
    kept ([if _, ok := r.o[key.Str]; !ok { r.o[key.Str] = value }]); empty
    for anything that is not an object. *)
Definition Map (t : Result) : gmap string Result :=
  match t with
  | JObject l =>
      foldl (fun m kv =>
               match m !! fst kv with
               | Some _ => m
               | None => <[fst kv := snd kv]> m
               end) ∅ l
  | _ => ∅
  end.

End gjson.

Export gjson (Result (..)).

(** ** Errors and results *)

Definition TypeID := string.

(** One constructor per [fmt.Errorf] call of the package, holding the operands
    of the format; [%w] operands are the wrapped [err]. *)
Inductive error :=
| ResolverError (msg : string)
  (* an error returned by the type resolver *)
| JSONError (msg : string)
  (* an error returned by encoding/json *)
| ErrStringifyMapKey (key : any) (T : option rtype)
  (* "unable to stringify map key '%#+v' (%T)" *)
| ErrStringifyMapKeyOfType (T : option rtype) (err : error)
  (* "unable to stringify map key of type %T: %w" *)
| ErrSerializeMapEntry (key : string) (err : error)
  (* "unable to serialize value of map-entry with key '%s': %w" *)
| ErrGetTypeID (T : option rtype) (err : error)
  (* "unable to get TypeID of %T: %w" *)
| ErrSerializeField (i : nat) (name : string) (T : option rtype) (err : error)
  (* "unable to serialize data within field #%d:%s of structure %T: %w" *)
| ErrUnstringifyMapKey (T : option rtype) (s : string)
  (* "unable to unstringify map key (%T) value '%s'" *)
| ErrExpectedPointer (T : option rtype)
  (* "expected a pointer destination, but got %T instead" *)
| ErrUnstringifyKeyValue (s : string) (err : error)
  (* "unable to unstringify key value '%s': %w" *)
| ErrUnmarshalEntry (value : Result) (key : string) (err : error)
  (* "unable to unmarshal JSON '%s' of entry with key '%s': %w" *)
| ErrUnmarshalField (value : Result) (key : string) (err : error)
  (* "unable to unmarshal JSON '%s' of field '%s': %w" *)
| ErrExpectedExactlyOne (n : nat)
  (* "expected exactly one value, but got %d" *)
| ErrConstruct (typeID : TypeID) (err : error)
  (* "unable to construct an instance of value for TypeID '%s': %w" *)
| ErrUnmarshal (err : error)
  (* "unable to unmarshal: %w" *)
| ErrAssign (outType : rtype)
  (* "internal error: do not know how to assign %T to %s" *).

Inductive result (A : Type) :=
| Ok (a : A)
| Err (e : error)
| Panic (msg : string)
| OutOfFuel.
Arguments Ok {A} _.
Arguments Err {A} _.
Arguments Panic {A} _.
Arguments OutOfFuel {A}.

(** [x, err := r; if err != nil { return wrap(err) }; k x] *)
Definition andThen {A B} (r : result A) (wrap : error -> error) (k : A -> result B)
    : result B :=
  match r with
  | Ok a => k a
  | Err err => Err (wrap err)
  | Panic msg => Panic msg
  | OutOfFuel => OutOfFuel
  end.

Notation "x <- r 'wrapped' w ; k" := (andThen r w (fun x => k))
  (at level 20, r at level 100, w at level 100, k at level 200, only parsing).
Notation "x <- r ; k" := (andThen r (fun err => err) (fun x => k))
  (at level 20, r at level 100, k at level 200, only parsing).

(** ** The fragment of package [unicode/utf8] *)

Module utf8.

Definition inRange (lo hi : N) (c : ascii) : bool :=
  ((lo <=? N_of_ascii c) && (N_of_ascii c <=? hi))%N.

(** A continuation byte, 0x80 to 0xBF. *)
Definition cont (c : ascii) : bool := inRange 128 191 c.

(** The width of the encoding that [utf8.DecodeRuneInString(s)] reads at the
    start of [s]; [0] stands for the result [(RuneError, 1)] of an encoding
    that is invalid or cut short (and for the empty string).  The second
    byte is restricted after 0xE0 (no overlong form), 0xED (no surrogate),
    0xF0 (no overlong form) and 0xF4 (nothing above U+10FFFF). *)
Definition runeWidth (s : string) : nat :=
  match s with
  | EmptyString => 0
  | String c0 s1 =>
      let b0 := N_of_ascii c0 in
      if (b0 <? 128)%N then 1
      else if inRange 194 223 c0 then
        match s1 with
        | String c1 _ => if cont c1 then 2 else 0
        | _ => 0
        end
      else if inRange 224 239 c0 then
        match s1 with
        | String c1 (String c2 _) =>
            let lo := if (b0 =? 224)%N then 160%N else 128%N in
            let hi := if (b0 =? 237)%N then 159%N else 191%N in
            if inRange lo hi c1 && cont c2 then 3 else 0
        | _ => 0
        end
      else if inRange 240 244 c0 then
        match s1 with
        | String c1 (String c2 (String c3 _)) =>
            let lo := if (b0 =? 240)%N then 144%N else 128%N in
            let hi := if (b0 =? 244)%N then 143%N else 191%N in
            if inRange lo hi c1 && cont c2 && cont c3 then 4 else 0
        | _ => 0
        end
      else 0
  end.

(** The encoding of [utf8.RuneError], U+FFFD: the bytes EF BF BD. *)
Definition RuneError : string :=
  String (ascii_of_N 239) (String (ascii_of_N 191) (String (ascii_of_N 189) EmptyString)).

(** The string with every byte that starts no valid encoding replaced by
    U+FFFD, as encoding/json does when it writes and when it reads a string
    ([pending] counts the bytes left of the encoding being copied). *)
Fixpoint coerceFrom (pending : nat) (s : string) : string :=
  match s with
  | EmptyString => EmptyString
  | String c rest =>
      match pending with
      | S k => String c (coerceFrom k rest)
      | O =>
          match runeWidth s with
          | O => RuneError +:+ coerceFrom 0 rest
          | S k => String c (coerceFrom k rest)
          end
      end
  end.

Definition coerce (s : string) : string := coerceFrom 0 s.

(** [utf8.ValidString(s)] *)
Fixpoint validFrom (pending : nat) (s : string) : bool :=
  match s with
  | EmptyString => true
  | String c rest =>
      match pending with
      | S k => validFrom k rest
      | O =>
          match runeWidth s with
          | O => false
          | S k => validFrom k rest
          end
      end
  end.

Definition ValidString (s : string) : bool := validFrom 0 s.

End utf8.

(** ** The fragment of package [encoding/json] *)

Module json.

(** The value types the package stores in its [map[string]any]. *)
Inductive anyValue :=
| RawMessage (b : Result)                  (* json.RawMessage(b) *)
| ByteSlice (b : Result)                   (* b, a []byte *)
| TypeIDMap (typeID : TypeID) (b : Result) (* map[TypeID]json.RawMessage{typeID: b} *).

Definition hexdigit (n : N) : ascii :=
  nth (N.to_nat n) (list_ascii_of_string "0123456789abcdef") "0"%char.

Definition dquote : ascii := ascii_of_N 34.

(** The escape encoding/json writes for one byte below 128 of a string
    (HTML escaping is on by default). *)
Definition escape (c : ascii) : string :=
  let n := N_of_ascii c in
  if (n =? 34)%N then String "\" (String dquote EmptyString)
  else if (n =? 92)%N then "\\"%string
  else if (n =? 8)%N then "\b"%string
  else if (n =? 12)%N then "\f"%string
  else if (n =? 10)%N then "\n"%string
  else if (n =? 13)%N then "\r"%string
  else if (n =? 9)%N then "\t"%string
  else if (n <? 32)%N || (n =? 60)%N || (n =? 62)%N || (n =? 38)%N then
    String "\" (String "u" (String "0" (String "0"
      (String (hexdigit (n / 16)) (String (hexdigit (n mod 16)) EmptyString)))))
  else String c EmptyString.

(** U+2028 and U+2029, the bytes E2 80 A8 and E2 80 A9, which are written
    as [\u2028] and [\u2029]. *)
Definition lineSeparator (s : string) : option string :=
  match s with
  | String c0 (String c1 (String c2 _)) =>
      if ((N_of_ascii c0 =? 226) && (N_of_ascii c1 =? 128))%N then
        if (N_of_ascii c2 =? 168)%N then Some "\u2028"%string
        else if (N_of_ascii c2 =? 169)%N then Some "\u2029"%string
        else None
      else None
  | _ => None
  end.

(** The body of a string literal: a byte below 128 is escaped by [escape];
    a byte that starts no valid encoding is written [\ufffd]; the line
    separators are escaped; any other encoding is copied.  [copy] and [skip]
    count the bytes left of the encoding being copied or dropped. *)
Fixpoint escapesFrom (copy skip : nat) (s : string) : string :=
  match s with
  | EmptyString => EmptyString
  | String c rest =>
      match copy, skip with
      | S k, _ => String c (escapesFrom k skip rest)
      | O, S k => escapesFrom 0 k rest
      | O, O =>
          if (N_of_ascii c <? 128)%N then escape c +:+ escapesFrom 0 0 rest
          else
            match utf8.runeWidth s with
            | O => "\ufffd" +:+ escapesFrom 0 0 rest
            | S k =>
                match lineSeparator s with
                | Some e => e +:+ escapesFrom 0 k rest
                | None => String c (escapesFrom k 0 rest)
                end
            end
      end
  end.

Definition escapes (s : string) : string := escapesFrom 0 0 s.

Definition quote (s : string) : string :=
  String dquote (escapes s) +:+ String dquote EmptyString.

Definition int64_range (z : Z) : bool := (- 2 ^ 63 <=? z) && (z <? 2 ^ 63).

(** [strconv.ParseFloat(s, 64)] on the digits of the integer [z]: the nearest
    [float64], a tie going to the even mantissa of 53 bits; [None] when the
    result is out of range. *)
Definition roundFloat64 (z : Z) : option Z :=
  let n := Z.abs z in
  let bits := Z.log2 n + 1 in
  if bits <=? 53 then Some z
  else
    let shift := bits - 53 in
    let q := Z.shiftr n shift in
    let rest := Z.land n (Z.ones shift) in
    let half := Z.shiftl 1 (shift - 1) in
    let q' := if rest <? half then q
              else if half <? rest then q + 1
              else if Z.even q then q else q + 1 in
    let v := Z.shiftl q' shift in
    if v <? 2 ^ 1024 then Some (Z.sgn z * v) else None.

(** [strconv.FormatFloat(f, fmt, -1, 64)] for the float of integer value
    [z]: the decimal of fewest digits that [ParseFloat] reads as [z]; of the
    two decimals next to [z] that have those digits, the nearer one, a tie
    going to the even digit.  [unit] is the weight of the last digit kept. *)
Definition parsesTo (z c : Z) : bool :=
  match roundFloat64 c with
  | Some r => r =? z
  | None => false
  end.

Definition shortestAt (z unit : Z) : option Z :=
  let lo := z / unit * unit in
  let hi := lo + unit in
  match parsesTo z lo, parsesTo z hi with
  | true, true =>
      Some (if 2 * (z - lo) <? unit then lo
            else if unit <? 2 * (z - lo) then hi
            else if Z.even (z / unit) then lo else hi)
  | true, false => Some lo
  | false, true => Some hi
  | false, false => None
  end.

Fixpoint shortestFrom (dropped : nat) (z : Z) : Z :=
  match dropped with
  | O => z
  | S k =>
      match shortestAt z (10 ^ Z.of_nat dropped) with
      | Some c => c
      | None => shortestFrom k z
      end
  end.

Definition digitsOf (n : Z) : string := NilZero.string_of_int (Z.to_int n).

Definition shortest (z : Z) : Z :=
  Z.sgn z * shortestFrom (String.length (digitsOf (Z.abs z)) - 1) (Z.abs z).

Fixpoint join (l : list string) : string :=
  match l with
  | [] => EmptyString
  | [s] => s
  | s :: l => s +:+ "," +:+ join l
  end.

(** The digits of [n] without the zeros that end them. *)
Fixpoint significant (fuel : nat) (n : Z) : Z :=
  match fuel with
  | O => n
  | S k => if (n mod 10 =? 0) && negb (n =? 0) then significant k (n / 10) else n
  end.

(** A number as [json.Marshal] writes it.  Below [1e21] in magnitude, the
    digits; from [1e21] on (only a [float64] is that large) in the form
    [d.ddde+XX], as [strconv.FormatFloat(f, 'e', -1, 64)] does. *)
Definition number (z : Z) : string :=
  if Z.abs z <? 10 ^ 21 then digitsOf z
  else
    let all := digitsOf (Z.abs z) in
    let exponent := Z.of_nat (String.length all - 1) in
    let digits := digitsOf (significant (String.length all) (Z.abs z)) in
    (if z <? 0 then "-" else "")
    +:+ match digits with
        | String d EmptyString => String d EmptyString
        | String d rest => String d ("." +:+ rest)
        | EmptyString => EmptyString
        end
    +:+ "e+" +:+ digitsOf exponent.

(** The bytes of a document, as [json.Marshal] writes them.  A document does
    not tell a U+FFFD that a Go string held from one that stands for an
    invalid byte: [json.Marshal] writes the first as it is and the second
    [\ufffd]; [render] writes both as they are.  The two texts spell the same
    document. *)
Fixpoint render (t : Result) : string :=
  match t with
  | JNull => "null"
  | JBool true => "true"
  | JBool false => "false"
  | JNumber z => number z
  | JString s => quote s
  | JArray l => "[" +:+ join (List.map render l) +:+ "]"
  | JObject l =>
      "{" +:+ join (List.map (fun kv => quote (fst kv) +:+ ":" +:+ render (snd kv)) l) +:+ "}"
  end.

Definition b64digit (n : N) : ascii :=
  nth (N.to_nat n)
      (list_ascii_of_string
         "ABCDEFGHIJKLMNOPQRSTUVWXYZabcdefghijklmnopqrstuvwxyz0123456789+/")
      "="%char.

(** [base64.StdEncoding], which [json.Marshal] applies to a [[]byte]. *)
Fixpoint base64 (l : list N) : string :=
  match l with
  | [] => EmptyString
  | [a] =>
      String (b64digit (a / 4)) (String (b64digit ((a mod 4) * 16)) "==")
  | [a; b] =>
      String (b64digit (a / 4))
        (String (b64digit ((a mod 4) * 16 + b / 16))
           (String (b64digit ((b mod 16) * 4)) "="))
  | a :: b :: c :: l =>
      String (b64digit (a / 4))
        (String (b64digit ((a mod 4) * 16 + b / 16))
           (String (b64digit ((b mod 16) * 4 + c / 64))
              (String (b64digit (c mod 64)) (base64 l))))
  end%N.

Definition bytes (s : string) : list N := List.map N_of_ascii (list_ascii_of_string s).

(** How [json.Marshal] writes one value of the [map[string]any]: a
    [json.RawMessage] is copied, a [[]byte] is written as the JSON string of
    its base64 encoding, a one-entry map as a one-member object, its key
    written as strings are. *)
Definition Marshal_any (x : anyValue) : Result :=
  match x with
  | RawMessage b => b
  | ByteSlice b => JString (base64 (bytes (render b)))
  | TypeIDMap typeID b => JObject [(utf8.coerce typeID, b)]
  end.

(** [json.Marshal(m)] for [m] of type [map[string]any]: an object whose
    members are sorted by key.  The keys are sorted as they are, and written
    as strings are: with every invalid byte replaced by U+FFFD. *)
Definition key_le (a b : string * Result) : Prop := String.leb (fst a) (fst b) = true.

#[global] Instance key_le_dec a b : Decision (key_le a b).
Proof. unfold key_le. apply _. Defined.

Definition writeNames (l : list (string * Result)) : list (string * Result) :=
  List.map (fun kv => (utf8.coerce (fst kv), snd kv)) l.

Definition Marshal_map (m : gmap string anyValue) : result Result :=
  Ok (JObject (writeNames (merge_sort key_le (map_to_list (Marshal_any <$> m))))).

(** [json.Marshal(v.Interface())] for a value of scalar kind.  A string is
    written with every invalid byte replaced by U+FFFD; a [float64] with the
    fewest digits that give it back; NaN has no encoding. *)
Definition Marshal (x : GoValue) : result Result :=
  match x with
  | VBool b => Ok (JBool b)
  | VInt z => Ok (JNumber z)
  | VString s => Ok (JString (utf8.coerce s))
  | VFloat64 (Float z) => Ok (JNumber (shortest z))
  | VFloat64 NaN => Err (JSONError "json: unsupported value: NaN")
  | _ => Err (JSONError "json: unsupported value")
  end.

(** [json.Unmarshal(raw, p)] for [p] pointing to [cur], of scalar kind; the
    result is the new pointee.  [null] leaves a scalar as it is; a string is
    read with every invalid byte replaced by U+FFFD. *)
Definition Unmarshal (raw : Result) (cur : GoValue) : result GoValue :=
  match raw, cur with
  | JNull, (VBool _ | VInt _ | VString _ | VFloat64 _) => Ok cur
  | JBool b, VBool _ => Ok (VBool b)
  | JNumber z, VInt _ =>
      if int64_range z then Ok (VInt z)
      else Err (JSONError "json: cannot unmarshal number into Go value of type int")
  | JNumber z, VFloat64 _ =>
      match roundFloat64 z with
      | Some r => Ok (VFloat64 (Float r))
      | None =>
          Err (JSONError "json: cannot unmarshal number into Go value of type float64")
      end
  | JString s, VString _ => Ok (VString (utf8.coerce s))
  | _, _ => Err (JSONError "json: cannot unmarshal value into Go value")
  end.

End json.

(** ** Package [polyjson]: the encoder *)

(** [TypeIDOfer] is a converter of a sample to its TypeID. *)
Record TypeIDOfer := { TypeIDOf : any -> result TypeID }.

(** [NewByTypeIDer] is a factory of a value given its TypeID. *)
Record NewByTypeIDer := { NewByTypeID : TypeID -> result any }.

(** [TypeIDHandler] is a bidirectional handler which couples TypeID with a
    type. *)
Record TypeIDHandler := {
  asTypeIDOfer :> TypeIDOfer;
  asNewByTypeIDer :> NewByTypeIDer
}.

Definition stringNull : Result := JNull.

Definition stringifyMapKey (mapKey : GoValue) : result string :=
  match reflect.KindOf (reflect.TypeOf mapKey) with
  | reflect.String => Ok (reflect.String_ mapKey)
  | _ =>
      Err (ErrStringifyMapKey (reflect.Interface_ mapKey)
             (reflect.runtimeType (reflect.Interface_ mapKey)))
  end.

(** The wire name of a field: the first comma-separated word of the tag, or
    the field's name when that word is empty. *)
Fixpoint firstWord (tag : string) : string :=
  match tag with
  | EmptyString => EmptyString
  | String c tag =>
      if Ascii.eqb c ","%char then EmptyString else String c (firstWord tag)
  end.

Definition jsonFieldName (fT : StructField rtype) : string :=
  let tagWords0 := firstWord (reflect.Tag fT) in
  if (0 <? String.length tagWords0)%nat then tagWords0 else reflect.Name fT.

(** [IsValid] of [reflect.ValueOf(x.Interface())] *)
Definition holdsValue (x : GoValue) : bool :=
  match reflect.ValueOf (reflect.Interface_ x) with
  | ZeroValue => false
  | Val _ _ => true
  end.

Definition isInterface (t : rtype) : bool :=
  match reflect.KindOf t with
  | reflect.Interface => true
  | _ => false
  end.

(** The loop of [marshal]'s Map case over the entries of the map, [marshal]
    standing for the recursive call. *)
Fixpoint marshalEntries (marshal : GoValue -> result Result) (typeIDOfer : TypeIDOfer)
    (elemT : rtype) (entries : list (GoValue * GoValue))
    (marshaledFields : gmap string json.anyValue) {struct entries} : result Result :=
  match entries with
  | [] => json.Marshal_map marshaledFields
  | (key, value) :: entries =>
      (* Constructing the field name *)
      jsonFieldName <- stringifyMapKey key
        wrapped ErrStringifyMapKeyOfType (reflect.runtimeType (reflect.Interface_ key)) ;
      (* Marshalling the content *)
      b <- marshal value
        wrapped ErrSerializeMapEntry jsonFieldName ;
      if negb (isInterface elemT) || negb (holdsValue value) then
        marshalEntries marshal typeIDOfer elemT entries
          (<[jsonFieldName := json.ByteSlice b]> marshaledFields)
      else
        typeID <- TypeIDOf typeIDOfer (reflect.Interface_ value)
          wrapped ErrGetTypeID (reflect.runtimeType (reflect.Interface_ value)) ;
        marshalEntries marshal typeIDOfer elemT entries
          (<[jsonFieldName := json.TypeIDMap typeID b]> marshaledFields)
  end.

(** The loop of [marshal]'s Struct case over the fields from index [i] on;
    [t] is the type of the structure.  (A Go struct has a value for each of
    its fields; for a list of values that is too short the loop stops as
    [v.Field(i)] would.) *)
Fixpoint marshalFields (marshal : GoValue -> result Result) (typeIDOfer : TypeIDOfer)
    (t : rtype) (vals : list GoValue) (fields : list (StructField rtype)) (i : nat)
    (marshaledFields : gmap string json.anyValue) {struct vals} : result Result :=
  match fields, vals with
  | [], _ => json.Marshal_map marshaledFields
  | _ :: _, [] => Panic "reflect: Field index out of range"
  | fT :: fields, fV :: vals =>
      if negb (String.eqb (reflect.PkgPath fT) "") then
        (* unexported *)
        marshalFields marshal typeIDOfer t vals fields (S i) marshaledFields
      else if String.eqb (reflect.Tag fT) "-" then
        (* requested to skip *)
        marshalFields marshal typeIDOfer t vals fields (S i) marshaledFields
      else
        (* Detecting the field name *)
        let jsonFieldName := jsonFieldName fT in
        (* Marshalling the content *)
        b <- marshal fV
          wrapped ErrSerializeField i (reflect.Name fT) (Some t) ;
        if negb (isInterface (reflect.Type_ fT)) || negb (holdsValue fV) then
          marshalFields marshal typeIDOfer t vals fields (S i)
            (<[jsonFieldName := json.RawMessage b]> marshaledFields)
        else
          typeID <- TypeIDOf typeIDOfer (reflect.Interface_ fV)
            wrapped ErrGetTypeID (reflect.runtimeType (reflect.Interface_ fV)) ;
          marshalFields marshal typeIDOfer t vals fields (S i)
            (<[jsonFieldName := json.TypeIDMap typeID b]> marshaledFields)
  end.

Fixpoint marshal (v : GoValue) (typeIDOfer : TypeIDOfer) {struct v} : result Result :=
  match v with
  | VInterface _ dyn =>
      (* unwrapping the interface *)
      match dyn with
      | None => Ok stringNull
      | Some v => marshal v typeIDOfer
      end
  | VPointer _ p =>
      match p with
      | None => Ok stringNull
      | Some v => marshal v typeIDOfer
      end
  | VMap keyT elemT m =>
      match m with
      | None => json.Marshal_map ∅
      | Some entries =>
          marshalEntries (fun v => marshal v typeIDOfer) typeIDOfer elemT entries ∅
      end
  | VStruct name vm pm fields vals =>
      marshalFields (fun v => marshal v typeIDOfer) typeIDOfer
        (TStruct name vm pm fields) vals fields 0%nat ∅
  | _ => json.Marshal v
  end.

(** [MarshalWithTypeIDs(obj, typeIDOfer)].  For the untyped nil
    [reflect.ValueOf(obj)] is the zero Value, whose kind is [Invalid]:
    [marshal] falls through to [json.Marshal(v.Interface())], and
    [Interface] panics on the zero Value. *)
Definition MarshalWithTypeIDs (obj : any) (typeIDOfer : TypeIDOfer) : result Result :=
  match reflect.ValueOf obj with
  | ZeroValue => Panic "reflect: call of reflect.Value.Interface on zero Value"
  | Val v _ => marshal v typeIDOfer
  end.

(** ** Package [polyjson]: the decoder *)

Definition unstringifyMapKey (mapKey : GoValue) (s : string) : result GoValue :=
  match reflect.KindOf (reflect.TypeOf mapKey) with
  | reflect.String => Ok (reflect.SetString mapKey s)
  | _ =>
      Err (ErrUnstringifyMapKey (reflect.runtimeType (reflect.Interface_ mapKey)) s)
  end.

(** [obj.ForEach(func(key, value gjson.Result) bool { ... })] for a callback
    that updates the state it captures and stops the iteration at the first
    error, which the caller then returns. *)
Fixpoint forEach {S : Type} (entries : list (string * Result))
    (body : S -> string -> Result -> result S) (s : S) : result S :=
  match entries with
  | [] => Ok s
  | (key, value) :: entries =>
      s <- body s key value ;
      forEach entries body s
  end.

(** The loop that fills [indexMap], the map of JSON field name to structure
    field index, from field [i] on. *)
Fixpoint indexFields (i : nat) (fields : list (StructField rtype))
    (indexMap : gmap string nat) : gmap string nat :=
  match fields with
  | [] => indexMap
  | fT :: fields =>
      if String.eqb (reflect.Tag fT) "-" then
        (* requested to skip *)
        indexFields (S i) fields indexMap
      else
        indexFields (S i) fields (<[jsonFieldName fT := i]> indexMap)
  end.

(** The body of [unmarshalTo], over the [unmarshal] it calls.  The result is
    the new content of the slot [out]. *)
Definition unmarshalTo_body
    (unmarshal : Result -> Value -> NewByTypeIDer -> result GoValue)
    (out : GoValue) (outType : rtype) (value : Result) (newByTypeIDer : NewByTypeIDer)
    : result GoValue :=
  (* unmarshaling the content, then setting the final value *)
  let unmarshalContent (value : Result) (contentOut : Value) : result GoValue :=
    contentOut <- unmarshal value contentOut newByTypeIDer wrapped ErrUnmarshal ;
    match contentOut with
    | VPointer _ (Some elem) =>
        if isInterface outType then
          if reflect.AssignableTo (reflect.TypeOf elem) outType then
            Ok (reflect.Set_ out elem)
          else if reflect.AssignableTo (reflect.TypeOf contentOut) outType then
            Ok (reflect.Set_ out contentOut)
          else Err (ErrAssign outType)
        else Ok elem
    | _ =>
        (* not reached: a successful unmarshal leaves a pointer that is not
           nil (unmarshal_Ok_pointer) *)
        Panic "reflect: call of reflect.Value.Type on zero Value"
    end in
  match reflect.KindOf outType with
  | reflect.Pointer =>
      match gjson.TypeOf value with
      | gjson.Null => Ok (reflect.Zero outType)
      | _ => unmarshalContent value (reflect.Addr out)
      end
  | reflect.Interface =>
      match gjson.TypeOf value with
      | gjson.Null =>
          (* the untyped-nil value *)
          Ok (reflect.Zero outType)
      | _ =>
          let m := gjson.Map value in
          match map_to_list m with
          | [(typeID, valueUnparsed)] =>
              typedValuePtr <- NewByTypeID newByTypeIDer typeID
                wrapped ErrConstruct typeID ;
              unmarshalContent valueUnparsed (reflect.ValueOf typedValuePtr)
          | _ => Err (ErrExpectedExactlyOne (size m))
          end
      end
  | _ => unmarshalContent value (reflect.Addr out)
  end.

(** The loop "delete all entries from the current map" of [unmarshal]'s Map
    case: it ranges over the entries and deletes each key. *)
Definition deleteAllEntries (m : option (list (GoValue * GoValue)))
    : option (list (GoValue * GoValue)) :=
  match m with
  | None => None
  | Some entries =>
      Some (foldl (fun l kv => reflect.SetMapIndex l (fst kv) None) entries entries)
  end.

(** The callback of [obj.ForEach] in [unmarshal]'s Map case; [m] is the map
    being filled. *)
Definition unmarshalEntry
    (unmarshal : Result -> Value -> NewByTypeIDer -> result GoValue)
    (keyType valueType : rtype) (newByTypeIDer : NewByTypeIDer)
    (m : option (list (GoValue * GoValue))) (key : string) (value : Result)
    : result (option (list (GoValue * GoValue))) :=
  keyValue <- unstringifyMapKey (reflect.Zero keyType) key
    wrapped ErrUnstringifyKeyValue key ;
  valueValue <- unmarshalTo_body unmarshal (reflect.Zero valueType) valueType value
                  newByTypeIDer
    wrapped ErrUnmarshalEntry value key ;
  (* Got a nil map, initializing: reflect.MakeMap *)
  Ok (Some (reflect.SetMapIndex (reflect.MapRange m) keyValue (Some valueValue))).

(** The callback of [obj.ForEach] in [unmarshal]'s Struct case; [vals] are
    the fields of the structure being filled. *)
Definition unmarshalField
    (unmarshal : Result -> Value -> NewByTypeIDer -> result GoValue)
    (fields : list (StructField rtype)) (indexMap : gmap string nat)
    (newByTypeIDer : NewByTypeIDer)
    (vals : list GoValue) (key : string) (value : Result) : result (list GoValue) :=
  match indexMap !! key with
  | None =>
      (* we have no such field in our struct *)
      Ok vals
  | Some fieldIndex =>
      match fields !! fieldIndex, vals !! fieldIndex with
      | Some fT, Some fV =>
          if negb (String.eqb (reflect.PkgPath fT) "") then
            (* unexported *)
            Ok vals
          else
            fV <- unmarshalTo_body unmarshal fV (reflect.Type_ fT) value newByTypeIDer
              wrapped ErrUnmarshalField value key ;
            Ok (<[fieldIndex := fV]> vals)
      | _, _ => Panic "reflect: Field index out of range"
      end
  end.

(** [if !v.Elem().IsValid() { v.Set(reflect.New(v.Type().Elem())) }] for a
    pointer [v], giving [v.Elem()]: [Set] panics on a Value that is not
    addressable. *)
Definition ensureElem (elemType : rtype) (p : option GoValue) (flagAddr : bool)
    : result GoValue :=
  match p with
  | Some elem => Ok elem
  | None =>
      if flagAddr then Ok (reflect.Zero elemType)
      else Panic "reflect: reflect.Value.Set using unaddressable value"
  end.

(** [unmarshal(obj, v, newByTypeIDer)]; the result is the new content of [v],
    a pointer. *)
Fixpoint unmarshal (fuel : nat) (obj : Result) (v : Value) (newByTypeIDer : NewByTypeIDer)
    {struct fuel} : result GoValue :=
  match fuel with
  | O => OutOfFuel
  | S fuel =>
      match v with
      | ZeroValue =>
          (* the kind is Invalid, and v.Interface() panics *)
          Panic "reflect: call of reflect.Value.Interface on zero Value"
      | Val (VPointer elemType p) flagAddr =>
          elem <- ensureElem elemType p flagAddr ;
          elem <- match elem with
                  | VInterface _ _ =>
                      (* unwrapping the interface *)
                      unmarshal fuel obj (Val elem true) newByTypeIDer
                  | VPointer _ _ =>
                      unmarshal fuel obj (Val elem true) newByTypeIDer
                  | VMap keyType valueType m =>
                      (* delete all entries from the current map,
                         then parse entries to the map *)
                      m <- forEach (gjson.ForEach obj)
                             (unmarshalEntry (unmarshal fuel) keyType valueType newByTypeIDer)
                             (deleteAllEntries m) ;
                      Ok (VMap keyType valueType m)
                  | VStruct name vm pm fields vals =>
                      let indexMap := indexFields 0 fields ∅ in
                      vals <- forEach (gjson.ForEach obj)
                                (unmarshalField (unmarshal fuel) fields indexMap newByTypeIDer)
                                vals ;
                      Ok (VStruct name vm pm fields vals)
                  | _ =>
                      (* Everything else *)
                      json.Unmarshal obj elem
                  end ;
          Ok (VPointer elemType (Some elem))
      | Val x _ =>
          Err (ErrExpectedPointer (reflect.runtimeType (reflect.Interface_ x)))
      end
  end.

Definition unmarshalTo (fuel : nat) := unmarshalTo_body (unmarshal fuel).

(** [UnmarshalWithTypeIDs(b, dst, newByTypeIDer)], [b] standing for
    [gjson.ParseBytes(b)]; the result is [dst] with its new pointee. *)
Definition UnmarshalWithTypeIDs (fuel : nat) (b : Result) (dst : any)
    (newByTypeIDer : NewByTypeIDer) : result GoValue :=
  unmarshal fuel b (reflect.ValueOf dst) newByTypeIDer.


(** ** Sample types, values and resolvers

    The package is used with a type registry, which is not part of the
    encoder and decoder; the samples below stand for one: a list of types
    under their identifiers. *)

Definition registryTypeIDOf (registry : list (TypeID * rtype)) : TypeIDOfer :=
  {| TypeIDOf := fun sample =>
       match sample with
       | None => Err (ResolverError "nil sample")
       | Some x =>
           match List.find (fun e => reflect.rtype_eqb (reflect.TypeOf x) (snd e)) registry with
           | Some e => Ok (fst e)
           | None => Err (ResolverError "type is not registered")
           end
       end |}.

Definition registryNewByTypeID (registry : list (TypeID * rtype)) : NewByTypeIDer :=
  {| NewByTypeID := fun typeID =>
       match List.find (fun e => String.eqb typeID (fst e)) registry with
       | Some e => Ok (Some (reflect.New (snd e)))
       | None => Err (ResolverError "TypeID is not registered")
       end |}.

(** [type myFancyStruct struct { A int }] of the package's example. *)
Definition myFancyStruct : rtype :=
  TStruct "myFancyStruct" [] [] [reflect.mkStructField "A" "" "" TInt].

Definition sampleRegistry : list (TypeID * rtype) :=
  [("./polyjson_test.myFancyStruct"%string, myFancyStruct)].

Definition registryHandler (registry : list (TypeID * rtype)) : TypeIDHandler :=
  {| asTypeIDOfer := registryTypeIDOf registry;
     asNewByTypeIDer := registryNewByTypeID registry |}.

(** [polyjson.TypeRegistry()] after [polyjson.RegisterType(myFancyStruct{})]. *)
Definition TypeRegistry : TypeIDHandler := registryHandler sampleRegistry.

(** [any], the empty interface. *)
Definition TAny : rtype := TInterface [].

(** [map[string]int{"a": 1}] *)
Definition sampleIntMap : GoValue :=
  VMap TString TInt (Some [(VString "a", VInt 1)]).

(** [map[string]any{"a": nil}] *)
Definition sampleNilEntryMap : GoValue :=
  VMap TString TAny (Some [(VString "a", VInterface [] None)]).

(** [map[string]any{"B": myFancyStruct{A: 1}}] of the package's example. *)
Definition sampleFancyMap : GoValue :=
  VMap TString TAny
    (Some [(VString "B",
            VInterface [] (Some (VStruct "myFancyStruct" [] []
                                   [reflect.mkStructField "A" "" "" TInt] [VInt 1])))]).

(** [struct { X any `json:"x"` }] and the document [{"x":{"a":1,"b":2}}]. *)
Definition sampleHolder : rtype :=
  TStruct "holder" [] [] [reflect.mkStructField "X" "" "x" TAny].

Definition sampleTwoKeys : Result :=
  JObject [("a"%string, JNumber 1); ("b"%string, JNumber 2)].

(** An interface with one method, a struct type that implements it with a
    value receiver, one that implements it with a pointer receiver, and one
    that does not implement it. *)
Definition Calculator : rtype := TInterface ["Calculate"%string].

Definition Thresholds : rtype :=
  TStruct "Thresholds" ["Calculate"%string] [] [reflect.mkStructField "Limit" "" "" TInt].

Definition LogK : rtype :=
  TStruct "LogK" [] ["Calculate"%string] [reflect.mkStructField "K" "" "" TInt].

Definition Plain : rtype :=
  TStruct "Plain" [] [] [reflect.mkStructField "N" "" "" TInt].

Definition calculators : list (TypeID * rtype) :=
  [("Thresholds"%string, Thresholds); ("LogK"%string, LogK); ("Plain"%string, Plain)].

(** [map[string]int{"k1": 1}] and the document [{"k2":5}]. *)
Definition sampleOldMap : GoValue :=
  VMap TString TInt (Some [(VString "k1", VInt 1)]).

Definition sampleNewEntries : Result := JObject [("k2"%string, JNumber 5)].

(** [struct { hidden any }] holding a value of a type that is not registered. *)
Definition sampleHidden : GoValue :=
  VStruct "hider" [] [] [reflect.mkStructField "hidden" "polyjson_test" "" TAny]
    [VInterface [] (Some (VStruct "stranger" [] [] [] []))].

(** [struct { Shown any }] holding the same value. *)
Definition sampleShown : GoValue :=
  VStruct "shower" [] [] [reflect.mkStructField "Shown" "" "" TAny]
    [VInterface [] (Some (VStruct "stranger" [] [] [] []))].

(** [struct { A int `json:"x"`; B int `json:"x,omitempty"` }] *)
Definition sampleTwins : rtype :=
  TStruct "twins" [] []
    [reflect.mkStructField "A" "" "x" TInt; reflect.mkStructField "B" "" "x,omitempty" TInt].

(** [struct { N int `json:"n,omitempty"` }] *)
Definition sampleOmitEmpty : rtype :=
  TStruct "sparse" [] [] [reflect.mkStructField "N" "" "n,omitempty" TInt].

(** [type withSecret struct { A int; secret int }], registered, and
    [map[string]any{"B": withSecret{A: 1, secret: 2}}]. *)
Definition withSecret : rtype :=
  TStruct "withSecret" [] []
    [reflect.mkStructField "A" "" "" TInt;
     reflect.mkStructField "secret" "polyjson_test" "" TInt].

Definition secretRegistry : list (TypeID * rtype) :=
  [("withSecret"%string, withSecret)].


(** [struct { Inertia int; MovingAverage Calculator; QueueOptimal *int }]
    holding a [Thresholds]. *)
Definition sampleSettings : GoValue :=
  VStruct "settings" [] []
    [reflect.mkStructField "Inertia" "" "" TInt;
     reflect.mkStructField "MovingAverage" "" "ma,omitempty" Calculator;
     reflect.mkStructField "QueueOptimal" "" "" (TPointer TInt)]
    [VInt 7;
     VInterface ["Calculate"%string]
       (Some (VStruct "Thresholds" ["Calculate"%string] []
                [reflect.mkStructField "Limit" "" "" TInt] [VInt 3]));
     VPointer TInt (Some (VInt 100))].

(** [{"k":{"x":{"a":1,"b":2}}}], for a destination [map[string]holder]: the
    wrapper with two members sits two containers deep. *)
Definition sampleNestedDoc : Result :=
  JObject [("k"%string, JObject [("x"%string, sampleTwoKeys)])].

(** [&map[string]shower{"k": {Shown: stranger{}}}] *)
Definition sampleDeepShown : GoValue :=
  VPointer (TMap TString (reflect.TypeOf sampleShown))
    (Some (VMap TString (reflect.TypeOf sampleShown)
             (Some [(VString "k", sampleShown)]))).

(** [{"x":{"T":1},"note":{"a":1,"b":2}}]: a member [x] and a member that no
    field of [holder] is named after. *)
Definition sampleWithNote : Result :=
  JObject [("x"%string, JNull); ("note"%string, sampleTwoKeys)].

(** [map[string]any{"a": myFancyStruct{A: 1}, "b": myFancyStruct{A: 2}}], the
    entries taken in the two orders. *)
Definition sampleFancy (a : Z) : GoValue :=
  VInterface [] (Some (VStruct "myFancyStruct" [] []
                         [reflect.mkStructField "A" "" "" TInt] [VInt a])).

Definition sampleEntriesAB : list (GoValue * GoValue) :=
  [(VString "a", sampleFancy 1); (VString "b", sampleFancy 2)].

Definition sampleEntriesBA : list (GoValue * GoValue) :=
  [(VString "b", sampleFancy 2); (VString "a", sampleFancy 1)].

(** [struct { B int; A int; hidden int; Skipped int `json:"-"` }{2, 1, 3, 4}] *)
Definition unsortedFields : list (StructField rtype) :=
  [reflect.mkStructField "B" "" "" TInt;
   reflect.mkStructField "A" "" "" TInt;
   reflect.mkStructField "hidden" "polyjson_test" "" TInt;
   reflect.mkStructField "Skipped" "" "-" TInt].

Definition sampleUnsorted : GoValue :=
  VStruct "unsorted" [] [] unsortedFields [VInt 2; VInt 1; VInt 3; VInt 4].

(** [map[float64]int{math.NaN(): 1}] *)
Definition sampleNaNMap : GoValue :=
  VMap TFloat64 TInt (Some [(VFloat64 NaN, VInt 1)]).

(** [{"./polyjson_test.myFancyStruct":{"A":1},"./polyjson_test.myFancyStruct":{"A":2}}]:
    a wrapper with two members that have the same name. *)
Definition sampleRepeated : Result :=
  JObject [("./polyjson_test.myFancyStruct"%string, JObject [("A"%string, JNumber 1)]);
           ("./polyjson_test.myFancyStruct"%string, JObject [("A"%string, JNumber 2)])].

(** [struct { S string }{"\xff"}]: a string that is not valid UTF-8. *)
Definition sampleInvalidString : GoValue :=
  VStruct "labelled" [] [] [reflect.mkStructField "S" "" "" TString]
    [VString (String (ascii_of_N 255) EmptyString)].

(** [struct { F float64 }] holding NaN, and holding [1 << 70]. *)
Definition sampleMeasured (f : float64) : GoValue :=
  VStruct "measured" [] [] [reflect.mkStructField "F" "" "" TFloat64] [VFloat64 f].

(** [struct { P **int }] whose field points to a nil pointer. *)
Definition sampleNilInside : GoValue :=
  VStruct "indirect" [] [] [reflect.mkStructField "P" "" "" (TPointer (TPointer TInt))]
    [VPointer (TPointer TInt) (Some (VPointer TInt None))].

(** ** Notions used by the statements *)

(** A field the encoder visits: exported and not tagged ["-"]. *)
Definition visited (fT : StructField rtype) : bool :=
  String.eqb (reflect.PkgPath fT) "" && negb (String.eqb (reflect.Tag fT) "-").

(** What the Struct case of [marshal] stores for a field whose content is
    encoded as [b]. *)
Definition fieldValue (typeIDOfer : TypeIDOfer) (fT : StructField rtype) (fV : GoValue)
    (b : Result) : result json.anyValue :=
  if negb (isInterface (reflect.Type_ fT)) || negb (holdsValue fV) then
    Ok (json.RawMessage b)
  else
    typeID <- TypeIDOf typeIDOfer (reflect.Interface_ fV)
      wrapped ErrGetTypeID (reflect.runtimeType (reflect.Interface_ fV)) ;
    Ok (json.TypeIDMap typeID b).

(** What the Map case of [marshal] stores for an entry whose content is
    encoded as [b]. *)
Definition entryValue (typeIDOfer : TypeIDOfer) (elemT : rtype) (value : GoValue)
    (b : Result) : result json.anyValue :=
  if negb (isInterface elemT) || negb (holdsValue value) then
    Ok (json.ByteSlice b)
  else
    typeID <- TypeIDOf typeIDOfer (reflect.Interface_ value)
      wrapped ErrGetTypeID (reflect.runtimeType (reflect.Interface_ value)) ;
    Ok (json.TypeIDMap typeID b).

(** [reflect.DeepEqual(x, y)]: maps are compared by length and by looking up
    every key of [x] in [y]; floats by [==], so that NaN is not deeply equal
    to itself. *)
Fixpoint DeepEqual (x y : GoValue) {struct x} : bool :=
  match x, y with
  | VBool a, VBool b => Bool.eqb a b
  | VInt a, VInt b => Z.eqb a b
  | VString a, VString b => String.eqb a b
  | VFloat64 a, VFloat64 b => reflect.float64_eqb a b
  | VPointer t1 p1, VPointer t2 p2 =>
      reflect.rtype_eqb t1 t2
      && match p1, p2 with
         | None, None => true
         | Some a, Some b => DeepEqual a b
         | _, _ => false
         end
  | VInterface m1 d1, VInterface m2 d2 =>
      reflect.strings_eqb m1 m2
      && match d1, d2 with
         | None, None => true
         | Some a, Some b => DeepEqual a b
         | _, _ => false
         end
  | VMap k1 e1 m1, VMap k2 e2 m2 =>
      reflect.rtype_eqb k1 k2 && reflect.rtype_eqb e1 e2
      && match m1, m2 with
         | None, None => true
         | Some l1, Some l2 =>
             Nat.eqb (length l1) (length l2)
             && forallb (fun kv =>
                           match reflect.MapIndex l2 (fst kv) with
                           | Some e => DeepEqual (snd kv) e
                           | None => false
                           end) l1
         | _, _ => false
         end
  | VStruct n1 vm1 pm1 fs1 vs1, VStruct n2 vm2 pm2 fs2 vs2 =>
      reflect.rtype_eqb (TStruct n1 vm1 pm1 fs1) (TStruct n2 vm2 pm2 fs2)
      && (fix vals_equal (vs1 vs2 : list GoValue) {struct vs1} :=
            match vs1, vs2 with
            | [], [] => true
            | a :: vs1, b :: vs2 => DeepEqual a b && vals_equal vs1 vs2
            | _, _ => false
            end) vs1 vs2
  | _, _ => false
  end.

(** Every key of the map is equal to itself: none is, or holds, NaN. *)
Definition keysEqualThemselves (m : option (list (GoValue * GoValue))) : bool :=
  forallb (fun kv => reflect.GoValue_eqb (fst kv) (fst kv)) (reflect.MapRange m).

(** The resolver gives an identifier for the type of the sample. *)
Definition registered (typeIDOfer : TypeIDOfer) (d : GoValue) : bool :=
  match TypeIDOf typeIDOfer (Some d) with
  | Ok _ => true
  | _ => false
  end.

(** A slot of declared type [t] holding [v], of a value the wire format
    keeps ([portable] below stands for the recursive notion): the absent
    interface value, a present value of a registered type that satisfies the
    interface, the nil pointer, or a value that is kept. *)
Definition portableSlot (portable : GoValue -> bool) (typeIDOfer : TypeIDOfer)
    (t : rtype) (v : GoValue) : bool :=
  reflect.rtype_eqb (reflect.TypeOf v) t
  && match v with
     | VInterface _ None => true
     | VInterface methods (Some d) =>
         registered typeIDOfer d
         && reflect.AssignableTo (reflect.TypeOf d) (TInterface methods)
         && portable d
     | VPointer _ None => true
     | _ => portable v
     end.

(** An entry of a map whose element type is an interface: a string key that
    is valid UTF-8 and a present value of a registered type. *)
Definition portableEntry (portable : GoValue -> bool) (typeIDOfer : TypeIDOfer)
    (elemT : rtype) (kv : GoValue * GoValue) : bool :=
  match fst kv, snd kv with
  | VString key, VInterface methods (Some d) =>
      utf8.ValidString key
      && reflect.rtype_eqb (TInterface methods) elemT
      && registered typeIDOfer d
      && reflect.AssignableTo (reflect.TypeOf d) (TInterface methods)
      && portable d
  | _, _ => false
  end.

(** No two fields that enter [indexMap] (tag not ["-"]) have the same wire
    name. *)
Fixpoint distinctNames (fields : list (StructField rtype)) : bool :=
  match fields with
  | [] => true
  | fT :: fields =>
      (String.eqb (reflect.Tag fT) "-"
       || forallb (fun g => String.eqb (reflect.Tag g) "-"
                            || negb (String.eqb (jsonFieldName g) (jsonFieldName fT)))
            fields)
      && distinctNames fields
  end.

(** The values the wire format keeps: integers in the range of [int];
    floats other than NaN; strings that are valid UTF-8; pointers that are
    not nil, except directly in a struct field; maps that are nil, or have
    string keys, an interface element type and at least one entry, every
    entry holding a present value; structs whose fields have distinct wire
    names and, when they are written, a wire name that is valid UTF-8, when
    they are unexported or tagged ["-"], the zero value. *)
Fixpoint portable (typeIDOfer : TypeIDOfer) (v : GoValue) {struct v} : bool :=
  match v with
  | VBool _ => true
  | VString s => utf8.ValidString s
  | VInt z => json.int64_range z
  | VFloat64 NaN => false
  | VFloat64 (Float z) => bool_decide (json.roundFloat64 z = Some z)
  | VPointer elem p =>
      match p with
      | None => false
      | Some x => reflect.rtype_eqb (reflect.TypeOf x) elem && portable typeIDOfer x
      end
  | VInterface _ _ => false
  | VMap keyT elemT m =>
      match m with
      | None => true
      | Some entries =>
          reflect.rtype_eqb keyT TString
          && match entries with [] => false | _ => true end
          && bool_decide (NoDup ((fun kv => reflect.String_ (fst kv)) <$> entries))
          && forallb (portableEntry (fun d => portable typeIDOfer d) typeIDOfer elemT) entries
      end
  | VStruct name vm pm fields vals =>
      distinctNames fields
      && (fix slots (vals : list GoValue) (fields : list (StructField rtype))
              {struct vals} : bool :=
            match vals, fields with
            | [], [] => true
            | fV :: vals, fT :: fields =>
                (if visited fT then
                   utf8.ValidString (jsonFieldName fT)
                   && portableSlot (fun d => portable typeIDOfer d) typeIDOfer
                        (reflect.Type_ fT) fV
                 else DeepEqual (reflect.Zero (reflect.Type_ fT)) fV)
                && slots vals fields
            | _, _ => false
            end) vals fields
  end.




(** The calls of the decoder, and the calls a call makes: [unmarshal] calls
    itself on the pointee when that is a pointer or an interface, and calls
    [unmarshalTo] for a member of the document once the members before it
    are decoded; [unmarshalTo] calls [unmarshal] on the slot, or on the
    instance the resolver allocated. *)
Inductive call :=
| CallUnmarshal (fuel : nat) (obj : Result) (v : Value)
| CallUnmarshalTo (fuel : nat) (out : GoValue) (outType : rtype) (value : Result).

Definition returned (newByTypeIDer : NewByTypeIDer) (c : call) : result GoValue :=
  match c with
  | CallUnmarshal fuel obj v => unmarshal fuel obj v newByTypeIDer
  | CallUnmarshalTo fuel out outType value => unmarshalTo fuel out outType value newByTypeIDer
  end.

Inductive invokes (n : NewByTypeIDer) : call -> call -> Prop :=
| invokes_elem fuel obj elemType p flagAddr elem :
    ensureElem elemType p flagAddr = Ok elem ->
    match elem with VInterface _ _ | VPointer _ _ => True | _ => False end ->
    invokes n (CallUnmarshal (S fuel) obj (Val (VPointer elemType p) flagAddr))
      (CallUnmarshal fuel obj (Val elem true))
| invokes_entry fuel obj elemType p flagAddr keyType valueType m before key value after m1 :
    ensureElem elemType p flagAddr = Ok (VMap keyType valueType m) ->
    gjson.ForEach obj = before ++ (key, value) :: after ->
    forEach before (unmarshalEntry (unmarshal fuel) keyType valueType n)
      (deleteAllEntries m) = Ok m1 ->
    reflect.KindOf keyType = reflect.String ->
    invokes n (CallUnmarshal (S fuel) obj (Val (VPointer elemType p) flagAddr))
      (CallUnmarshalTo fuel (reflect.Zero valueType) valueType value)
| invokes_field fuel obj elemType p flagAddr name vm pm fields vals before key value after
    vals1 fieldIndex fT fV :
    ensureElem elemType p flagAddr = Ok (VStruct name vm pm fields vals) ->
    gjson.ForEach obj = before ++ (key, value) :: after ->
    forEach before (unmarshalField (unmarshal fuel) fields (indexFields 0 fields ∅) n) vals
    = Ok vals1 ->
    indexFields 0 fields ∅ !! key = Some fieldIndex ->
    fields !! fieldIndex = Some fT ->
    vals1 !! fieldIndex = Some fV ->
    reflect.PkgPath fT = ""%string ->
    invokes n (CallUnmarshal (S fuel) obj (Val (VPointer elemType p) flagAddr))
      (CallUnmarshalTo fuel fV (reflect.Type_ fT) value)
| invokes_content fuel out outType value :
    isInterface outType = false ->
    (reflect.KindOf outType = reflect.Pointer -> gjson.TypeOf value <> gjson.Null) ->
    invokes n (CallUnmarshalTo fuel out outType value)
      (CallUnmarshal fuel value (reflect.Addr out))
| invokes_instance fuel out outType value typeID valueUnparsed typedValuePtr :
    isInterface outType = true ->
    gjson.TypeOf value <> gjson.Null ->
    map_to_list (gjson.Map value) = [(typeID, valueUnparsed)] ->
    NewByTypeID n typeID = Ok typedValuePtr ->
    invokes n (CallUnmarshalTo fuel out outType value)
      (CallUnmarshal fuel valueUnparsed (reflect.ValueOf typedValuePtr)).

(** The values [marshal] is called on from a value: the dynamic value of an
    interface, the pointee, the values of the entries, and the values of the
    exported fields not tagged ["-"]. *)
Inductive visits : GoValue -> GoValue -> Prop :=
| visits_dynamic methods d : visits (VInterface methods (Some d)) d
| visits_pointee elem x : visits (VPointer elem (Some x)) x
| visits_entry keyT elemT entries key value :
    (key, value) ∈ entries -> visits (VMap keyT elemT (Some entries)) value
| visits_field name vm pm fields vals k fT fV :
    fields !! k = Some fT -> vals !! k = Some fV -> visited fT = true ->
    visits (VStruct name vm pm fields vals) fV.


(** The field the Struct case of [unmarshal] decodes a member named [key]
    into: the one [indexMap] gives for the name, when it is exported. *)
Definition fieldOf (fields : list (StructField rtype)) (key : string) : option nat :=
  match indexFields 0 fields ∅ !! key with
  | Some fieldIndex =>
      match fields !! fieldIndex with
      | Some fT => if String.eqb (reflect.PkgPath fT) "" then Some fieldIndex else None
      | None => None
      end
  | None => None
  end.

(** The members of a document the Struct case decodes. *)
Definition decodedMembers (fields : list (StructField rtype))
    (members : list (string * Result)) : list (string * Result) :=
  List.filter (fun kv => bool_decide (is_Some (fieldOf fields (fst kv)))) members.

(** A document that is neither an object nor an array. *)
Definition isScalar (obj : Result) : bool :=
  match obj with
  | JObject _ | JArray _ => false
  | _ => true
  end.




(** How far [unmarshal] can go into a zero value of type [t], and into a
    value, while the document stays the same: through pointers, into the
    element type of a map, into the fields of a struct. *)
Fixpoint typeDepth (t : rtype) : nat :=
  match t with
  | TPointer elem => S (typeDepth elem)
  | TMap _ elem => S (S (typeDepth elem))
  | TStruct _ _ _ fields =>
      S (S (list_sum (List.map (fun f => typeDepth (reflect.Type_ f)) fields)))
  | _ => 0
  end.

Fixpoint valueDepth (x : GoValue) : nat :=
  match x with
  | VPointer elem None => S (typeDepth elem)
  | VPointer _ (Some x) => S (valueDepth x)
  | VMap _ elem _ => S (S (typeDepth elem))
  | VStruct _ _ _ _ vals => S (S (list_sum (List.map valueDepth vals)))
  | _ => 0
  end.

(** The call [unmarshal(obj, v, newByTypeIDer)] returns: some budget is
    enough for it. *)
Definition halts (newByTypeIDer : NewByTypeIDer) (obj : Result) (v : Value) : Prop :=
  exists fuel, unmarshal fuel obj v newByTypeIDer <> OutOfFuel.

(** The members of a document, and the single member of a member that is a
    wrapper, are decoded by calls that return. *)
Definition membersHalt (newByTypeIDer : NewByTypeIDer) (obj : Result) : Prop :=
  forall key value, (key, value) ∈ gjson.ForEach obj ->
    (forall v, halts newByTypeIDer value v)
    /\ (forall typeID valueUnparsed,
          map_to_list (gjson.Map value) = [(typeID, valueUnparsed)] ->
          forall v, halts newByTypeIDer valueUnparsed v).

(** Values as Go's type system has them: a pointee has the element type of
    its pointer, the dynamic value of an interface is not itself an
    interface and implements it, the keys and elements of a map have the
    map's key and element types, and a struct has one value for each of its
    fields, of the field's type. *)
Fixpoint wellTyped (x : GoValue) {struct x} : bool :=
  match x with
  | VBool _ | VInt _ | VString _ | VFloat64 _ => true
  | VPointer elem p =>
      match p with
      | None => true
      | Some x => reflect.rtype_eqb (reflect.TypeOf x) elem && wellTyped x
      end
  | VInterface methods dyn =>
      match dyn with
      | None => true
      | Some d =>
          negb (isInterface (reflect.TypeOf d))
          && reflect.AssignableTo (reflect.TypeOf d) (TInterface methods)
          && wellTyped d
      end
  | VMap key elem m =>
      match m with
      | None => true
      | Some entries =>
          forallb (fun kv => reflect.rtype_eqb (reflect.TypeOf (fst kv)) key
                             && wellTyped (fst kv)
                             && reflect.rtype_eqb (reflect.TypeOf (snd kv)) elem
                             && wellTyped (snd kv)) entries
      end
  | VStruct _ _ _ fields vals =>
      (fix slots (vals : list GoValue) (fields : list (StructField rtype))
           {struct vals} : bool :=
         match vals, fields with
         | [], [] => true
         | fV :: vals, fT :: fields =>
             reflect.rtype_eqb (reflect.TypeOf fV) (reflect.Type_ fT) && wellTyped fV
             && slots vals fields
         | _, _ => false
         end) vals fields
  end.

(** A value that is not a nil pointer. *)
Definition allocated (x : GoValue) : bool :=
  match x with
  | VPointer _ None => false
  | _ => true
  end.

(** A resolver that answers [NewByTypeID] with an error or with a well-typed
    value that is not nil ("a pointer to an object of the type specified
    through TypeID"). *)
Definition soundResolver (newByTypeIDer : NewByTypeIDer) : Prop :=
  forall typeID,
    match NewByTypeID newByTypeIDer typeID with
    | Ok (Some x) => wellTyped x = true /\ allocated x = true
    | Err _ => True
    | _ => False
    end.

(** A result that is no panic and, when it is a value, is a well-typed value
    of type [t]. *)
Definition safeResult (t : rtype) (r : result GoValue) : Prop :=
  match r with
  | Ok res => wellTyped res = true /\ reflect.TypeOf res = t
  | Panic _ => False
  | _ => True
  end.

(** [x] behind [k] pointers that are not nil: [&x], [&&x], ... *)
Fixpoint pointerTo (k : nat) (x : GoValue) : GoValue :=
  match k with
  | O => x
  | S k => VPointer (reflect.TypeOf (pointerTo k x)) (Some (pointerTo k x))
  end.

(** * Induction principles and equality *)

Lemma rtype_ind_nested (P : rtype -> Prop) :
  P TBool -> P TInt -> P TString ->
  (forall elem, P elem -> P (TPointer elem)) ->
  (forall methods, P (TInterface methods)) ->
  (forall key elem, P key -> P elem -> P (TMap key elem)) ->
  (forall name vm pm fields,
     Forall (fun f => P (reflect.Type_ f)) fields -> P (TStruct name vm pm fields)) ->
  P TFloat64 ->
  forall t, P t.
Proof.
  intros HB HI HS HP HIf HM HSt HF. fix IH 1. intros [].
  - exact HB.
  - exact HI.
  - exact HS.
  - apply HP, IH.
  - apply HIf.
  - apply HM; apply IH.
  - apply HSt.
    exact ((fix go (l : list (StructField rtype))
              : Forall (fun f => P (reflect.Type_ f)) l :=
              match l with
              | [] => List.Forall_nil _
              | f :: l => List.Forall_cons _ f l (IH (reflect.Type_ f)) (go l)
              end) fields).
  - exact HF.
Qed.


Lemma strings_eqb_eq l1 l2 : reflect.strings_eqb l1 l2 = true <-> l1 = l2.
Proof. unfold reflect.strings_eqb. apply bool_decide_eq_true. Qed.

Lemma rtype_eqb_eq (t u : rtype) : reflect.rtype_eqb t u = true <-> t = u.
Proof.
  revert u. induction t as [| | |a IH|m|k e IHk IHe|n vm pm fs IH|] using rtype_ind_nested;
    intros []; simpl; split; try discriminate; try reflexivity; intros H.
  - f_equal. apply IH; assumption.
  - injection H as <-. apply IH; reflexivity.
  - f_equal. apply strings_eqb_eq; assumption.
  - injection H as <-. apply strings_eqb_eq; reflexivity.
  - apply andb_true_iff in H as [H1 H2]. f_equal; [apply IHk | apply IHe]; assumption.
  - injection H as <- <-. apply andb_true_iff; split; [apply IHk | apply IHe]; reflexivity.
  - repeat (apply andb_true_iff in H as [H ?]).
    apply String.eqb_eq in H. apply strings_eqb_eq in H2, H1. subst. f_equal.
    clear - IH H0. revert fields H0.
    induction IH as [|f fs Hf _ IHfs]; intros [|g gs]; try discriminate; [reflexivity|].
    intros H. repeat (apply andb_true_iff in H as [H ?]).
    apply String.eqb_eq in H, H3, H2. apply Hf in H1. apply IHfs in H0.
    destruct f, g; simpl in *; subst; reflexivity.
  - injection H as <- <- <- <-.
    rewrite String.eqb_refl. simpl.
    rewrite (proj2 (strings_eqb_eq vm vm) eq_refl), (proj2 (strings_eqb_eq pm pm) eq_refl).
    simpl. induction IH as [|f fs Hf _ IHfs]; [reflexivity|].
    rewrite !String.eqb_refl, (proj2 (Hf _) eq_refl), IHfs. reflexivity.
Qed.

Lemma rtype_eqb_refl (t : rtype) : reflect.rtype_eqb t t = true.
Proof. apply rtype_eqb_eq; reflexivity. Qed.

(** Go's [==] is not reflexive: a value that is or holds NaN is not equal to
    itself.  A string is. *)
Lemma GoValue_eqb_string (s : string) : reflect.GoValue_eqb (VString s) (VString s) = true.
Proof. apply String.eqb_refl. Qed.

Lemma GoValue_eqb_String k s : reflect.GoValue_eqb k (VString s) = true -> k = VString s.
Proof.
  destruct k; try discriminate. cbn. intros E. apply String.eqb_eq in E. congruence.
Qed.

Lemma Result_ind_nested (P : Result -> Prop) :
  P JNull -> (forall b, P (JBool b)) -> (forall z, P (JNumber z)) ->
  (forall s, P (JString s)) ->
  (forall l, Forall P l -> P (JArray l)) ->
  (forall l, Forall (fun kv => P (snd kv)) l -> P (JObject l)) ->
  forall t, P t.
Proof.
  intros HN HB HZ HS HA HO. fix IH 1. intros [].
  - exact HN.
  - apply HB.
  - apply HZ.
  - apply HS.
  - apply HA.
    exact ((fix go (l : list Result) : Forall P l :=
              match l with
              | [] => List.Forall_nil _
              | x :: l => List.Forall_cons _ x l (IH x) (go l)
              end) l).
  - apply HO.
    exact ((fix go (l : list (string * Result)) : Forall (fun kv => P (snd kv)) l :=
              match l with
              | [] => List.Forall_nil _
              | kv :: l => List.Forall_cons _ kv l (IH (snd kv)) (go l)
              end) l).
Qed.

(** * Strings that are valid UTF-8 *)

Lemma coerceFrom_valid (s : string) : forall pending,
  utf8.validFrom pending s = true -> utf8.coerceFrom pending s = s.
Proof.
  induction s as [|c s IH]; intros pending H; [reflexivity|].
  cbn [utf8.validFrom utf8.coerceFrom] in *.
  destruct pending as [|k]; [|f_equal; apply IH; exact H].
  destruct (utf8.runeWidth (String c s)) as [|k]; [discriminate|].
  f_equal. apply IH. exact H.
Qed.

Lemma coerce_valid (s : string) : utf8.ValidString s = true -> utf8.coerce s = s.
Proof. apply coerceFrom_valid. Qed.

Lemma writeNames_valid (l : list (string * Result)) :
  Forall (fun kv => utf8.ValidString (fst kv) = true) l -> json.writeNames l = l.
Proof.
  induction 1 as [|[k x] l Hk _ IH]; [reflexivity|].
  cbn [json.writeNames List.map fst snd] in *. rewrite (coerce_valid k Hk).
  f_equal. exact IH.
Qed.

Lemma writeNames_elem (l : list (string * Result)) key x :
  (key, x) ∈ l -> (utf8.coerce key, x) ∈ json.writeNames l.
Proof.
  intros H. apply list_elem_of_In, in_map_iff. exists (key, x).
  split; [reflexivity | apply list_elem_of_In; exact H].
Qed.

Lemma writeNames_elem_inv (l : list (string * Result)) name x :
  (name, x) ∈ json.writeNames l -> exists key, name = utf8.coerce key /\ (key, x) ∈ l.
Proof.
  intros H. apply list_elem_of_In, in_map_iff in H as ([key x'] & [= <- <-] & H).
  exists key. split; [reflexivity | apply list_elem_of_In; exact H].
Qed.

(** * Properties *)

(** ** The package's example *)

Example example_marshal :
  MarshalWithTypeIDs (Some sampleFancyMap) TypeRegistry
  = Ok (JObject [("B"%string,
                  JObject [("./polyjson_test.myFancyStruct"%string,
                            JObject [("A"%string, JNumber 1)])])]).
Proof. vm_compute. reflexivity. Qed.

Example example_unmarshal :
  UnmarshalWithTypeIDs 4
    (JObject [("B"%string,
               JObject [("./polyjson_test.myFancyStruct"%string,
                         JObject [("A"%string, JNumber 1)])])])
    (Some (reflect.New (TMap TString TAny))) TypeRegistry
  = Ok (VPointer (TMap TString TAny) (Some sampleFancyMap)).
Proof. vm_compute. reflexivity. Qed.

(** ** Key codec *)

(** C8.  [stringifyMapKey] and [unstringifyMapKey] succeed on every key of
    kind String, giving the key's string and storing the given string, and on
    a key of any other kind both return an error that carries the key's
    runtime type (the operand of [%T]). *)
Theorem C8_map_key_codec (mapKey : GoValue) (s : string) :
  (reflect.KindOf (reflect.TypeOf mapKey) = reflect.String ->
     (exists str, mapKey = VString str /\ stringifyMapKey mapKey = Ok str)
     /\ unstringifyMapKey mapKey s = Ok (VString s))
  /\ (reflect.KindOf (reflect.TypeOf mapKey) <> reflect.String ->
     stringifyMapKey mapKey
       = Err (ErrStringifyMapKey (reflect.Interface_ mapKey)
                (reflect.runtimeType (reflect.Interface_ mapKey)))
     /\ unstringifyMapKey mapKey s
       = Err (ErrUnstringifyMapKey (reflect.runtimeType (reflect.Interface_ mapKey)) s)).
Proof.
  unfold stringifyMapKey, unstringifyMapKey.
  destruct mapKey; simpl; split; intros H; try discriminate; try (split; reflexivity);
    try (exfalso; apply H; reflexivity).
  split; [eexists; split; reflexivity | reflexivity].
Qed.

(** In the encoder a key of another kind fails the whole map, ... *)
Lemma marshal_map_key_not_string keyT elemT mapKey value rest r :
  reflect.KindOf (reflect.TypeOf mapKey) <> reflect.String ->
  marshal (VMap keyT elemT (Some ((mapKey, value) :: rest))) r
  = Err (ErrStringifyMapKeyOfType (reflect.runtimeType (reflect.Interface_ mapKey))
           (ErrStringifyMapKey (reflect.Interface_ mapKey)
              (reflect.runtimeType (reflect.Interface_ mapKey)))).
Proof.
  intros H. simpl. unfold stringifyMapKey.
  destruct (reflect.KindOf (reflect.TypeOf mapKey)); try reflexivity. contradiction.
Qed.

(** ... and in the decoder a key type of another kind fails the first
    member. *)
Lemma unmarshal_map_key_not_string fuel obj t keyType elemT m flagAddr r key value rest :
  reflect.KindOf keyType <> reflect.String ->
  gjson.ForEach obj = (key, value) :: rest ->
  unmarshal (S fuel) obj (Val (VPointer t (Some (VMap keyType elemT m))) flagAddr) r
  = Err (ErrUnstringifyKeyValue key
           (ErrUnstringifyMapKey
              (reflect.runtimeType (reflect.Interface_ (reflect.Zero keyType))) key)).
Proof.
  intros H Hobj. simpl. rewrite Hobj. simpl. unfold unmarshalEntry, unstringifyMapKey.
  destruct keyType; try reflexivity. contradiction.
Qed.

(** ** Basic facts *)

Lemma andThen_Ok {A B} (r : result A) (w : error -> error) (k : A -> result B) (b : B) :
  andThen r w k = Ok b <-> exists a, r = Ok a /\ k a = Ok b.
Proof.
  destruct r; simpl; split; try discriminate.
  - eauto.
  - intros (? & [= <-] & ?); assumption.
  - intros (? & [=] & ?).
  - intros (? & [=] & ?).
  - intros (? & [=] & ?).
Qed.

Lemma TypeOf_Zero (t : rtype) : reflect.TypeOf (reflect.Zero t) = t.
Proof. destruct t; reflexivity. Qed.

(** A successful [unmarshal] was given a pointer and leaves it non-nil. *)
Lemma unmarshal_Ok_pointer fuel obj v r x :
  unmarshal fuel obj v r = Ok x ->
  exists elemType p flagAddr elem,
    v = Val (VPointer elemType p) flagAddr /\ x = VPointer elemType (Some elem).
Proof.
  destruct fuel as [|fuel]; [discriminate|]. simpl.
  destruct v as [|[] flagAddr]; try discriminate.
  intros H. apply andThen_Ok in H as (e1 & _ & H).
  apply andThen_Ok in H as (e2 & _ & [= <-]). eauto 6.
Qed.

(** ** Destination shape *)

(** C4.  What [UnmarshalWithTypeIDs] does with a destination of the wrong
    shape, whatever the input and the resolver: a value that is not a pointer
    gives the error "expected a pointer destination"; a nil pointer makes the
    call panic in [v.Set], the Value of the destination not being
    addressable; the untyped nil makes it panic in [v.Interface()], while the
    error is being formatted. *)
Theorem C4_destination_shape (fuel : nat) (b : Result) (r : NewByTypeIDer) :
  (forall x, reflect.Kind_ (reflect.ValueOf (Some x)) <> reflect.Pointer ->
     UnmarshalWithTypeIDs (S fuel) b (Some x) r
     = Err (ErrExpectedPointer (reflect.runtimeType (reflect.Interface_ x))))
  /\ (forall elemType,
     UnmarshalWithTypeIDs (S fuel) b (Some (VPointer elemType None)) r
     = Panic "reflect: reflect.Value.Set using unaddressable value")
  /\ UnmarshalWithTypeIDs (S fuel) b None r
     = Panic "reflect: call of reflect.Value.Interface on zero Value".
Proof.
  repeat split.
  intros x Hx. destruct x; try reflexivity. exfalso; apply Hx; reflexivity.
Qed.

(** ** Map entries *)

(** C2.  Encoding [map[string]int{"a": 1}]: the entry's content is encoded
    as [1], and the member of the output is the JSON string ["MQ=="], the
    base64 encoding of the bytes of that content. *)
Theorem C2_map_entry_not_embedded :
  marshal (VInt 1) TypeRegistry = Ok (JNumber 1)
  /\ MarshalWithTypeIDs (Some sampleIntMap) TypeRegistry
     = Ok (JObject [("a"%string, JString "MQ==")]).
Proof. split; vm_compute; reflexivity. Qed.

(** The same for every entry whose content is put directly: of a map whose
    element type is not an interface, or holding the untyped nil. *)
Lemma marshal_map_entry_ByteSlice (k : string) (v b : _) (elemT : rtype) (r : TypeIDOfer) :
  marshal v r = Ok b ->
  negb (isInterface elemT) || negb (holdsValue v) = true ->
  marshal (VMap TString elemT (Some [(VString k, v)])) r
  = Ok (JObject [(utf8.coerce k, JString (json.base64 (json.bytes (json.render b))))]).
Proof.
  intros Hb Hd. simpl. rewrite Hb. simpl. rewrite Hd.
  unfold json.Marshal_map. rewrite insert_empty, map_fmap_singleton, map_to_list_singleton.
  reflexivity.
Qed.

(** C3.  An absent value in an interface slot of a map,
    [map[string]any{"a": nil}]: the member of the output is the JSON string
    ["bnVsbA=="] (the base64 encoding of [null]), and decoding the output
    into a [map[string]any] fails, the string not being a one-member
    object. *)
Theorem C3_absent_map_entry :
  MarshalWithTypeIDs (Some sampleNilEntryMap) TypeRegistry
  = Ok (JObject [("a"%string, JString "bnVsbA==")])
  /\ forall fuel,
     UnmarshalWithTypeIDs (S (S fuel)) (JObject [("a"%string, JString "bnVsbA==")])
       (Some (reflect.New (TMap TString TAny))) TypeRegistry
     = Err (ErrUnmarshalEntry (JString "bnVsbA==") "a" (ErrExpectedExactlyOne 0)).
Proof. split; [vm_compute; reflexivity | intros fuel; reflexivity]. Qed.

(** In a struct field the absent value is written as [null] and read back as
    the absent value. *)
Lemma marshal_absent_interface (methods : list string) (r : TypeIDOfer) :
  marshal (VInterface methods None) r = Ok JNull.
Proof. reflexivity. Qed.

Lemma unmarshalTo_null_interface fuel out (methods : list string) (r : NewByTypeIDer) :
  unmarshalTo fuel out (TInterface methods) JNull r = Ok (VInterface methods None).
Proof. reflexivity. Qed.

Lemma marshal_struct_absent_field (name fieldName tag : string) (methods : list string)
    (r : TypeIDOfer) :
  tag <> "-"%string ->
  marshal (VStruct name [] []
             [reflect.mkStructField fieldName "" tag (TInterface methods)]
             [VInterface methods None]) r
  = Ok (JObject [(utf8.coerce
                    (jsonFieldName
                       (reflect.mkStructField fieldName "" tag (TInterface methods))),
                  JNull)]).
Proof.
  intros Htag. simpl.
  destruct (String.eqb_spec tag "-"); [contradiction|].
  unfold json.Marshal_map. rewrite insert_empty, map_fmap_singleton, map_to_list_singleton.
  reflexivity.
Qed.

(** ** Interface slots *)

(** An iteration does not succeed when the callback fails on one of its
    entries, whatever the state it is called in. *)
Lemma forEach_not_Ok {S} (l : list (string * Result)) body (s : S) key value :
  (key, value) ∈ l ->
  (forall s s', body s key value <> Ok s') ->
  forall s', forEach l body s <> Ok s'.
Proof.
  intros Hin Hbody. revert s.
  induction l as [|[k v] l IH]; intros s s'; [inversion Hin|].
  simpl. apply elem_of_cons in Hin as [[= <- <-]|Hin].
  - destruct (body s key value) eqn:E; simpl; try discriminate.
    exfalso; eapply Hbody; eassumption.
  - destruct (body s k v); simpl; try discriminate. apply IH; assumption.
Qed.

Lemma map_to_list_singleton_size {A} (m : gmap string A) k x :
  map_to_list m = [(k, x)] -> size m = 1%nat.
Proof. intros H. rewrite <- length_map_to_list, H. reflexivity. Qed.

(** The check [len(m) != 1] of [unmarshalTo]. *)
Lemma unmarshalTo_malformed fuel out methods value r :
  gjson.TypeOf value <> gjson.Null ->
  size (gjson.Map value) <> 1%nat ->
  unmarshalTo fuel out (TInterface methods) value r
  = Err (ErrExpectedExactlyOne (size (gjson.Map value))).
Proof.
  intros Hnull Hsize. unfold unmarshalTo, unmarshalTo_body. simpl.
  destruct (gjson.TypeOf value) eqn:E; try contradiction;
    (destruct (map_to_list (gjson.Map value)) as [|[k x] [|]] eqn:El; try reflexivity;
     apply map_to_list_singleton_size in El; contradiction).
Qed.

Lemma json_Unmarshal_Ok_scalar raw cur x :
  json.Unmarshal raw cur = Ok x -> reflect.Interface_ x = Some x.
Proof.
  unfold json.Unmarshal.
  destruct raw, cur; try discriminate; try (intros [= <-]; reflexivity).
  - destruct (json.int64_range _); [intros [= <-]; reflexivity | discriminate].
  - destruct (json.roundFloat64 _); [intros [= <-]; reflexivity | discriminate].
Qed.

(** A successful [unmarshal] does not leave an interface behind the pointer:
    for a pointer to an interface the recursive call fails, its destination
    not being a pointer. *)
Lemma unmarshal_Ok_not_interface fuel obj v r elemType elem :
  unmarshal fuel obj v r = Ok (VPointer elemType (Some elem)) ->
  reflect.Interface_ elem = Some elem.
Proof.
  destruct fuel as [|fuel]; [discriminate|]. simpl.
  destruct v as [|[] flagAddr]; try discriminate.
  intros H. apply andThen_Ok in H as (e1 & _ & H).
  apply andThen_Ok in H as (e2 & H & [= _ <-]).
  destruct e1; try (eapply json_Unmarshal_Ok_scalar; exact H).
  - apply unmarshal_Ok_pointer in H as (? & ? & ? & ? & _ & ->). reflexivity.
  - destruct fuel; discriminate.
  - apply andThen_Ok in H as (? & _ & [= <-]). reflexivity.
  - apply andThen_Ok in H as (? & _ & [= <-]). reflexivity.
Qed.

(** [value.Map()] keeps, of the members of a name, the first one. *)
Lemma Map_first_member key x members :
  gjson.Map (JObject ((key, x) :: members)) !! key = Some x.
Proof.
  cbn [gjson.Map foldl fst snd]. rewrite lookup_empty.
  assert (H : forall (l : list (string * Result)) (m : gmap string Result),
            m !! key = Some x ->
            foldl (fun m kv =>
                     match m !! fst kv with
                     | Some _ => m
                     | None => <[fst kv := snd kv]> m
                     end) m l !! key = Some x).
  { induction l as [|[k v] l IH]; intros m Hm; cbn [foldl fst snd]; [exact Hm|].
    apply IH. destruct (m !! k) eqn:E; [exact Hm|].
    rewrite lookup_insert_ne; [exact Hm|]. intros ->. congruence. }
  apply H. apply lookup_insert_eq.
Qed.

(** C7.  In [unmarshalTo], for a slot declared with an interface type and a
    wrapper whose members have one name, [valueUnparsed] being what
    [value.Map()] holds under it (the first of them): once the content is
    decoded into the instance the resolver allocated, the slot receives the dereferenced value when its
    type is assignable to the declared interface, otherwise the pointer
    itself when the pointer's type is assignable, and otherwise the call
    fails with the internal error "do not know how to assign". *)
Theorem C7_interface_slot_assignment (fuel : nat) (methods : list string)
    (dyn : option GoValue) (value : Result) (r : NewByTypeIDer)
    (typeID : TypeID) (valueUnparsed : Result) (typedValuePtr : any)
    (contentOut : GoValue) :
  gjson.TypeOf value <> gjson.Null ->
  map_to_list (gjson.Map value) = [(typeID, valueUnparsed)] ->
  NewByTypeID r typeID = Ok typedValuePtr ->
  unmarshal fuel valueUnparsed (reflect.ValueOf typedValuePtr) r = Ok contentOut ->
  exists elemType elem,
    contentOut = VPointer elemType (Some elem)
    /\ unmarshalTo fuel (VInterface methods dyn) (TInterface methods) value r
       = if reflect.AssignableTo (reflect.TypeOf elem) (TInterface methods) then
           Ok (VInterface methods (Some elem))
         else if reflect.AssignableTo (TPointer elemType) (TInterface methods) then
           Ok (VInterface methods (Some contentOut))
         else Err (ErrAssign (TInterface methods)).
Proof.
  intros Hnull Hm Hnew Hdec.
  destruct (unmarshal_Ok_pointer _ _ _ _ _ Hdec) as (elemType & p & fl & elem & _ & ->).
  exists elemType, elem. split; [reflexivity|].
  pose proof (unmarshal_Ok_not_interface _ _ _ _ _ _ Hdec) as Hi.
  unfold unmarshalTo, unmarshalTo_body. simpl.
  assert (E : forall A (a b : A),
             match gjson.TypeOf value with gjson.Null => a | _ => b end = b).
  { intros A a b. destruct (gjson.TypeOf value); try reflexivity. contradiction. }
  rewrite E, Hm, Hnew. simpl. rewrite Hdec. simpl. rewrite Hi. reflexivity.
Qed.

(** The reference-receiver case: [*LogK] implements [Calculator], [LogK]
    does not, and the slot receives the pointer. *)
Lemma C7_interface_slot_assignment_witness :
  unmarshalTo 2 (VInterface ["Calculate"%string] None) Calculator
    (JObject [("LogK"%string, JObject [("K"%string, JNumber 2)])])
    (registryHandler calculators)
  = Ok (VInterface ["Calculate"%string]
          (Some (VPointer LogK
                   (Some (VStruct "LogK" [] ["Calculate"%string]
                            [reflect.mkStructField "K" "" "" TInt] [VInt 2]))))).
Proof.
  destruct (C7_interface_slot_assignment 2 ["Calculate"%string] None
              (JObject [("LogK"%string, JObject [("K"%string, JNumber 2)])])
              (registryHandler calculators)
              "LogK"%string (JObject [("K"%string, JNumber 2)])
              (Some (reflect.New LogK))
              (VPointer LogK
                 (Some (VStruct "LogK" [] ["Calculate"%string]
                          [reflect.mkStructField "K" "" "" TInt] [VInt 2]))))
    as (elemType & elem & Heq & Hres).
  - discriminate.
  - vm_compute. reflexivity.
  - reflexivity.
  - vm_compute. reflexivity.
  - injection Heq as <- <-. exact Hres.
Defined.

Example interface_slot_value_case :
  unmarshalTo 2 (VInterface ["Calculate"%string] None) Calculator
    (JObject [("Thresholds"%string, JObject [("Limit"%string, JNumber 7)])])
    (registryHandler calculators)
  = Ok (VInterface ["Calculate"%string]
          (Some (VStruct "Thresholds" ["Calculate"%string] []
                   [reflect.mkStructField "Limit" "" "" TInt] [VInt 7]))).
Proof. vm_compute. reflexivity. Qed.

(** A wrapper that repeats its name: the first member is decoded. *)
Example interface_slot_repeated_name :
  map_to_list (gjson.Map sampleRepeated)
  = [("./polyjson_test.myFancyStruct"%string, JObject [("A"%string, JNumber 1)])]
  /\ unmarshalTo 2 (VInterface [] None) TAny sampleRepeated TypeRegistry
     = Ok (sampleFancy 1).
Proof. split; vm_compute; reflexivity. Qed.

Example interface_slot_not_assignable :
  unmarshalTo 2 (VInterface ["Calculate"%string] None) Calculator
    (JObject [("Plain"%string, JObject [("N"%string, JNumber 7)])])
    (registryHandler calculators)
  = Err (ErrAssign Calculator).
Proof. vm_compute. reflexivity. Qed.

(** ** Decoding into a map *)

Lemma delete_all_entries (l0 ks : list (GoValue * GoValue)) :
  foldl (fun l kv => reflect.SetMapIndex l (fst kv) None) l0 ks
  = List.filter
      (fun kv' => forallb (fun kv => negb (reflect.GoValue_eqb (fst kv') (fst kv))) ks) l0.
Proof.
  revert l0. induction ks as [|kv ks IH]; intros l0; simpl.
  - induction l0 as [|x l0 IHl]; simpl; [reflexivity | f_equal; exact IHl].
  - rewrite IH. clear IH. induction l0 as [|x l0 IHl]; simpl; [reflexivity|].
    destruct (reflect.GoValue_eqb (fst x) (fst kv)); simpl; [exact IHl|].
    destruct (forallb _ ks); simpl; [f_equal|]; exact IHl.
Qed.

(** The loop "delete all entries from the current map" leaves no entry of a
    map whose keys are equal to themselves. *)
Lemma delete_all_entries_nil (l : list (GoValue * GoValue)) :
  keysEqualThemselves (Some l) = true ->
  foldl (fun l kv => reflect.SetMapIndex l (fst kv) None) l l = [].
Proof.
  intros Hself. rewrite delete_all_entries.
  assert (H : forall ks, l ⊆ ks ->
            List.filter
              (fun kv' => forallb (fun kv => negb (reflect.GoValue_eqb (fst kv') (fst kv))) ks)
              l = []).
  { intros ks. cbn in Hself. induction l as [|x l IH]; intros Hsub; simpl; [reflexivity|].
    cbn in Hself. apply andb_true_iff in Hself as [Hx' Hself].
    assert (Hx : x ∈ ks) by (apply Hsub; left).
    assert (E : forallb (fun kv => negb (reflect.GoValue_eqb (fst x) (fst kv))) ks = false).
    { apply not_true_is_false. intros Hall.
      rewrite forallb_forall in Hall. apply list_elem_of_In in Hx.
      specialize (Hall x Hx). rewrite Hx' in Hall. discriminate. }
    rewrite E. apply IH; [exact Hself|]. intros y Hy. apply Hsub. right. exact Hy. }
  apply H. reflexivity.
Qed.

(** What the loop leaves was in the map. *)
Lemma deleteAllEntries_subseteq m : reflect.MapRange (deleteAllEntries m) ⊆ reflect.MapRange m.
Proof.
  destruct m as [l|]; cbn [deleteAllEntries reflect.MapRange]; [|reflexivity].
  rewrite delete_all_entries. intros x Hx.
  apply list_elem_of_In, filter_In in Hx as [Hx _]. apply list_elem_of_In. exact Hx.
Qed.

Lemma MapAssign_keys (l : list (GoValue * GoValue)) (s : string) (e key : GoValue) :
  key ∈ (reflect.MapAssign l (VString s) e).*1 <-> key ∈ l.*1 \/ key = VString s.
Proof.
  induction l as [|[k x] l IH]; csimpl.
  - set_solver.
  - destruct (reflect.GoValue_eqb k (VString s)) eqn:E; csimpl.
    + apply GoValue_eqb_String in E as ->. set_solver.
    + set_solver.
Qed.

Lemma unstringifyMapKey_Zero_Ok keyType key keyValue :
  unstringifyMapKey (reflect.Zero keyType) key = Ok keyValue -> keyValue = VString key.
Proof.
  unfold unstringifyMapKey. rewrite TypeOf_Zero.
  destruct keyType; simpl; try discriminate. intros [= <-]. reflexivity.
Qed.

(** The keys after the loop "parse entries to the map": those the map had,
    and the keys of the entries. *)
Lemma forEach_map_keys fuel keyType valueType r entries m m' :
  forEach entries (unmarshalEntry (unmarshal fuel) keyType valueType r) m = Ok m' ->
  forall key,
    key ∈ (reflect.MapRange m').*1
    <-> key ∈ (reflect.MapRange m).*1 \/ exists s, key = VString s /\ s ∈ entries.*1.
Proof.
  revert m. induction entries as [|[k v] entries IH]; intros m H key; simpl in H.
  - injection H as <-. split; [auto | intros [H|(s & _ & H)]; [exact H | inversion H]].
  - apply andThen_Ok in H as (m1 & H1 & H).
    apply andThen_Ok in H1 as (keyValue & Hk & H1).
    apply andThen_Ok in H1 as (valueValue & _ & [= <-]).
    apply unstringifyMapKey_Zero_Ok in Hk as ->.
    rewrite (IH _ H key). csimpl. rewrite MapAssign_keys.
    split.
    + intros [[Hm| ->]|(s & -> & Hs)]; [auto | right; exists k; set_solver
                                        | right; exists s; set_solver].
    + intros [Hm|(s & -> & Hs)]; [auto|].
      apply elem_of_cons in Hs as [->|Hs]; eauto 6.
Qed.

Lemma deleteAllEntries_empty m :
  keysEqualThemselves m = true -> deleteAllEntries m = (fun _ => []) <$> m.
Proof.
  intros Hself. destruct m; simpl; [rewrite delete_all_entries_nil|]; auto.
Qed.

(** C6.  The loop "delete all entries from the current map" does not delete
    an entry whose key is NaN: [SetMapIndex] looks the key up, and NaN is
    equal to no key.  Decoding [{}] into a [map[float64]int] that holds an
    entry under NaN succeeds, with any budget from 2 on, and the entry is
    still in the map, although the document has no member. *)
Theorem C6_nan_key_kept (k : nat) :
  UnmarshalWithTypeIDs (2 + k) (JObject [])
    (Some (VPointer (TMap TFloat64 TInt) (Some sampleNaNMap))) TypeRegistry
  = Ok (VPointer (TMap TFloat64 TInt) (Some sampleNaNMap))
  /\ reflect.MapRange (deleteAllEntries (Some [(VFloat64 NaN, VInt 1)]))
     = [(VFloat64 NaN, VInt 1)].
Proof. split; reflexivity. Qed.

(** ** The loops of the encoder *)

Lemma visited_spec fT :
  visited fT = true <-> reflect.PkgPath fT = ""%string /\ reflect.Tag fT <> "-"%string.
Proof.
  unfold visited. rewrite andb_true_iff, negb_true_iff, String.eqb_eq.
  destruct (String.eqb_spec (reflect.Tag fT) "-"); intuition congruence.
Qed.

(** One step of the loop over the fields. *)
Lemma marshalFields_cons M r t fT fields fV vals i mf :
  marshalFields M r t (fV :: vals) (fT :: fields) i mf
  = if visited fT then
      b <- M fV wrapped ErrSerializeField i (reflect.Name fT) (Some t) ;
      x <- fieldValue r fT fV b ;
      marshalFields M r t vals fields (S i) (<[jsonFieldName fT := x]> mf)
    else marshalFields M r t vals fields (S i) mf.
Proof.
  simpl. unfold visited, fieldValue.
  destruct (String.eqb (reflect.PkgPath fT) ""); simpl; [|reflexivity].
  destruct (String.eqb (reflect.Tag fT) "-"); simpl; [reflexivity|].
  destruct (M fV); simpl; try reflexivity.
  destruct (negb (isInterface (reflect.Type_ fT)) || negb (holdsValue fV)); simpl;
    [reflexivity|].
  destruct (TypeIDOf r (reflect.Interface_ fV)); reflexivity.
Qed.

Lemma marshalEntries_cons M r elemT key value entries mf :
  marshalEntries M r elemT ((key, value) :: entries) mf
  = (jsonFieldName <- stringifyMapKey key
       wrapped ErrStringifyMapKeyOfType (reflect.runtimeType (reflect.Interface_ key)) ;
     b <- M value wrapped ErrSerializeMapEntry jsonFieldName ;
     x <- entryValue r elemT value b ;
     marshalEntries M r elemT entries (<[jsonFieldName := x]> mf)).
Proof.
  simpl. unfold entryValue.
  destruct (stringifyMapKey key); simpl; try reflexivity.
  destruct (M value); simpl; try reflexivity.
  destruct (negb (isInterface elemT) || negb (holdsValue value)); simpl; [reflexivity|].
  destruct (TypeIDOf r (reflect.Interface_ value)); reflexivity.
Qed.

Lemma marshal_struct_eq name vm pm fields vals r :
  marshal (VStruct name vm pm fields vals) r
  = marshalFields (fun v => marshal v r) r (TStruct name vm pm fields) vals fields 0 ∅.
Proof. reflexivity. Qed.

Lemma marshal_map_eq keyT elemT entries r :
  marshal (VMap keyT elemT (Some entries)) r
  = marshalEntries (fun v => marshal v r) r elemT entries ∅.
Proof. reflexivity. Qed.

#[local] Instance key_le_total : Total json.key_le.
Proof. intros a b. apply String.leb_total. Qed.

(** The members of the object [json.Marshal] writes for a map: the entries
    of the map, sorted by key, their keys written as strings are. *)
Lemma Marshal_map_members mf j :
  json.Marshal_map mf = Ok j ->
  exists raw,
    j = JObject (json.writeNames raw)
    /\ raw ≡ₚ map_to_list (json.Marshal_any <$> mf)
    /\ NoDup raw.*1
    /\ (forall key x, (key, x) ∈ raw
                      <-> exists a, mf !! key = Some a /\ x = json.Marshal_any a)
    /\ Sorted json.key_le raw.
Proof.
  unfold json.Marshal_map. intros [= <-].
  eexists. split; [reflexivity|].
  pose proof (merge_sort_Permutation json.key_le (map_to_list (json.Marshal_any <$> mf)))
    as Hperm.
  split; [exact Hperm|]. split; [|split].
  - rewrite Hperm. apply NoDup_fst_map_to_list.
  - intros key x. rewrite Hperm, elem_of_map_to_list, lookup_fmap.
    destruct (mf !! key) as [a|]; simpl; split.
    + intros [= <-]. eauto.
    + intros (a' & [= <-] & ->). reflexivity.
    + discriminate.
    + intros (a' & [=] & _).
  - apply Sorted_merge_sort. apply _.
Qed.

(** The map the loop over the fields hands to [json.Marshal]. *)
Lemma marshalFields_Ok M r t fields : forall vals i mf j,
  marshalFields M r t vals fields i mf = Ok j ->
  exists mf',
    json.Marshal_map mf' = Ok j
    /\ (forall key,
          (forall k fT, fields !! k = Some fT -> visited fT = true ->
                        jsonFieldName fT <> key) ->
          mf' !! key = mf !! key)
    /\ (forall key, is_Some (mf !! key) -> is_Some (mf' !! key))
    /\ (forall k fT, fields !! k = Some fT -> visited fT = true ->
          is_Some (mf' !! jsonFieldName fT))
    /\ (forall k fT, fields !! k = Some fT -> visited fT = true ->
          (forall k' fT', (k < k')%nat -> fields !! k' = Some fT' -> visited fT' = true ->
                          jsonFieldName fT' <> jsonFieldName fT) ->
          exists fV b x,
            vals !! k = Some fV /\ M fV = Ok b /\ fieldValue r fT fV b = Ok x
            /\ mf' !! jsonFieldName fT = Some x).
Proof.
  induction fields as [|fT fields IH]; intros vals i mf j H.
  - destruct vals; simpl in H; (exists mf; repeat split; auto;
      intros k fT' Hk; rewrite lookup_nil in Hk; discriminate).
  - destruct vals as [|fV vals]; [discriminate|].
    rewrite marshalFields_cons in H.
    destruct (visited fT) eqn:Hv.
    + apply andThen_Ok in H as (b & Hb & H).
      apply andThen_Ok in H as (x & Hx & H).
      destruct (IH _ _ _ _ H) as (mf' & Hj & Hother & Hmono & Hsome & Hlast).
      exists mf'. split; [exact Hj|]. split; [|split; [|split]].
      * intros key Hkey. rewrite Hother.
        -- apply lookup_insert_ne. apply (Hkey 0%nat fT); [reflexivity | exact Hv].
        -- intros k fT' Hk. apply (Hkey (S k)). exact Hk.
      * intros key Hk. apply Hmono.
        destruct (decide (jsonFieldName fT = key)) as [<-|Hne].
        -- rewrite lookup_insert_eq. eauto.
        -- rewrite lookup_insert_ne by exact Hne. exact Hk.
      * intros [|k] fT' Hk Hv'.
        -- injection Hk as <-. apply Hmono. rewrite lookup_insert_eq. eauto.
        -- apply (Hsome k); assumption.
      * intros [|k] fT' Hk Hv' Hlater.
        -- injection Hk as <-. exists fV, b, x. repeat split; try assumption.
           rewrite Hother; [apply lookup_insert_eq|].
           intros k' fT' Hk' Hv''. apply (Hlater (S k')); [lia | exact Hk' | exact Hv''].
        -- apply (Hlast k); try assumption.
           intros k' fT'' Hlt Hk' Hv''. apply (Hlater (S k')); [lia | exact Hk' | exact Hv''].
    + destruct (IH _ _ _ _ H) as (mf' & Hj & Hother & Hmono & Hsome & Hlast).
      exists mf'. split; [exact Hj|]. split; [|split; [|split]].
      * intros key Hkey. apply Hother.
        intros k fT' Hk. apply (Hkey (S k)). exact Hk.
      * exact Hmono.
      * intros [|k] fT' Hk Hv'.
        -- injection Hk as <-. congruence.
        -- apply (Hsome k); assumption.
      * intros [|k] fT' Hk Hv' Hlater.
        -- injection Hk as <-. congruence.
        -- apply (Hlast k); try assumption.
           intros k' fT'' Hlt Hk' Hv''. apply (Hlater (S k')); [lia | exact Hk' | exact Hv''].
Qed.

(** The map the loop over the entries hands to [json.Marshal]. *)
Lemma marshalEntries_Ok M r elemT entries : forall mf j,
  marshalEntries M r elemT entries mf = Ok j ->
  exists mf',
    json.Marshal_map mf' = Ok j
    /\ (forall key,
          (forall kv, kv ∈ entries -> reflect.String_ (fst kv) <> key) ->
          mf' !! key = mf !! key)
    /\ (forall key, is_Some (mf !! key) -> is_Some (mf' !! key))
    /\ (forall kv, kv ∈ entries -> is_Some (mf' !! reflect.String_ (fst kv)))
    /\ (forall k kv, entries !! k = Some kv ->
          (forall k' kv', (k < k')%nat -> entries !! k' = Some kv' ->
                          reflect.String_ (fst kv') <> reflect.String_ (fst kv)) ->
          exists b x,
            M (snd kv) = Ok b /\ entryValue r elemT (snd kv) b = Ok x
            /\ mf' !! reflect.String_ (fst kv) = Some x).
Proof.
  induction entries as [|[key value] entries IH]; intros mf j H.
  - simpl in H. exists mf. repeat split; auto.
    + intros kv Hkv. inversion Hkv.
    + intros k kv Hk. rewrite lookup_nil in Hk. discriminate.
  - rewrite marshalEntries_cons in H.
    apply andThen_Ok in H as (name & Hname & H).
    apply andThen_Ok in H as (b & Hb & H).
    apply andThen_Ok in H as (x & Hx & H).
    assert (name = reflect.String_ key) as ->.
    { unfold stringifyMapKey in Hname.
      destruct (reflect.KindOf (reflect.TypeOf key)); try discriminate.
      injection Hname as <-. reflexivity. }
    destruct (IH _ _ H) as (mf' & Hj & Hother & Hmono & Hsome & Hlast).
    exists mf'. split; [exact Hj|]. split; [|split; [|split]].
    + intros key' Hkey. rewrite Hother.
      * apply lookup_insert_ne. apply (Hkey (key, value)). left.
      * intros kv Hkv. apply Hkey. right. exact Hkv.
    + intros key' Hk. apply Hmono.
      destruct (decide (reflect.String_ key = key')) as [<-|Hne].
      * rewrite lookup_insert_eq. eauto.
      * rewrite lookup_insert_ne by exact Hne. exact Hk.
    + intros kv Hkv. apply elem_of_cons in Hkv as [->|Hkv].
      * apply Hmono. simpl. rewrite lookup_insert_eq. eauto.
      * apply Hsome. exact Hkv.
    + intros [|k] kv Hk Hlater.
      * injection Hk as <-. exists b, x. repeat split; try assumption. simpl.
        rewrite Hother; [apply lookup_insert_eq|].
        intros kv Hkv. apply list_elem_of_lookup in Hkv as [k' Hk'].
        apply (Hlater (S k')); [lia | exact Hk'].
      * apply (Hlast k); [exact Hk|].
        intros k' kv' Hlt Hk'. apply (Hlater (S k')); [lia | exact Hk'].
Qed.

(** ** Unregistered types *)

Lemma marshalFields_unregistered M r t methods d err fields : forall vals i mf k fT,
  TypeIDOf r (Some d) = Err err ->
  fields !! k = Some fT ->
  vals !! k = Some (VInterface methods (Some d)) ->
  visited fT = true ->
  isInterface (reflect.Type_ fT) = true ->
  forall j, marshalFields M r t vals fields i mf <> Ok j.
Proof.
  induction fields as [|fT0 fields IH]; intros vals i mf k fT Herr Hk Hv Hvis Hif j H;
    [rewrite lookup_nil in Hk; discriminate|].
  destruct vals as [|fV vals]; [discriminate|].
  rewrite marshalFields_cons in H.
  destruct k as [|k].
  - injection Hk as ->. injection Hv as ->. rewrite Hvis in H.
    apply andThen_Ok in H as (b & _ & H).
    apply andThen_Ok in H as (x & Hx & _).
    unfold fieldValue in Hx. rewrite Hif in Hx. simpl in Hx. rewrite Herr in Hx.
    discriminate.
  - destruct (visited fT0).
    + apply andThen_Ok in H as (b & _ & H).
      apply andThen_Ok in H as (x & _ & H).
      exact (IH _ _ _ k fT Herr Hk Hv Hvis Hif j H).
    + exact (IH _ _ _ k fT Herr Hk Hv Hvis Hif j H).
Qed.

Lemma marshalEntries_unregistered M r elemT methods d err entries : forall mf key,
  TypeIDOf r (Some d) = Err err ->
  (key, VInterface methods (Some d)) ∈ entries ->
  isInterface elemT = true ->
  forall j, marshalEntries M r elemT entries mf <> Ok j.
Proof.
  induction entries as [|[k v] entries IH]; intros mf key Herr Hin Hif j H;
    [inversion Hin|].
  rewrite marshalEntries_cons in H.
  apply andThen_Ok in H as (name & _ & H).
  apply andThen_Ok in H as (b & _ & H).
  apply andThen_Ok in H as (x & Hx & H).
  apply elem_of_cons in Hin as [[= <- <-]|Hin].
  - unfold entryValue in Hx. rewrite Hif in Hx. simpl in Hx. rewrite Herr in Hx.
    discriminate.
  - exact (IH _ key Herr Hin Hif j H).
Qed.

(** ** Field names *)

Lemma jsonFieldName_spec fT :
  jsonFieldName fT
  = if decide (firstWord (reflect.Tag fT) = ""%string) then reflect.Name fT
    else firstWord (reflect.Tag fT).
Proof.
  unfold jsonFieldName. destruct (firstWord (reflect.Tag fT)); reflexivity.
Qed.

(** [indexMap] holds, for a name, the last field not tagged ["-"] that has
    it. *)
Lemma indexFields_other fields : forall i indexMap key,
  (forall k fT, fields !! k = Some fT -> reflect.Tag fT <> "-"%string ->
                jsonFieldName fT <> key) ->
  indexFields i fields indexMap !! key = indexMap !! key.
Proof.
  induction fields as [|fT fields IH]; intros i indexMap key Hkey; simpl; [reflexivity|].
  destruct (String.eqb_spec (reflect.Tag fT) "-") as [Ht|Ht].
  - apply IH. intros k fT' Hk. apply (Hkey (S k)). exact Hk.
  - rewrite IH.
    + apply lookup_insert_ne. apply (Hkey 0%nat); [reflexivity | exact Ht].
    + intros k fT' Hk. apply (Hkey (S k)). exact Hk.
Qed.

Lemma indexFields_last fields : forall i indexMap k fT,
  fields !! k = Some fT ->
  reflect.Tag fT <> "-"%string ->
  (forall k' fT', (k < k')%nat -> fields !! k' = Some fT' ->
                  reflect.Tag fT' <> "-"%string ->
                  jsonFieldName fT' <> jsonFieldName fT) ->
  indexFields i fields indexMap !! jsonFieldName fT = Some (i + k)%nat.
Proof.
  induction fields as [|fT0 fields IH]; intros i indexMap k fT Hk Ht Hlater;
    [rewrite lookup_nil in Hk; discriminate|].
  simpl. destruct k as [|k].
  - injection Hk as ->. destruct (String.eqb_spec (reflect.Tag fT) "-"); [contradiction|].
    rewrite indexFields_other.
    + rewrite lookup_insert_eq. f_equal. lia.
    + intros k' fT' Hk' Ht'. apply (Hlater (S k')); [lia | exact Hk' | exact Ht'].
  - assert (Hrec : forall im, indexFields (S i) fields im !! jsonFieldName fT
                              = Some (S i + k)%nat).
    { intros im. apply IH; try assumption.
      intros k' fT' Hlt Hk' Ht'. apply (Hlater (S k')); [lia | exact Hk' | exact Ht']. }
    replace (i + S k)%nat with (S i + k)%nat by lia.
    destruct (String.eqb (reflect.Tag fT0) "-"); apply Hrec.
Qed.

(** The callback of the Struct case on a member named as a field. *)
Lemma unmarshalField_matched U fields vals r k fT fV value :
  fields !! k = Some fT ->
  vals !! k = Some fV ->
  reflect.PkgPath fT = ""%string ->
  reflect.Tag fT <> "-"%string ->
  (forall k' fT', (k < k')%nat -> fields !! k' = Some fT' ->
                  reflect.Tag fT' <> "-"%string ->
                  jsonFieldName fT' <> jsonFieldName fT) ->
  unmarshalField U fields (indexFields 0 fields ∅) r vals (jsonFieldName fT) value
  = (fV' <- unmarshalTo_body U fV (reflect.Type_ fT) value r
       wrapped ErrUnmarshalField value (jsonFieldName fT) ;
     Ok (<[k := fV']> vals)).
Proof.
  intros Hk Hv Hpkg Ht Hlater. unfold unmarshalField.
  rewrite (indexFields_last fields 0 ∅ k fT Hk Ht Hlater). simpl.
  rewrite Hk, Hv, Hpkg. reflexivity.
Qed.

(** C10 (as amended).  Of the [json] tag of a field only the first
    comma-separated word is read, as the wire name; what follows the comma
    ([omitempty] and the like) is not.  For an exported field whose tag is
    not ["-"]: the output of [marshal] has a member under the field's wire
    name (written as a string is, an invalid byte as U+FFFD) whatever the
    field holds, and the member is the encoding of this field when no
    visited field after it has the same wire name; when no
    field after it (tag not ["-"]) has the same wire name, the decoder's
    callback decodes a member under the field's wire name into this field,
    whatever the fields hold by then, and so does the decoding of a
    one-member document. *)
Theorem C10_json_tag (name : string) (vm pm : list string)
    (fields : list (StructField rtype)) (vals : list GoValue)
    (k : nat) (fT : StructField rtype) (fV : GoValue) :
  fields !! k = Some fT ->
  vals !! k = Some fV ->
  reflect.PkgPath fT = ""%string ->
  reflect.Tag fT <> "-"%string ->
  jsonFieldName fT
  = (if decide (firstWord (reflect.Tag fT) = ""%string) then reflect.Name fT
     else firstWord (reflect.Tag fT))
  /\ (forall r j,
        marshal (VStruct name vm pm fields vals) r = Ok j ->
        exists members,
          j = JObject members
          /\ (exists x, (utf8.coerce (jsonFieldName fT), x) ∈ members)
          /\ ((forall k' fT', (k < k')%nat -> fields !! k' = Some fT' ->
                              visited fT' = true ->
                              jsonFieldName fT' <> jsonFieldName fT) ->
              exists b x,
                marshal fV r = Ok b /\ fieldValue r fT fV b = Ok x
                /\ (utf8.coerce (jsonFieldName fT), json.Marshal_any x) ∈ members))
  /\ ((forall k' fT', (k < k')%nat -> fields !! k' = Some fT' ->
                      reflect.Tag fT' <> "-"%string ->
                      jsonFieldName fT' <> jsonFieldName fT) ->
      (forall U r vals' fV' value,
         vals' !! k = Some fV' ->
         unmarshalField U fields (indexFields 0 fields ∅) r vals' (jsonFieldName fT) value
         = (fV'' <- unmarshalTo_body U fV' (reflect.Type_ fT) value r
              wrapped ErrUnmarshalField value (jsonFieldName fT) ;
            Ok (<[k := fV'']> vals')))
      /\ (forall fuel value r elemType flagAddr,
            unmarshal (S fuel) (JObject [(jsonFieldName fT, value)])
              (Val (VPointer elemType (Some (VStruct name vm pm fields vals))) flagAddr) r
            = (fV' <- unmarshalTo fuel fV (reflect.Type_ fT) value r
                 wrapped ErrUnmarshalField value (jsonFieldName fT) ;
               Ok (VPointer elemType
                     (Some (VStruct name vm pm fields (<[k := fV']> vals))))))).
Proof.
  intros Hk Hv Hpkg Ht.
  assert (Hvis : visited fT = true) by (apply visited_spec; auto).
  split; [apply jsonFieldName_spec|]. split.
  - intros r j Hj. rewrite marshal_struct_eq in Hj.
    apply marshalFields_Ok in Hj as (mf' & Hj & _ & _ & Hsome & Hlast).
    apply Marshal_map_members in Hj as (raw & -> & _ & _ & Hmem & _).
    exists (json.writeNames raw). split; [reflexivity|]. split.
    + destruct (Hsome k fT Hk Hvis) as [a Ha].
      exists (json.Marshal_any a). apply writeNames_elem, Hmem. eauto.
    + intros Hlater.
      destruct (Hlast k fT Hk Hvis Hlater) as (fV' & b & x & Hv' & Hb & Hx & Hlook).
      rewrite Hv in Hv'. injection Hv' as <-.
      exists b, x. repeat split; try assumption. apply writeNames_elem, Hmem. eauto.
  - intros Hlater. split.
    + intros U r vals' fV' value Hv'. apply unmarshalField_matched; assumption.
    + intros fuel value r elemType flagAddr. simpl.
      rewrite (unmarshalField_matched _ _ _ _ k fT fV value Hk Hv Hpkg Ht Hlater).
      unfold unmarshalTo.
      destruct (unmarshalTo_body (unmarshal fuel) fV (reflect.Type_ fT) value r);
        reflexivity.
Qed.

(** A field tagged [n,omitempty]: its wire name is ["n"], and a member ["n"]
    is read into it. *)
Lemma C10_json_tag_witness :
  jsonFieldName (reflect.mkStructField "N" "" "n,omitempty" TInt) = "n"%string
  /\ unmarshal 2 (JObject [("n"%string, JNumber 5)])
       (Val (reflect.New sampleOmitEmpty) false) TypeRegistry
     = Ok (VPointer sampleOmitEmpty
             (Some (VStruct "sparse" [] []
                      [reflect.mkStructField "N" "" "n,omitempty" TInt] [VInt 5]))).
Proof.
  destruct (C10_json_tag "sparse" [] []
              [reflect.mkStructField "N" "" "n,omitempty" TInt] [VInt 0] 0
              (reflect.mkStructField "N" "" "n,omitempty" TInt) (VInt 0)
              eq_refl eq_refl eq_refl ltac:(discriminate))
    as (Hname & _ & Hdec).
  split; [exact Hname|].
  destruct Hdec as [_ Hdoc].
  - intros [|k'] fT' Hlt Hk'; [lia | destruct k'; discriminate].
  - exact (Hdoc 1%nat (JNumber 5) TypeRegistry sampleOmitEmpty false).
Defined.

Example omitempty_zero_field_written r :
  marshal (VStruct "sparse" [] [] [reflect.mkStructField "N" "" "n,omitempty" TInt]
             [VInt 0]) r
  = Ok (JObject [("n"%string, JNumber 0)]).
Proof. vm_compute. reflexivity. Qed.

(** The claim as stated fails when two fields have the same wire name: the
    exported field [A] (tag [x]) is followed by [B] (tag [x,omitempty]); the
    output holds the content of [B] only, and a member ["x"] is decoded into [B]
    only. *)
Lemma C10_counterexample :
  visited (reflect.mkStructField "A" "" "x" TInt) = true
  /\ marshal (VStruct "twins" [] []
                [reflect.mkStructField "A" "" "x" TInt;
                 reflect.mkStructField "B" "" "x,omitempty" TInt]
                [VInt 1; VInt 2]) TypeRegistry
     = Ok (JObject [("x"%string, JNumber 2)])
  /\ UnmarshalWithTypeIDs 2 (JObject [("x"%string, JNumber 7)])
       (Some (reflect.New sampleTwins)) TypeRegistry
     = Ok (VPointer sampleTwins
             (Some (VStruct "twins" [] []
                      [reflect.mkStructField "A" "" "x" TInt;
                       reflect.mkStructField "B" "" "x,omitempty" TInt]
                      [VInt 0; VInt 7]))).
Proof. repeat split; vm_compute; reflexivity. Qed.

(** ** The recursion budget

    A result other than [OutOfFuel] does not depend on the budget: a larger
    budget gives the same result. *)

Lemma andThen_not_OutOfFuel {A B} (r : result A) w (k : A -> result B) :
  andThen r w k <> OutOfFuel -> r <> OutOfFuel.
Proof. destruct r; simpl; congruence. Qed.

Lemma forEach_ext_result {S} (l : list (string * Result))
    (body body' : S -> string -> Result -> result S) (s : S) :
  (forall s key value, body s key value <> OutOfFuel ->
                       body' s key value = body s key value) ->
  forEach l body s <> OutOfFuel ->
  forEach l body' s = forEach l body s.
Proof.
  intros Hbody. revert s. induction l as [|[k v] l IH]; intros s H; simpl in *;
    [reflexivity|].
  rewrite Hbody by (eapply andThen_not_OutOfFuel; exact H).
  destruct (body s k v); simpl in *; try reflexivity. apply IH. exact H.
Qed.

Lemma unmarshalTo_body_ext_result U U' out outType value n :
  (forall obj v, U obj v n <> OutOfFuel -> U' obj v n = U obj v n) ->
  unmarshalTo_body U out outType value n <> OutOfFuel ->
  unmarshalTo_body U' out outType value n = unmarshalTo_body U out outType value n.
Proof.
  intros HU. unfold unmarshalTo_body.
  assert (Hcontent : forall value contentOut (k : GoValue -> result GoValue),
            andThen (U value contentOut n) ErrUnmarshal k <> OutOfFuel ->
            andThen (U' value contentOut n) ErrUnmarshal k
            = andThen (U value contentOut n) ErrUnmarshal k).
  { intros value' contentOut k H. rewrite HU; [reflexivity|].
    eapply andThen_not_OutOfFuel; exact H. }
  destruct (reflect.KindOf outType); try (apply Hcontent).
  - destruct (gjson.TypeOf value); try reflexivity;
      (destruct (map_to_list (gjson.Map value)) as [|[typeID valueUnparsed] [|]];
       try reflexivity;
       destruct (NewByTypeID n typeID); simpl; try reflexivity; apply Hcontent).
  - destruct (gjson.TypeOf value); try reflexivity; apply Hcontent.
Qed.

Theorem unmarshal_budget_irrelevant fuel : forall fuel' obj v n,
  (fuel <= fuel')%nat ->
  unmarshal fuel obj v n <> OutOfFuel ->
  unmarshal fuel' obj v n = unmarshal fuel obj v n.
Proof.
  induction fuel as [|fuel IH]; intros fuel' obj v n Hle H; [contradiction H; reflexivity|].
  destruct fuel' as [|fuel']; [lia|].
  assert (HU : forall obj v, unmarshal fuel obj v n <> OutOfFuel ->
                             unmarshal fuel' obj v n = unmarshal fuel obj v n).
  { intros obj' v' H'. apply IH; [lia | exact H']. }
  simpl in *.
  destruct v as [|[b|z|s|elemType p|methods dyn|keyT elemT m|name vm pm fields vals|f64] flagAddr];
    try reflexivity.
  destruct (ensureElem elemType p flagAddr) as [elem| | |]; simpl in *; try reflexivity.
  apply andThen_not_OutOfFuel in H.
  destruct elem as [b|z|s|elemType' p'|methods dyn|keyT elemT m|name vm pm fields vals|f64];
    try reflexivity.
  - rewrite HU by exact H. reflexivity.
  - rewrite HU by exact H. reflexivity.
  - apply andThen_not_OutOfFuel in H.
    rewrite (forEach_ext_result _ (unmarshalEntry (unmarshal fuel) keyT elemT n)
               (unmarshalEntry (unmarshal fuel') keyT elemT n)); [reflexivity| |exact H].
    intros m' key value Hbody. unfold unmarshalEntry in *.
    destruct (unstringifyMapKey (reflect.Zero keyT) key); simpl in *; try reflexivity.
    rewrite (unmarshalTo_body_ext_result (unmarshal fuel) (unmarshal fuel')); auto.
    eapply andThen_not_OutOfFuel; exact Hbody.
  - apply andThen_not_OutOfFuel in H.
    rewrite (forEach_ext_result _
               (unmarshalField (unmarshal fuel) fields (indexFields 0 fields ∅) n)
               (unmarshalField (unmarshal fuel') fields (indexFields 0 fields ∅) n));
      [reflexivity| |exact H].
    intros vals' key value Hbody. unfold unmarshalField in *.
    destruct (indexFields 0 fields ∅ !! key) as [fieldIndex|]; [|reflexivity].
    destruct (fields !! fieldIndex) as [fT|]; [|reflexivity].
    destruct (vals' !! fieldIndex) as [fV|]; [|reflexivity].
    destruct (negb (String.eqb (reflect.PkgPath fT) "")); [reflexivity|].
    rewrite (unmarshalTo_body_ext_result (unmarshal fuel) (unmarshal fuel')); auto.
    eapply andThen_not_OutOfFuel; exact Hbody.
Qed.

(** ** Errors are fatal to the whole call *)

Lemma andThen_not_Ok {A B} (r : result A) (w : error -> error) (k : A -> result B) :
  (forall a, r <> Ok a) -> forall b, andThen r w k <> Ok b.
Proof.
  intros Hr b H. apply andThen_Ok in H as (a & Ha & _). exact (Hr a Ha).
Qed.

Lemma forEach_app {S} (l1 l2 : list (string * Result)) body (s : S) :
  forEach (l1 ++ l2) body s = (s' <- forEach l1 body s ; forEach l2 body s').
Proof.
  revert s. induction l1 as [|[k v] l1 IH]; intros s; [reflexivity|].
  simpl. destruct (body s k v); simpl; [apply IH|reflexivity..].
Qed.

(** A call of the decoder that makes a call which does not return a value
    does not return a value itself. *)
Lemma invokes_not_Ok (n : NewByTypeIDer) (c c' : call) :
  invokes n c c' ->
  (forall x, returned n c' <> Ok x) -> forall x, returned n c <> Ok x.
Proof.
  intros Hinv. destruct Hinv as
    [fuel obj elemType p flagAddr elem He Hk
    |fuel obj elemType p flagAddr keyType valueType m before key value after m1 He Hobj Hb Hkey
    |fuel obj elemType p flagAddr name vm pm fields vals before key value after vals1
       fieldIndex fT fV He Hobj Hb Hidx HfT HfV Hexp
    |fuel out outType value Hif Hnull
    |fuel out outType value typeID valueUnparsed typedValuePtr Hif Hnull Hm Hnew];
    cbn [returned]; intros Hc' x.
  - cbn [unmarshal]. rewrite He. cbn [andThen].
    destruct elem; try contradiction; exact (andThen_not_Ok _ _ _ Hc' _).
  - cbn [unmarshal]. rewrite He. cbn [andThen]. rewrite Hobj, forEach_app, Hb.
    cbn [andThen forEach].
    do 3 (apply andThen_not_Ok; intros ?). unfold unmarshalEntry.
    destruct (unstringifyMapKey (reflect.Zero keyType) key); cbn [andThen];
      try discriminate.
    exact (andThen_not_Ok _ _ _ Hc' _).
  - cbn [unmarshal]. rewrite He. cbn [andThen]. rewrite Hobj, forEach_app, Hb.
    cbn [andThen forEach].
    do 3 (apply andThen_not_Ok; intros ?). unfold unmarshalField.
    rewrite Hidx, HfT, HfV, Hexp. cbn [String.eqb negb].
    exact (andThen_not_Ok _ _ _ Hc' _).
  - unfold unmarshalTo, unmarshalTo_body.
    destruct outType; try discriminate; cbn [reflect.KindOf];
      try exact (andThen_not_Ok _ _ _ Hc' _).
    destruct (gjson.TypeOf value) eqn:E;
      try exact (andThen_not_Ok _ _ _ Hc' _).
    exfalso. apply Hnull; reflexivity.
  - unfold unmarshalTo, unmarshalTo_body.
    destruct outType; try discriminate. cbn [reflect.KindOf].
    rewrite Hm, Hnew. cbn [andThen].
    destruct (gjson.TypeOf value) eqn:E;
      try exact (andThen_not_Ok _ _ _ Hc' _).
    exfalso. apply Hnull; reflexivity.
Qed.

(** No partial success: whatever the depth at which a call fails, the call
    at the root does not return a value. *)
Theorem unmarshal_error_fatal (n : NewByTypeIDer) (root c : call) :
  rtc (invokes n) root c ->
  (forall x, returned n c <> Ok x) -> forall x, returned n root <> Ok x.
Proof.
  induction 1 as [c|c1 c2 c3 Hstep _ IH]; [auto|].
  intros Hc. eapply invokes_not_Ok; [exact Hstep|]. apply IH. exact Hc.
Qed.

Lemma marshalFields_not_Ok M r t fields : forall vals i mf k fT fV,
  fields !! k = Some fT ->
  vals !! k = Some fV ->
  visited fT = true ->
  (forall j, M fV <> Ok j) ->
  forall j, marshalFields M r t vals fields i mf <> Ok j.
Proof.
  induction fields as [|fT0 fields IH]; intros vals i mf k fT fV Hk Hv Hvis HM j H;
    [rewrite lookup_nil in Hk; discriminate|].
  destruct vals as [|fV0 vals]; [discriminate|].
  rewrite marshalFields_cons in H.
  destruct k as [|k].
  - injection Hk as ->. injection Hv as ->. rewrite Hvis in H.
    revert H. apply andThen_not_Ok. exact HM.
  - assert (Hrec : forall mf', marshalFields M r t vals fields (S i) mf' <> Ok j)
      by (intros mf'; eapply IH; eassumption).
    destruct (visited fT0); [|exact (Hrec _ H)].
    apply andThen_Ok in H as (b & _ & H).
    apply andThen_Ok in H as (x & _ & H). exact (Hrec _ H).
Qed.

Lemma marshalEntries_not_Ok M r elemT entries : forall mf key value,
  (key, value) ∈ entries ->
  (forall j, M value <> Ok j) ->
  forall j, marshalEntries M r elemT entries mf <> Ok j.
Proof.
  induction entries as [|[k v] entries IH]; intros mf key value Hin HM j H;
    [inversion Hin|].
  rewrite marshalEntries_cons in H.
  apply andThen_Ok in H as (name & _ & H).
  apply andThen_Ok in H as (b & Hb & H).
  apply elem_of_cons in Hin as [[= <- <-]|Hin]; [exact (HM _ Hb)|].
  assert (Hrec : forall mf', marshalEntries M r elemT entries mf' <> Ok j)
    by (intros mf'; eapply IH; eassumption).
  apply andThen_Ok in H as (x & _ & H). exact (Hrec _ H).
Qed.

(** The encoder gives no output for a value when it gives none for a value
    it visits from it, at whatever depth. *)
Lemma visits_not_Ok (r : TypeIDOfer) (v v' : GoValue) :
  visits v v' -> (forall j, marshal v' r <> Ok j) -> forall j, marshal v r <> Ok j.
Proof.
  intros [methods d|elem x|keyT elemT entries key value Hin
         |name vm pm fields vals k fT fV Hk Hv Hvis] Hv'.
  - exact Hv'.
  - exact Hv'.
  - intros j. rewrite marshal_map_eq. eapply marshalEntries_not_Ok; eassumption.
  - intros j. rewrite marshal_struct_eq. eapply marshalFields_not_Ok; eassumption.
Qed.

Theorem marshal_error_fatal (r : TypeIDOfer) (root v : GoValue) :
  rtc visits root v ->
  (forall j, marshal v r <> Ok j) -> forall j, marshal root r <> Ok j.
Proof.
  induction 1 as [v|v1 v2 v3 Hstep _ IH]; [auto|].
  intros Hv. eapply visits_not_Ok; [exact Hstep|]. apply IH. exact Hv.
Qed.

(** ** Malformed wrappers and unregistered types *)

(** C5 (as amended).  Decoding into a slot declared with an interface type
    a value that is not [null] and whose members do not have exactly one
    name between them ([value.Map()] keeps one member of each name; a value
    that is not an object has none): [unmarshalTo] returns the error
    "expected exactly one value, but got n", [n] being the number of names.
    The failure is fatal: a struct destination with such a member
    for an exported field, and a map destination with an interface element
    type and such a member, do not decode, and when the malformed member is
    the first one the call returns that error wrapped with the member and
    its key; and at whatever depth the slot is reached, the call at the root
    returns no value. *)
Theorem C5_malformed_wrapper (fuel : nat) (methods : list string) (value : Result)
    (r : NewByTypeIDer) :
  gjson.TypeOf value <> gjson.Null ->
  size (gjson.Map value) <> 1%nat ->
  (forall out,
     unmarshalTo fuel out (TInterface methods) value r
     = Err (ErrExpectedExactlyOne (size (gjson.Map value))))
  /\ (forall name vm pm fields vals members key i fT flagAddr,
        (key, value) ∈ members ->
        indexFields 0 fields ∅ !! key = Some i ->
        fields !! i = Some fT ->
        reflect.PkgPath fT = ""%string ->
        reflect.Type_ fT = TInterface methods ->
        (forall res,
           unmarshal fuel (JObject members)
             (Val (VPointer (TStruct name vm pm fields)
                     (Some (VStruct name vm pm fields vals))) flagAddr) r <> Ok res)
        /\ (forall rest fV, members = (key, value) :: rest -> vals !! i = Some fV ->
              UnmarshalWithTypeIDs (S fuel) (JObject members)
                (Some (VPointer (TStruct name vm pm fields)
                         (Some (VStruct name vm pm fields vals)))) r
              = Err (ErrUnmarshalField value key
                       (ErrExpectedExactlyOne (size (gjson.Map value))))))
  /\ (forall keyType m members key flagAddr,
        (key, value) ∈ members ->
        forall res,
          unmarshal fuel (JObject members)
            (Val (VPointer (TMap keyType (TInterface methods))
                    (Some (VMap keyType (TInterface methods) m))) flagAddr) r <> Ok res)
  /\ (forall out root,
        rtc (invokes r) root (CallUnmarshalTo fuel out (TInterface methods) value) ->
        forall res, returned r root <> Ok res).
Proof.
  intros Hnull Hsize. split; [|split; [|split]].
  - intros out. apply unmarshalTo_malformed; assumption.
  - intros name vm pm fields vals members key i fT flagAddr Hin Hidx HfT Hexp Hty.
    split.
    + intros res H. destruct fuel as [|fuel]; [discriminate|]. simpl in H.
      apply andThen_Ok in H as (e & H & _).
      apply andThen_Ok in H as (vals' & H & _). revert H.
      eapply forEach_not_Ok; [exact Hin|].
      intros s s'. unfold unmarshalField. rewrite Hidx, HfT, Hexp. simpl.
      destruct (s !! i); [|discriminate].
      rewrite Hty. fold (unmarshalTo fuel).
      rewrite unmarshalTo_malformed by assumption. discriminate.
    + intros rest fV -> HfV. unfold UnmarshalWithTypeIDs. simpl.
      unfold unmarshalField at 1. rewrite Hidx, HfT, HfV, Hexp. simpl. rewrite Hty.
      fold (unmarshalTo fuel). rewrite unmarshalTo_malformed by assumption.
      reflexivity.
  - intros keyType m members key flagAddr Hin res H.
    destruct fuel as [|fuel]; [discriminate|]. simpl in H.
    apply andThen_Ok in H as (e & H & _).
    apply andThen_Ok in H as (m' & H & _). revert H.
    eapply forEach_not_Ok; [exact Hin|].
    intros s s'. unfold unmarshalEntry.
    destruct (unstringifyMapKey (reflect.Zero keyType) key); simpl; try discriminate.
    fold (unmarshalTo fuel). rewrite unmarshalTo_malformed by assumption. discriminate.
  - intros out root Hcalls. eapply unmarshal_error_fatal; [exact Hcalls|].
    intros x. cbn [returned]. rewrite unmarshalTo_malformed by assumption. discriminate.
Qed.

(** The document of the specification: [{"x":{"a":1,"b":2}}] decoded into a
    struct whose field [x] has an interface type. *)
Lemma C5_malformed_wrapper_witness :
  UnmarshalWithTypeIDs 2 (JObject [("x"%string, sampleTwoKeys)])
    (Some (reflect.New sampleHolder)) TypeRegistry
  = Err (ErrUnmarshalField sampleTwoKeys "x" (ErrExpectedExactlyOne 2)).
Proof.
  assert (Hnull : gjson.TypeOf sampleTwoKeys <> gjson.Null) by discriminate.
  assert (Hsize : size (gjson.Map sampleTwoKeys) <> 1%nat) by (vm_compute; discriminate).
  pose proof (C5_malformed_wrapper 1 [] sampleTwoKeys TypeRegistry Hnull Hsize)
    as (_ & Hstruct & _).
  assert (Hin : ("x"%string, sampleTwoKeys) ∈ [("x"%string, sampleTwoKeys)])
    by (apply list_elem_of_singleton; reflexivity).
  exact (proj2 (Hstruct "holder"%string [] [] [reflect.mkStructField "X" "" "x" TAny]
                  [VInterface [] None] [("x"%string, sampleTwoKeys)] "x"%string 0%nat
                  (reflect.mkStructField "X" "" "x" TAny) false
                  Hin eq_refl eq_refl eq_refl eq_refl)
               [] (VInterface [] None) eq_refl eq_refl).
Defined.

(** The claim as stated fails on a wrapper that repeats one name: it has two
    keys, [value.Map()] has one entry, and the decoder accepts the wrapper,
    decoding its first member. *)
Lemma C5_counterexample :
  length (gjson.ForEach sampleRepeated) = 2%nat
  /\ gjson.TypeOf sampleRepeated <> gjson.Null
  /\ forall k,
       UnmarshalWithTypeIDs (4 + k) (JObject [("x"%string, sampleRepeated)])
         (Some (reflect.New sampleHolder)) TypeRegistry
       = Ok (VPointer sampleHolder
               (Some (VStruct "holder" [] [] [reflect.mkStructField "X" "" "x" TAny]
                        [sampleFancy 1]))).
Proof.
  split; [reflexivity|]. split; [discriminate|]. intros k. vm_compute. reflexivity.
Qed.

(** The malformed wrapper two containers deep: the calls from the root to
    the slot, and the outcome of the root call. *)
Example malformed_wrapper_nested :
  rtc (invokes TypeRegistry)
    (CallUnmarshal 3 sampleNestedDoc (Val (VPointer (TMap TString sampleHolder) None) true))
    (CallUnmarshalTo 1 (VInterface [] None) TAny sampleTwoKeys)
  /\ UnmarshalWithTypeIDs 3 sampleNestedDoc
       (Some (reflect.New (TMap TString sampleHolder))) TypeRegistry
     = Err (ErrUnmarshalEntry (JObject [("x"%string, sampleTwoKeys)]) "k"
              (ErrUnmarshal
                 (ErrUnmarshalField sampleTwoKeys "x" (ErrExpectedExactlyOne 2)))).
Proof.
  split; [|vm_compute; reflexivity].
  eapply rtc_l.
  { eapply (invokes_entry _ 2 sampleNestedDoc _ None true TString sampleHolder None
              [] "k"%string (JObject [("x"%string, sampleTwoKeys)]) []);
      reflexivity. }
  eapply rtc_l.
  { apply invokes_content; [reflexivity|discriminate]. }
  eapply rtc_l; [|apply rtc_refl].
  eapply (invokes_field _ 1 _ _ _ false "holder"%string [] []
            [reflect.mkStructField "X" "" "x" TAny] [VInterface [] None]
            [] "x"%string sampleTwoKeys [] [VInterface [] None] 0%nat
            (reflect.mkStructField "X" "" "x" TAny) (VInterface [] None));
    reflexivity.
Qed.

(** C9 (as amended).  A struct or a map that holds, in a slot declared with an
    interface type which the encoder visits (an exported field whose tag is
    not ["-"], or a map entry), a present dynamic value [d] for which the
    resolver gives no identifier: [marshal] does not succeed, so there is no
    output, for the container and for every value from which the encoder
    reaches it.  When the slot is the first one and the content of [d] encodes,
    the error returned wraps the resolver's error with the runtime type of
    [d] only; the field index and name, or the map key, are added by the
    enclosing container an error passes through. *)
Theorem C9_unregistered_type (r : TypeIDOfer) (methods : list string) (d : GoValue)
    (err : error) :
  TypeIDOf r (Some d) = Err err ->
  (forall name vm pm fields vals k fT,
      fields !! k = Some fT ->
      vals !! k = Some (VInterface methods (Some d)) ->
      reflect.PkgPath fT = ""%string ->
      reflect.Tag fT <> "-"%string ->
      isInterface (reflect.Type_ fT) = true ->
      (forall root, rtc visits root (VStruct name vm pm fields vals) ->
         forall j, marshal root r <> Ok j)
      /\ (k = 0%nat -> forall b, marshal d r = Ok b ->
          MarshalWithTypeIDs (Some (VStruct name vm pm fields vals)) r
          = Err (ErrGetTypeID (Some (reflect.TypeOf d)) err)))
  /\ (forall keyT elemT entries key,
      (key, VInterface methods (Some d)) ∈ entries ->
      isInterface elemT = true ->
      (forall root, rtc visits root (VMap keyT elemT (Some entries)) ->
         forall j, marshal root r <> Ok j)
      /\ (forall s rest b,
            entries = (VString s, VInterface methods (Some d)) :: rest ->
            marshal d r = Ok b ->
            MarshalWithTypeIDs (Some (VMap keyT elemT (Some entries))) r
            = Err (ErrGetTypeID (Some (reflect.TypeOf d)) err)))
  /\ (forall name vm pm fT fields fV vals e,
      visited fT = true ->
      marshal fV r = Err e ->
      marshal (VStruct name vm pm (fT :: fields) (fV :: vals)) r
      = Err (ErrSerializeField 0 (reflect.Name fT)
               (Some (TStruct name vm pm (fT :: fields))) e))
  /\ (forall keyT elemT s value entries e,
      marshal value r = Err e ->
      marshal (VMap keyT elemT (Some ((VString s, value) :: entries))) r
      = Err (ErrSerializeMapEntry s e)).
Proof.
  intros Herr. split; [|split; [|split]].
  - intros name vm pm fields vals k fT Hk Hv Hpkg Htag Hif.
    assert (Hvis : visited fT = true) by (apply visited_spec; auto).
    split.
    + intros root Hreach. eapply marshal_error_fatal; [exact Hreach|].
      intros j. rewrite marshal_struct_eq.
      eapply marshalFields_unregistered; eassumption.
    + intros -> b Hb. unfold MarshalWithTypeIDs, reflect.ValueOf.
      rewrite marshal_struct_eq.
      destruct fields as [|fT0 fields]; [discriminate|]. injection Hk as ->.
      destruct vals as [|fV vals]; [discriminate|]. injection Hv as ->.
      rewrite marshalFields_cons, Hvis. cbn [marshal]. rewrite Hb. cbn [andThen].
      unfold fieldValue. rewrite Hif. simpl. rewrite Herr. reflexivity.
  - intros keyT elemT entries key Hin Hif. split.
    + intros root Hreach. eapply marshal_error_fatal; [exact Hreach|].
      intros j. rewrite marshal_map_eq.
      eapply marshalEntries_unregistered; eassumption.
    + intros s rest b -> Hb. unfold MarshalWithTypeIDs, reflect.ValueOf.
      rewrite marshal_map_eq, marshalEntries_cons. cbn [marshal stringifyMapKey].
      simpl. rewrite Hb. simpl.
      unfold entryValue. rewrite Hif. simpl. rewrite Herr. reflexivity.
  - intros name vm pm fT fields fV vals e Hvis He.
    rewrite marshal_struct_eq, marshalFields_cons, Hvis, He. reflexivity.
  - intros keyT elemT s value entries e He.
    rewrite marshal_map_eq, marshalEntries_cons. simpl. rewrite He. reflexivity.
Qed.

(** A struct with an exported field of type [any] that holds a value of an
    unregistered type. *)
Lemma C9_unregistered_type_witness :
  MarshalWithTypeIDs (Some sampleShown) TypeRegistry
  = Err (ErrGetTypeID (Some (TStruct "stranger" [] [] []))
           (ResolverError "type is not registered")).
Proof.
  refine (proj2 (proj1 (C9_unregistered_type TypeRegistry []
                          (VStruct "stranger" [] [] [] [])
                          (ResolverError "type is not registered") eq_refl)
                   "shower"%string [] [] [reflect.mkStructField "Shown" "" "" TAny]
                   [VInterface [] (Some (VStruct "stranger" [] [] [] []))] 0%nat
                   (reflect.mkStructField "Shown" "" "" TAny)
                   eq_refl eq_refl eq_refl _ eq_refl)
            eq_refl (JObject []) _).
  - discriminate.
  - vm_compute. reflexivity.
Defined.

(** The same struct inside a map behind a pointer: the encoder reaches it,
    and the error carries the key of the entry it passed through. *)
Example unregistered_type_nested :
  rtc visits sampleDeepShown sampleShown
  /\ MarshalWithTypeIDs (Some sampleDeepShown) TypeRegistry
     = Err (ErrSerializeMapEntry "k"
              (ErrGetTypeID (Some (TStruct "stranger" [] [] []))
                 (ResolverError "type is not registered"))).
Proof.
  split; [|vm_compute; reflexivity].
  eapply rtc_l; [apply visits_pointee|].
  eapply rtc_l; [|apply rtc_refl].
  eapply visits_entry. apply list_elem_of_singleton. reflexivity.
Qed.

(** The claim as stated fails on a field the encoder does not visit: an
    unexported field holding a value of an unregistered type is skipped, and
    the call succeeds. *)
Lemma C9_counterexample :
  TypeIDOf TypeRegistry (Some (VStruct "stranger" [] [] [] []))
  = Err (ResolverError "type is not registered")
  /\ MarshalWithTypeIDs (Some sampleHidden) TypeRegistry = Ok (JObject []).
Proof. split; vm_compute; reflexivity. Qed.


(** ** Round trip *)





















Section RoundTrip.

Variable r : TypeIDOfer.
Variable n : NewByTypeIDer.

(** The values in which the resolver is known to answer consistently: a set
    closed under the visits of the encoder. *)
Variable inside : GoValue -> Prop.
Hypothesis inside_visits : forall a b, inside a -> visits a b -> inside b.
Hypothesis resolver_consistent :
  forall methods d typeID,
    inside (VInterface methods (Some d)) ->
    TypeIDOf r (Some d) = Ok typeID ->
    NewByTypeID n (utf8.coerce typeID) = Ok (Some (reflect.New (reflect.TypeOf d))).














End RoundTrip.




Example settings_round_trip :
  MarshalWithTypeIDs (Some sampleSettings) (registryHandler calculators)
  = Ok (JObject [("Inertia"%string, JNumber 7);
                 ("QueueOptimal"%string, JNumber 100);
                 ("ma"%string,
                  JObject [("Thresholds"%string, JObject [("Limit"%string, JNumber 3)])])])
  /\ UnmarshalWithTypeIDs 3
       (JObject [("Inertia"%string, JNumber 7);
                 ("QueueOptimal"%string, JNumber 100);
                 ("ma"%string,
                  JObject [("Thresholds"%string, JObject [("Limit"%string, JNumber 3)])])])
       (Some (reflect.New (reflect.TypeOf sampleSettings))) (registryHandler calculators)
     = Ok (VPointer (reflect.TypeOf sampleSettings) (Some sampleSettings)).
Proof. split; vm_compute; reflexivity. Qed.


Example unexported_zero_field_kept :
  portable (registryHandler secretRegistry)
    (VStruct "withSecret" [] []
       [reflect.mkStructField "A" "" "" TInt;
        reflect.mkStructField "secret" "polyjson_test" "" TInt]
       [VInt 1; VInt 0]) = true.
Proof. vm_compute. reflexivity. Qed.

(** What the wire format does not keep, one case for each condition of
    [portable]. *)

(** A string that is not valid UTF-8 comes back with U+FFFD in the place
    of the invalid byte. *)
Example invalid_string_not_kept :
  MarshalWithTypeIDs (Some sampleInvalidString) TypeRegistry
  = Ok (JObject [("S"%string, JString utf8.RuneError)])
  /\ UnmarshalWithTypeIDs 2 (JObject [("S"%string, JString utf8.RuneError)])
       (Some (reflect.New (reflect.TypeOf sampleInvalidString))) TypeRegistry
     = Ok (VPointer (reflect.TypeOf sampleInvalidString)
             (Some (VStruct "labelled" [] [] [reflect.mkStructField "S" "" "" TString]
                      [VString utf8.RuneError])))
  /\ DeepEqual
       (VStruct "labelled" [] [] [reflect.mkStructField "S" "" "" TString]
          [VString utf8.RuneError])
       sampleInvalidString = false.
Proof. repeat split; vm_compute; reflexivity. Qed.

(** NaN is not encoded; a float64 that is not NaN is written with the
    fewest digits that give it back, here [1 << 70]. *)
Example float_fields :
  MarshalWithTypeIDs (Some (sampleMeasured NaN)) TypeRegistry
  = Err (ErrSerializeField 0 "F" (Some (reflect.TypeOf (sampleMeasured NaN)))
           (JSONError "json: unsupported value: NaN"))
  /\ MarshalWithTypeIDs (Some (sampleMeasured (Float (2 ^ 70)))) TypeRegistry
     = Ok (JObject [("F"%string, JNumber 1180591620717411300000)])
  /\ json.render (JNumber 1180591620717411300000) = "1.1805916207174113e+21"%string
  /\ UnmarshalWithTypeIDs 2 (JObject [("F"%string, JNumber 1180591620717411300000)])
       (Some (reflect.New (reflect.TypeOf (sampleMeasured NaN)))) TypeRegistry
     = Ok (VPointer (reflect.TypeOf (sampleMeasured NaN))
             (Some (sampleMeasured (Float (2 ^ 70))))).
Proof. repeat split; vm_compute; reflexivity. Qed.

(** A map that is empty and not nil comes back nil. *)
Example empty_map_not_kept :
  MarshalWithTypeIDs (Some (VMap TString TAny (Some []))) TypeRegistry = Ok (JObject [])
  /\ UnmarshalWithTypeIDs 2 (JObject []) (Some (reflect.New (TMap TString TAny)))
       TypeRegistry
     = Ok (VPointer (TMap TString TAny) (Some (VMap TString TAny None)))
  /\ DeepEqual (VMap TString TAny None) (VMap TString TAny (Some [])) = false.
Proof. repeat split; vm_compute; reflexivity. Qed.

(** The output for a map whose element type is not an interface, and for a
    map entry that holds the absent interface value, is not decoded. *)
Example plain_entries_not_decoded :
  MarshalWithTypeIDs (Some sampleIntMap) TypeRegistry
  = Ok (JObject [("a"%string, JString "MQ==")])
  /\ (forall res,
        UnmarshalWithTypeIDs 3 (JObject [("a"%string, JString "MQ==")])
          (Some (reflect.New (reflect.TypeOf sampleIntMap))) TypeRegistry <> Ok res)
  /\ MarshalWithTypeIDs (Some sampleNilEntryMap) TypeRegistry
     = Ok (JObject [("a"%string, JString "bnVsbA==")])
  /\ (forall res,
        UnmarshalWithTypeIDs 3 (JObject [("a"%string, JString "bnVsbA==")])
          (Some (reflect.New (reflect.TypeOf sampleNilEntryMap))) TypeRegistry <> Ok res).
Proof. repeat split; try (vm_compute; reflexivity); intros res; vm_compute; discriminate. Qed.

(** A nil pointer that is not directly in a struct field is not kept: the
    pointer to it comes back nil. *)
Example nil_pointer_not_kept :
  MarshalWithTypeIDs (Some sampleNilInside) TypeRegistry
  = Ok (JObject [("P"%string, JNull)])
  /\ UnmarshalWithTypeIDs 4 (JObject [("P"%string, JNull)])
       (Some (reflect.New (reflect.TypeOf sampleNilInside))) TypeRegistry
     = Ok (VPointer (reflect.TypeOf sampleNilInside)
             (Some (VStruct "indirect" [] []
                      [reflect.mkStructField "P" "" "" (TPointer (TPointer TInt))]
                      [VPointer (TPointer TInt) None])))
  /\ DeepEqual
       (VStruct "indirect" [] []
          [reflect.mkStructField "P" "" "" (TPointer (TPointer TInt))]
          [VPointer (TPointer TInt) None])
       sampleNilInside = false.
Proof. repeat split; vm_compute; reflexivity. Qed.

(** * Further properties of the decoder *)

(** ** Struct destinations *)

Lemma indexFields_range fields : forall i indexMap key k,
  indexFields i fields indexMap !! key = Some k ->
  indexMap !! key = Some k \/ (i <= k < i + length fields)%nat.
Proof.
  induction fields as [|fT fields IH]; intros i indexMap key k H;
    cbn [indexFields length] in *; [auto|].
  destruct (String.eqb (reflect.Tag fT) "-").
  - apply IH in H as [H|H]; [auto | right; lia].
  - apply IH in H as [H|H]; [|right; lia].
    destruct (decide (jsonFieldName fT = key)) as [Heq|Hne].
    + subst key. rewrite lookup_insert_eq in H. injection H as <-. right. lia.
    + rewrite lookup_insert_ne in H by exact Hne. auto.
Qed.

(** One call of the callback of the Struct case, on a structure that has a
    value for each of its fields. *)
Lemma unmarshalField_fieldOf U fields n vals key value :
  length vals = length fields ->
  unmarshalField U fields (indexFields 0 fields ∅) n vals key value
  = match fieldOf fields key with
    | None => Ok vals
    | Some k =>
        match fields !! k, vals !! k with
        | Some fT, Some fV =>
            fV' <- unmarshalTo_body U fV (reflect.Type_ fT) value n
              wrapped ErrUnmarshalField value key ;
            Ok (<[k := fV']> vals)
        | _, _ => Ok vals
        end
    end.
Proof.
  intros Hlen. unfold unmarshalField, fieldOf.
  destruct (indexFields 0 fields ∅ !! key) as [k|] eqn:Hk; [|reflexivity].
  apply indexFields_range in Hk as [Hk|Hk]; [rewrite lookup_empty in Hk; discriminate|].
  destruct (lookup_lt_is_Some_2 fields k ltac:(lia)) as [fT HfT].
  destruct (lookup_lt_is_Some_2 vals k ltac:(lia)) as [fV HfV].
  rewrite HfT, HfV.
  destruct (String.eqb (reflect.PkgPath fT) ""); simpl; [|reflexivity].
  rewrite HfT, HfV. reflexivity.
Qed.

Lemma unmarshalField_length U fields n vals key value vals' :
  unmarshalField U fields (indexFields 0 fields ∅) n vals key value = Ok vals' ->
  length vals' = length vals.
Proof.
  unfold unmarshalField.
  destruct (indexFields 0 fields ∅ !! key) as [k|]; [|intros [= <-]; reflexivity].
  destruct (fields !! k) as [fT|]; [|discriminate].
  destruct (vals !! k) as [fV|]; [|discriminate].
  destruct (negb _); [intros [= <-]; reflexivity|].
  intros H. apply andThen_Ok in H as (fV' & _ & [= <-]). apply length_insert.
Qed.

Lemma forEach_struct_frame U fields n members : forall vals vals',
  forEach members (unmarshalField U fields (indexFields 0 fields ∅) n) vals = Ok vals' ->
  length vals' = length vals
  /\ forall i, (forall key, key ∈ members.*1 -> fieldOf fields key <> Some i) ->
       vals' !! i = vals !! i.
Proof.
  induction members as [|[key value] members IH]; intros vals vals' H.
  - injection H as <-. auto.
  - simpl in H. apply andThen_Ok in H as (vals1 & H1 & H).
    apply IH in H as [Hlen Hframe].
    pose proof (unmarshalField_length _ _ _ _ _ _ _ H1) as Hlen1.
    split; [congruence|].
    intros i Hi. rewrite Hframe.
    2:{ intros key' Hin. apply Hi. csimpl. right. exact Hin. }
    specialize (Hi key ltac:(csimpl; left)).
    revert H1 Hi. unfold unmarshalField, fieldOf.
    destruct (indexFields 0 fields ∅ !! key) as [k|]; [|intros [= <-]; reflexivity].
    destruct (fields !! k) as [fT|]; [|discriminate].
    destruct (vals !! k) as [fV|]; [|discriminate].
    destruct (String.eqb (reflect.PkgPath fT) ""); simpl; [|intros [= <-]; reflexivity].
    intros H1 Hi. apply andThen_Ok in H1 as (fV' & _ & [= <-]).
    apply list_lookup_insert_ne. congruence.
Qed.

(** X1.  Decoding into a struct merges: after a successful call the
    destination is the same struct type with as many fields, and a field
    keeps the value it had unless the document has a member that the
    callback decodes into it (a member whose name [indexMap] maps to the
    field, the field being exported).  Fields without a member and
    unexported fields are left as they were. *)
Theorem struct_decode_frame (fuel : nat) (obj : Result) (elemType : rtype)
    (name : string) (vm pm : list string) (fields : list (StructField rtype))
    (vals : list GoValue) (flagAddr : bool) (n : NewByTypeIDer) (res : GoValue) :
  unmarshal fuel obj
    (Val (VPointer elemType (Some (VStruct name vm pm fields vals))) flagAddr) n = Ok res ->
  exists vals',
    res = VPointer elemType (Some (VStruct name vm pm fields vals'))
    /\ length vals' = length vals
    /\ forall i,
         (forall key, key ∈ (gjson.ForEach obj).*1 -> fieldOf fields key <> Some i) ->
         vals' !! i = vals !! i.
Proof.
  destruct fuel as [|fuel]; [discriminate|]. cbn [unmarshal ensureElem andThen].
  intros H. apply andThen_Ok in H as (e & H & [= <-]).
  apply andThen_Ok in H as (vals' & H & [= <-]).
  exists vals'. split; [reflexivity|].
  exact (forEach_struct_frame _ _ _ _ _ _ H).
Qed.

(** [{"A":5}] decoded into [unsorted{B: 2, A: 1, hidden: 3, Skipped: 4}]: only
    the field [A] can have changed. *)
Lemma struct_decode_frame_witness :
  exists vals',
    VPointer (reflect.TypeOf sampleUnsorted)
      (Some (VStruct "unsorted" [] [] unsortedFields [VInt 2; VInt 5; VInt 3; VInt 4]))
    = VPointer (reflect.TypeOf sampleUnsorted)
        (Some (VStruct "unsorted" [] [] unsortedFields vals'))
    /\ length vals' = 4%nat
    /\ forall i,
         (forall key, key ∈ (gjson.ForEach (JObject [("A"%string, JNumber 5)])).*1 ->
                      fieldOf unsortedFields key <> Some i) ->
         vals' !! i = [VInt 2; VInt 1; VInt 3; VInt 4] !! i.
Proof.
  exact (struct_decode_frame 2 (JObject [("A"%string, JNumber 5)])
           (reflect.TypeOf sampleUnsorted) "unsorted" [] [] unsortedFields
           [VInt 2; VInt 1; VInt 3; VInt 4] false TypeRegistry
           (VPointer (reflect.TypeOf sampleUnsorted)
              (Some (VStruct "unsorted" [] [] unsortedFields
                       [VInt 2; VInt 5; VInt 3; VInt 4])))
           eq_refl).
Defined.

Lemma forEach_struct_decoded U fields n members : forall vals,
  length vals = length fields ->
  forEach members (unmarshalField U fields (indexFields 0 fields ∅) n) vals
  = forEach (decodedMembers fields members)
      (unmarshalField U fields (indexFields 0 fields ∅) n) vals.
Proof.
  induction members as [|[key value] members IH]; intros vals Hlen; [reflexivity|].
  unfold decodedMembers. cbn [forEach List.filter fst].
  fold (decodedMembers fields members).
  destruct (fieldOf fields key) as [k|] eqn:Hk.
  - rewrite bool_decide_eq_true_2 by eauto. cbn [forEach].
    destruct (unmarshalField U fields (indexFields 0 fields ∅) n vals key value)
      as [vals1| | |] eqn:H1; cbn [andThen]; try reflexivity.
    apply IH. apply unmarshalField_length in H1. congruence.
  - rewrite bool_decide_eq_false_2 by (intros [? [=]]).
    rewrite unmarshalField_fieldOf, Hk by exact Hlen. cbn [andThen].
    apply IH, Hlen.
Qed.

(** X2.  For a struct destination the members of the document that the
    callback does not decode (their name is no field's wire name, or the
    field is unexported) are skipped without being looked at: the call
    behaves, errors included, as on the object that has the other members
    only. *)
Theorem struct_decode_skips_unmatched (fuel : nat) (obj : Result) (elemType : rtype)
    (name : string) (vm pm : list string) (fields : list (StructField rtype))
    (vals : list GoValue) (flagAddr : bool) (n : NewByTypeIDer) :
  length vals = length fields ->
  unmarshal fuel obj
    (Val (VPointer elemType (Some (VStruct name vm pm fields vals))) flagAddr) n
  = unmarshal fuel (JObject (decodedMembers fields (gjson.ForEach obj)))
      (Val (VPointer elemType (Some (VStruct name vm pm fields vals))) flagAddr) n.
Proof.
  intros Hlen. destruct fuel as [|fuel]; [reflexivity|].
  cbn [unmarshal ensureElem andThen gjson.ForEach].
  rewrite (forEach_struct_decoded _ _ _ (gjson.ForEach obj)) by exact Hlen.
  reflexivity.
Qed.

(** A member that no field is named after is not decoded, whatever it is: the
    malformed wrapper under [note] raises no error. *)
Lemma struct_decode_skips_unmatched_witness :
  unmarshal 2 sampleWithNote
    (Val (VPointer sampleHolder (Some (reflect.Zero sampleHolder))) false) TypeRegistry
  = unmarshal 2 (JObject [("x"%string, JNull)])
      (Val (VPointer sampleHolder (Some (reflect.Zero sampleHolder))) false) TypeRegistry.
Proof.
  exact (struct_decode_skips_unmatched 2 sampleWithNote sampleHolder "holder" [] []
           [reflect.mkStructField "X" "" "x" TAny] [VInterface [] None] false
           TypeRegistry eq_refl).
Defined.

(** X3.  A document that is not an object (a scalar, [null], an array)
    decoded into a struct none of whose fields has the empty wire name: the
    call succeeds and leaves the struct as it was.  [ForEach] passes such a
    document, or the elements of the array, under the empty key, which no
    field matches; no type mismatch is reported. *)
Theorem struct_decode_non_object (fuel : nat) (obj : Result) (elemType : rtype)
    (name : string) (vm pm : list string) (fields : list (StructField rtype))
    (vals : list GoValue) (flagAddr : bool) (n : NewByTypeIDer) :
  length vals = length fields ->
  (forall members, obj <> JObject members) ->
  fieldOf fields "" = None ->
  unmarshal (S fuel) obj
    (Val (VPointer elemType (Some (VStruct name vm pm fields vals))) flagAddr) n
  = Ok (VPointer elemType (Some (VStruct name vm pm fields vals))).
Proof.
  intros Hlen Hobj Hempty. cbn [unmarshal ensureElem andThen].
  rewrite forEach_struct_decoded by exact Hlen.
  assert (Hnone : decodedMembers fields (gjson.ForEach obj) = []).
  { assert (Hkeys : Forall (fun kv => fst kv = ""%string) (gjson.ForEach obj)).
    { destruct obj as [| | | |l|l]; cbn [gjson.ForEach];
        try (repeat constructor); [|exfalso; eapply Hobj; reflexivity].
      induction l; constructor; auto. }
    unfold decodedMembers.
    induction Hkeys as [|[key value] l Hk _ IH]; [reflexivity|].
    cbn [List.filter fst] in *. rewrite Hk, Hempty.
    rewrite bool_decide_eq_false_2 by (intros [? [=]]). exact IH. }
  rewrite Hnone. reflexivity.
Qed.

Lemma struct_decode_non_object_witness :
  unmarshal 1 (JNumber 5)
    (Val (VPointer sampleHolder (Some (reflect.Zero sampleHolder))) false) TypeRegistry
  = Ok (VPointer sampleHolder (Some (reflect.Zero sampleHolder))).
Proof.
  refine (struct_decode_non_object 0 (JNumber 5) sampleHolder "holder" [] []
            [reflect.mkStructField "X" "" "x" TAny] [VInterface [] None] false
            TypeRegistry eq_refl _ eq_refl).
  discriminate.
Defined.


(** ** Map destinations *)

(** X4.  A scalar document ([null] included) decoded into a map with string
    keys: [ForEach] passes the document itself under the empty key, so when
    the document decodes into the element type the call succeeds and sets
    the key [""] in what the loop "delete all entries" left of the map:
    nothing, whatever the map held before, when its keys are equal to
    themselves, as strings are.  Decoding [null] into a [map[string]int]
    gives the map [{"": 0}]. *)
Theorem map_decode_scalar (fuel : nat) (obj : Result) (elemType valueType : rtype)
    (m : option (list (GoValue * GoValue))) (flagAddr : bool) (n : NewByTypeIDer)
    (x : GoValue) :
  isScalar obj = true ->
  unmarshalTo fuel (reflect.Zero valueType) valueType obj n = Ok x ->
  unmarshal (S fuel) obj
    (Val (VPointer elemType (Some (VMap TString valueType m))) flagAddr) n
  = Ok (VPointer elemType
          (Some (VMap TString valueType
                   (Some (reflect.MapAssign (reflect.MapRange (deleteAllEntries m))
                            (VString "") x)))))
  /\ (keysEqualThemselves m = true ->
      unmarshal (S fuel) obj
        (Val (VPointer elemType (Some (VMap TString valueType m))) flagAddr) n
      = Ok (VPointer elemType (Some (VMap TString valueType (Some [(VString "", x)]))))).
Proof.
  intros Hobj Hx.
  assert (Heach : gjson.ForEach obj = [(""%string, obj)])
    by (destruct obj; try discriminate; reflexivity).
  assert (Hcall : unmarshal (S fuel) obj
                    (Val (VPointer elemType (Some (VMap TString valueType m))) flagAddr) n
                  = Ok (VPointer elemType
                          (Some (VMap TString valueType
                                   (Some (reflect.MapAssign
                                            (reflect.MapRange (deleteAllEntries m))
                                            (VString "") x)))))).
  { cbn [unmarshal ensureElem andThen]. rewrite Heach. cbn [forEach].
    unfold unmarshalEntry at 1. cbn [unstringifyMapKey reflect.Zero reflect.TypeOf
      reflect.KindOf reflect.SetString andThen].
    fold (unmarshalTo fuel). rewrite Hx. reflexivity. }
  split; [exact Hcall|]. intros Hself. rewrite Hcall.
  rewrite (deleteAllEntries_empty m Hself). destruct m; reflexivity.
Qed.

Lemma map_decode_scalar_witness :
  unmarshal 3 JNull
    (Val (VPointer (TMap TString TInt)
            (Some (VMap TString TInt (Some [(VString "k", VInt 1)])))) false)
    TypeRegistry
  = Ok (VPointer (TMap TString TInt)
          (Some (VMap TString TInt (Some [(VString "", VInt 0)])))).
Proof.
  exact (proj2 (map_decode_scalar 2 JNull (TMap TString TInt) TInt
                  (Some [(VString "k", VInt 1)]) false TypeRegistry (VInt 0)
                  eq_refl eq_refl) eq_refl).
Defined.

(** X16.  A successful decode of a JSON object into a map whose keys are
    equal to themselves (none is or holds NaN; the keys of a map with string
    keys are) leaves in the map exactly the keys of the object, whatever the
    map held: the entries present before the call are all deleted before
    the first entry is inserted, so the result is the one of decoding into
    the emptied map. *)
Theorem map_decode_replaces (fuel : nat) (members : list (string * Result))
    (elemType keyType valueType : rtype) (m : option (list (GoValue * GoValue)))
    (flagAddr : bool) (r : NewByTypeIDer) (res : GoValue) :
  keysEqualThemselves m = true ->
  unmarshal fuel (JObject members)
    (Val (VPointer elemType (Some (VMap keyType valueType m))) flagAddr) r = Ok res ->
  exists m',
    res = VPointer elemType (Some (VMap keyType valueType m'))
    /\ (forall key,
          key ∈ (reflect.MapRange m').*1 <-> exists s, key = VString s /\ s ∈ members.*1)
    /\ unmarshal fuel (JObject members)
         (Val (VPointer elemType (Some (VMap keyType valueType ((fun _ => []) <$> m))))
            flagAddr) r = Ok res.
Proof.
  intros Hself. destruct fuel as [|fuel]; [discriminate|].
  cbn [unmarshal ensureElem andThen]. intros H.
  assert (Hempty : keysEqualThemselves ((fun _ => []) <$> m) = true)
    by (destruct m; reflexivity).
  rewrite (deleteAllEntries_empty _ Hempty).
  rewrite (deleteAllEntries_empty m Hself) in H.
  replace ((fun _ : list (GoValue * GoValue) => @nil (GoValue * GoValue))
             <$> ((fun _ => []) <$> m))
    with ((fun _ : list (GoValue * GoValue) => @nil (GoValue * GoValue)) <$> m)
    by (destruct m; reflexivity).
  pose proof H as H'.
  apply andThen_Ok in H as (e & H & [= <-]).
  apply andThen_Ok in H as (m' & H & [= <-]).
  exists m'. split; [reflexivity|]. split; [|exact H'].
  intros key. rewrite (forEach_map_keys _ _ _ _ _ _ _ H key).
  destruct m; simpl; split; try (intros [Hk|Hk]; [inversion Hk | exact Hk]); auto.
Qed.

(** The case of the specification: [{"k2":5}] decoded into a map that holds
    ["k1"] leaves only ["k2"]. *)
Lemma map_decode_replaces_witness :
  exists m',
    VPointer (TMap TString TInt) (Some (VMap TString TInt (Some [(VString "k2", VInt 5)])))
    = VPointer (TMap TString TInt) (Some (VMap TString TInt m'))
    /\ (forall key,
          key ∈ (reflect.MapRange m').*1
          <-> exists s, key = VString s /\ s ∈ [("k2"%string, JNumber 5)].*1)
    /\ unmarshal 2 sampleNewEntries
         (Val (VPointer (TMap TString TInt) (Some (VMap TString TInt (Some [])))) false)
         TypeRegistry
       = Ok (VPointer (TMap TString TInt)
               (Some (VMap TString TInt (Some [(VString "k2", VInt 5)])))).
Proof.
  exact (map_decode_replaces 2 [("k2"%string, JNumber 5)] (TMap TString TInt)
           TString TInt (Some [(VString "k1", VInt 1)]) false TypeRegistry
           (VPointer (TMap TString TInt)
              (Some (VMap TString TInt (Some [(VString "k2", VInt 5)]))))
           eq_refl eq_refl).
Defined.

Lemma MapIndex_MapAssign_eq l s e :
  reflect.MapIndex (reflect.MapAssign l (VString s) e) (VString s) = Some e.
Proof.
  induction l as [|[k x] l IH]; cbn [reflect.MapAssign reflect.MapIndex].
  - cbn. rewrite String.eqb_refl. reflexivity.
  - destruct (reflect.GoValue_eqb k (VString s)) eqn:E; cbn [reflect.MapIndex];
      rewrite E; [reflexivity | exact IH].
Qed.

Lemma MapIndex_MapAssign_ne l s s' e :
  s <> s' ->
  reflect.MapIndex (reflect.MapAssign l (VString s) e) (VString s')
  = reflect.MapIndex l (VString s').
Proof.
  intros Hne. induction l as [|[k x] l IH]; cbn [reflect.MapAssign reflect.MapIndex].
  - cbn. apply String.eqb_neq in Hne. rewrite Hne. reflexivity.
  - destruct (reflect.GoValue_eqb k (VString s)) eqn:E; cbn [reflect.MapIndex].
    + apply GoValue_eqb_String in E as ->.
      cbn. apply String.eqb_neq in Hne. rewrite Hne. reflexivity.
    + rewrite IH. reflexivity.
Qed.

Lemma forEach_map_last fuel keyType valueType n members : forall m m',
  forEach members (unmarshalEntry (unmarshal fuel) keyType valueType n) m = Ok m' ->
  forall key,
    (key ∉ members.*1 ->
     reflect.MapIndex (reflect.MapRange m') (VString key)
     = reflect.MapIndex (reflect.MapRange m) (VString key))
    /\ (forall before value after,
          members = before ++ (key, value) :: after -> key ∉ after.*1 ->
          exists x,
            unmarshalTo fuel (reflect.Zero valueType) valueType value n = Ok x
            /\ reflect.MapIndex (reflect.MapRange m') (VString key) = Some x).
Proof.
  induction members as [|[k v] members IH]; intros m m' H key.
  - injection H as <-. split; [reflexivity|].
    intros [|? ?] ? ? [=].
  - cbn [forEach] in H. apply andThen_Ok in H as (m1 & H1 & H).
    apply andThen_Ok in H1 as (keyValue & Hk & H1).
    apply andThen_Ok in H1 as (x1 & Hx1 & [= <-]).
    apply unstringifyMapKey_Zero_Ok in Hk as ->.
    destruct (IH _ _ H key) as [IH1 IH2]. cbn [reflect.MapRange reflect.SetMapIndex] in IH1.
    split.
    + intros Hnot. csimpl in Hnot. apply not_elem_of_cons in Hnot as [Hne Hnot].
      rewrite IH1 by exact Hnot. apply MapIndex_MapAssign_ne. congruence.
    + intros [|b before] value after Heq Hafter.
      * injection Heq as <- <- <-. exists x1. split; [exact Hx1|].
        rewrite IH1 by exact Hafter. apply MapIndex_MapAssign_eq.
      * injection Heq as _ Heq. exact (IH2 before value after Heq Hafter).
Qed.

(** X5.  After a successful decode of an object into a map, the map holds
    under each name the decoding, into a fresh zero value of the element
    type, of the last member of that name: a later member replaces an earlier
    one, and nothing of what the map or an earlier member held is merged. *)
Theorem map_decode_values (fuel : nat) (members : list (string * Result))
    (elemType keyType valueType : rtype) (m : option (list (GoValue * GoValue)))
    (flagAddr : bool) (n : NewByTypeIDer) (res : GoValue) :
  unmarshal (S fuel) (JObject members)
    (Val (VPointer elemType (Some (VMap keyType valueType m))) flagAddr) n = Ok res ->
  exists m',
    res = VPointer elemType (Some (VMap keyType valueType m'))
    /\ forall before key value after,
         members = before ++ (key, value) :: after -> key ∉ after.*1 ->
         exists x,
           unmarshalTo fuel (reflect.Zero valueType) valueType value n = Ok x
           /\ reflect.MapIndex (reflect.MapRange m') (VString key) = Some x.
Proof.
  cbn [unmarshal ensureElem andThen gjson.ForEach]. intros H.
  apply andThen_Ok in H as (e & H & [= <-]).
  apply andThen_Ok in H as (m' & H & [= <-]).
  exists m'. split; [reflexivity|].
  intros before key value after Heq Hafter.
  exact (proj2 (forEach_map_last _ _ _ _ _ _ _ H key) before value after Heq Hafter).
Qed.

Lemma map_decode_values_witness :
  exists m',
    VPointer (TMap TString TInt) (Some (VMap TString TInt (Some [(VString "k", VInt 2)])))
    = VPointer (TMap TString TInt) (Some (VMap TString TInt m'))
    /\ forall before key value after,
         [("k"%string, JNumber 1); ("k"%string, JNumber 2)]
         = before ++ (key, value) :: after ->
         key ∉ after.*1 ->
         exists x,
           unmarshalTo 2 (reflect.Zero TInt) TInt value TypeRegistry = Ok x
           /\ reflect.MapIndex (reflect.MapRange m') (VString key) = Some x.
Proof.
  exact (map_decode_values 2 [("k"%string, JNumber 1); ("k"%string, JNumber 2)]
           (TMap TString TInt) TString TInt (Some [(VString "k", VInt 7)]) false
           TypeRegistry _ eq_refl).
Defined.

(** ** Interface slots *)

(** X6.  Decoding into a slot declared with an interface type a wrapper whose
    single member is named by an identifier the resolver rejects:
    [unmarshalTo] returns the error "unable to construct an instance of
    value for TypeID", wrapping the resolver's error, and no call from which
    the slot is reached returns a value. *)
Theorem unknown_type_id (fuel : nat) (methods : list string) (value valueUnparsed : Result)
    (typeID : TypeID) (err : error) (n : NewByTypeIDer) :
  gjson.TypeOf value <> gjson.Null ->
  map_to_list (gjson.Map value) = [(typeID, valueUnparsed)] ->
  NewByTypeID n typeID = Err err ->
  (forall out,
     unmarshalTo fuel out (TInterface methods) value n = Err (ErrConstruct typeID err))
  /\ (forall out root,
        rtc (invokes n) root (CallUnmarshalTo fuel out (TInterface methods) value) ->
        forall res, returned n root <> Ok res).
Proof.
  intros Hnull Hm Hnew.
  assert (Hslot : forall out,
            unmarshalTo fuel out (TInterface methods) value n
            = Err (ErrConstruct typeID err)).
  { intros out. unfold unmarshalTo, unmarshalTo_body. cbn [reflect.KindOf].
    rewrite Hm, Hnew. destruct (gjson.TypeOf value); try reflexivity.
    contradiction Hnull. reflexivity. }
  split; [exact Hslot|].
  intros out root Hcalls. eapply unmarshal_error_fatal; [exact Hcalls|].
  intros res. cbn [returned]. rewrite Hslot. discriminate.
Qed.

Lemma unknown_type_id_witness :
  unmarshalTo 1 (VInterface [] None) TAny (JObject [("nobody"%string, JNumber 1)])
    TypeRegistry
  = Err (ErrConstruct "nobody" (ResolverError "TypeID is not registered")).
Proof.
  refine (proj1 (unknown_type_id 1 [] (JObject [("nobody"%string, JNumber 1)])
                   (JNumber 1) "nobody" (ResolverError "TypeID is not registered")
                   TypeRegistry _ _ _) (VInterface [] None)).
  - discriminate.
  - vm_compute. reflexivity.
  - vm_compute. reflexivity.
Defined.

(** ** Pointers to interfaces *)

(** X15.  A destination that is a pointer, through any number of pointers, to
    a variable of an interface type (as [&x] for [var x any]) is never
    decoded into: the case "unwrapping the interface" of [unmarshal] calls
    [unmarshal] on the interface value, which is not a pointer, and the call
    returns the error "expected a pointer destination", naming the dynamic
    type, whatever the document, the value the interface holds and the
    resolver. *)
Theorem pointer_to_interface_fails (k fuel : nat) (obj : Result) (methods : list string)
    (dyn : option GoValue) (flagAddr : bool) (n : NewByTypeIDer) :
  unmarshal (S (S k) + fuel) obj (Val (pointerTo (S k) (VInterface methods dyn)) flagAddr) n
  = Err (ErrExpectedPointer (reflect.runtimeType dyn)).
Proof.
  revert flagAddr. induction k as [|k IH]; intros flagAddr.
  - reflexivity.
  - change (pointerTo (S (S k)) (VInterface methods dyn))
      with (VPointer (reflect.TypeOf (pointerTo (S k) (VInterface methods dyn)))
              (Some (pointerTo (S k) (VInterface methods dyn)))).
    change (S (S (S k)) + fuel)%nat with (S (S (S k) + fuel)).
    cbn [unmarshal ensureElem andThen].
    change (pointerTo (S k) (VInterface methods dyn))
      with (VPointer (reflect.TypeOf (pointerTo k (VInterface methods dyn)))
              (Some (pointerTo k (VInterface methods dyn)))) at 1 3.
    cbv iota beta.
    rewrite (IH true). reflexivity.
Qed.

(** * Further properties of the encoder *)

Lemma stringifyMapKey_Ok key name :
  stringifyMapKey key = Ok name <-> key = VString name.
Proof.
  unfold stringifyMapKey. split.
  - destruct key; cbn; try discriminate. intros [= <-]. reflexivity.
  - intros ->. reflexivity.
Qed.

(** ** The order of the entries of a map *)

Lemma marshalEntries_Permutation M r elemT entries entries' :
  entries ≡ₚ entries' ->
  NoDup entries.*1 ->
  forall mf j,
    marshalEntries M r elemT entries mf = Ok j ->
    marshalEntries M r elemT entries' mf = Ok j.
Proof.
  induction 1 as [|[key value] l l' Hperm IH|[k1 v1] [k2 v2] l|l1 l2 l3 H12 IH12 H23 IH23];
    intros Hnd mf j H.
  - exact H.
  - rewrite marshalEntries_cons in *.
    apply andThen_Ok in H as (name & Hname & H). rewrite Hname. cbn [andThen].
    apply andThen_Ok in H as (b & Hb & H). rewrite Hb. cbn [andThen].
    apply andThen_Ok in H as (x & Hx & H). rewrite Hx. cbn [andThen].
    apply IH; [|exact H]. csimpl in Hnd. apply NoDup_cons in Hnd as [_ Hnd]. exact Hnd.
  - rewrite !marshalEntries_cons in *.
    apply andThen_Ok in H as (n1 & Hn1 & H).
    apply andThen_Ok in H as (b1 & Hb1 & H).
    apply andThen_Ok in H as (x1 & Hx1 & H).
    rewrite marshalEntries_cons in H.
    apply andThen_Ok in H as (n2 & Hn2 & H).
    apply andThen_Ok in H as (b2 & Hb2 & H).
    apply andThen_Ok in H as (x2 & Hx2 & H).
    rewrite Hn2. cbn [andThen]. rewrite Hb2. cbn [andThen]. rewrite Hx2. cbn [andThen].
    rewrite marshalEntries_cons.
    rewrite Hn1. cbn [andThen]. rewrite Hb1. cbn [andThen]. rewrite Hx1. cbn [andThen].
    rewrite insert_insert_ne; [exact H|].
    apply stringifyMapKey_Ok in Hn1, Hn2. subst.
    csimpl in Hnd. apply NoDup_cons in Hnd as [Hnd _].
    intros ->. apply Hnd. left.
  - apply IH23; [rewrite <- H12; exact Hnd|]. apply IH12; assumption.
Qed.

(** X7.  The output for a map does not depend on the order in which the
    entries are ranged over (Go leaves that order unspecified): when the
    encoder has an output for the entries taken in one order, it has the same
    output for them in any other order. *)
Theorem map_encode_order_irrelevant (keyT elemT : rtype)
    (entries entries' : list (GoValue * GoValue)) (r : TypeIDOfer) (j : Result) :
  entries ≡ₚ entries' ->
  NoDup entries.*1 ->
  marshal (VMap keyT elemT (Some entries)) r = Ok j ->
  marshal (VMap keyT elemT (Some entries')) r = Ok j.
Proof.
  intros Hperm Hnd. rewrite !marshal_map_eq.
  apply marshalEntries_Permutation; assumption.
Qed.

Lemma map_encode_order_irrelevant_witness :
  marshal (VMap TString TAny (Some sampleEntriesAB)) TypeRegistry
  = marshal (VMap TString TAny (Some sampleEntriesBA)) TypeRegistry.
Proof.
  assert (Hnd : NoDup sampleEntriesBA.*1).
  { apply NoDup_cons. split; [|apply NoDup_singleton].
    intros H. apply list_elem_of_singleton in H. discriminate. }
  symmetry.
  exact (map_encode_order_irrelevant TString TAny sampleEntriesBA sampleEntriesAB
           TypeRegistry _ (perm_swap _ _ _) Hnd eq_refl).
Defined.

(** ** The shape of the output *)

Lemma Marshal_map_sorted mf j :
  json.Marshal_map mf = Ok j ->
  exists raw,
    j = JObject (json.writeNames raw)
    /\ Sorted json.key_le raw
    /\ NoDup raw.*1
    /\ forall key, key ∈ raw.*1 <-> is_Some (mf !! key).
Proof.
  intros H.
  apply Marshal_map_members in H as (raw & -> & _ & Hnd & Hmem & Hsorted).
  exists raw. split; [reflexivity|]. split; [exact Hsorted|]. split; [exact Hnd|].
  intros key. rewrite list_elem_of_fmap. split.
  - intros ([k x] & -> & Hin). apply Hmem in Hin as (a & Ha & _). eauto.
  - intros [a Ha]. exists (key, json.Marshal_any a). split; [reflexivity|].
    apply Hmem. eauto.
Qed.

Lemma writeNames_valid_keys (raw : list (string * Result)) :
  (forall key, key ∈ raw.*1 -> utf8.ValidString key = true) -> json.writeNames raw = raw.
Proof.
  intros H. apply writeNames_valid, Forall_forall. intros [key x] Hin. apply H.
  apply list_elem_of_fmap. exists (key, x). auto.
Qed.

Lemma visited_name_dec (fields : list (StructField rtype)) (key : string) :
  (exists k fT, fields !! k = Some fT /\ visited fT = true /\ jsonFieldName fT = key)
  \/ (forall k fT, fields !! k = Some fT -> visited fT = true -> jsonFieldName fT <> key).
Proof.
  induction fields as [|f fields [(k & fT & Hk & Hv & Hn)|IH]].
  - right. intros k fT Hk. rewrite lookup_nil in Hk. discriminate.
  - left. exists (S k), fT. auto.
  - destruct (visited f) eqn:Hv.
    + destruct (decide (jsonFieldName f = key)) as [Heq|Hne].
      * left. exists 0%nat, f. auto.
      * right. intros [|k] fT Hk Hv'; [injection Hk as <-; exact Hne|].
        exact (IH k fT Hk Hv').
    + right. intros [|k] fT Hk Hv'; [injection Hk as <-; congruence|].
      exact (IH k fT Hk Hv').
Qed.

(** X8.  The output for a struct is an object that has one member for each
    wire name of the fields that are exported and not tagged ["-"], and no
    other: no such field is left out whatever it holds.  The members come in
    the order of these names (as bytes), which are written as strings are,
    an invalid UTF-8 byte as U+FFFD; when the wire names are valid UTF-8 the
    names of the members are the wire names themselves, sorted and pairwise
    distinct. *)
Theorem struct_encode_members (name : string) (vm pm : list string)
    (fields : list (StructField rtype)) (vals : list GoValue) (r : TypeIDOfer)
    (j : Result) :
  marshal (VStruct name vm pm fields vals) r = Ok j ->
  exists raw,
    j = JObject (json.writeNames raw)
    /\ Sorted json.key_le raw
    /\ NoDup raw.*1
    /\ (forall key,
          key ∈ raw.*1
          <-> exists k fT, fields !! k = Some fT /\ visited fT = true
                           /\ jsonFieldName fT = key)
    /\ ((forall k fT, fields !! k = Some fT -> visited fT = true ->
                      utf8.ValidString (jsonFieldName fT) = true) ->
        json.writeNames raw = raw).
Proof.
  rewrite marshal_struct_eq. intros H.
  apply marshalFields_Ok in H as (mf' & Hj & Hother & _ & Hsome & _).
  apply Marshal_map_sorted in Hj as (raw & -> & Hsorted & Hnd & Hmem).
  assert (Hnames : forall key,
            key ∈ raw.*1
            <-> exists k fT, fields !! k = Some fT /\ visited fT = true
                             /\ jsonFieldName fT = key).
  { intros key. rewrite Hmem. split.
    - intros Hin.
      destruct (visited_name_dec fields key) as [Hex|Hno]; [exact Hex|].
      rewrite Hother, lookup_empty in Hin by exact Hno. destruct Hin as [? [=]].
    - intros (k & fT & Hk & Hvis & <-). eapply Hsome; eassumption. }
  exists raw. split; [reflexivity|]. split; [exact Hsorted|]. split; [exact Hnd|].
  split; [exact Hnames|].
  intros Hvalid. apply writeNames_valid_keys. intros key Hkey.
  apply Hnames in Hkey as (k & fT & Hk & Hvis & <-). eauto.
Qed.

Lemma struct_encode_members_witness :
  exists raw,
    JObject [("A"%string, JNumber 1); ("B"%string, JNumber 2)]
    = JObject (json.writeNames raw)
    /\ Sorted json.key_le raw
    /\ NoDup raw.*1
    /\ (forall key,
          key ∈ raw.*1
          <-> exists k fT, unsortedFields !! k = Some fT
                           /\ visited fT = true /\ jsonFieldName fT = key)
    /\ ((forall k fT, unsortedFields !! k = Some fT -> visited fT = true ->
                      utf8.ValidString (jsonFieldName fT) = true) ->
        json.writeNames raw = raw).
Proof.
  exact (struct_encode_members "unsorted" [] [] unsortedFields
           [VInt 2; VInt 1; VInt 3; VInt 4] TypeRegistry
           (JObject [("A"%string, JNumber 1); ("B"%string, JNumber 2)]) eq_refl).
Defined.

(** X9.  The output for a map is an object that has one member for each key
    of the map, and no other.  The members come in the order of the keys (as
    bytes), which are written as strings are, an invalid UTF-8 byte as
    U+FFFD (so two keys can be written as one name); when the keys are valid
    UTF-8 the names of the members are the keys themselves, sorted and
    pairwise distinct. *)
Theorem map_encode_members (keyT elemT : rtype) (entries : list (GoValue * GoValue))
    (r : TypeIDOfer) (j : Result) :
  marshal (VMap keyT elemT (Some entries)) r = Ok j ->
  exists raw,
    j = JObject (json.writeNames raw)
    /\ Sorted json.key_le raw
    /\ NoDup raw.*1
    /\ (forall key, key ∈ raw.*1 <-> VString key ∈ entries.*1)
    /\ ((forall key, VString key ∈ entries.*1 -> utf8.ValidString key = true) ->
        json.writeNames raw = raw).
Proof.
  rewrite marshal_map_eq. intros H.
  assert (Hkeys : forall kv, kv ∈ entries -> fst kv = VString (reflect.String_ (fst kv))).
  { clear -H. revert H. generalize (∅ : gmap string json.anyValue).
    induction entries as [|[key value] entries IH]; intros mf H kv Hin; [inversion Hin|].
    rewrite marshalEntries_cons in H.
    apply andThen_Ok in H as (name & Hname & H).
    apply andThen_Ok in H as (b & _ & H).
    apply andThen_Ok in H as (x & _ & H).
    apply elem_of_cons in Hin as [->|Hin]; [|exact (IH _ H kv Hin)].
    apply stringifyMapKey_Ok in Hname. subst key. reflexivity. }
  apply marshalEntries_Ok in H as (mf' & Hj & Hother & _ & Hsome & _).
  apply Marshal_map_sorted in Hj as (raw & -> & Hsorted & Hnd & Hmem).
  assert (Hnames : forall key, key ∈ raw.*1 <-> VString key ∈ entries.*1).
  { intros key. rewrite Hmem. split.
    - intros Hin. rewrite list_elem_of_fmap.
      destruct (decide (key ∈ (fun kv => reflect.String_ (fst kv)) <$> entries))
        as [Hex|Hno].
      + apply list_elem_of_fmap in Hex as (kv & -> & Hkv).
        exists kv. split; [symmetry; apply Hkeys; exact Hkv | exact Hkv].
      + rewrite Hother, lookup_empty in Hin; [destruct Hin as [? [=]]|].
        intros kv Hkv Heq. apply Hno. apply list_elem_of_fmap. eauto.
    - intros Hin. apply list_elem_of_fmap in Hin as (kv & Heq & Hkv).
      replace key with (reflect.String_ (fst kv)) by (rewrite <- Heq; reflexivity).
      apply Hsome. exact Hkv. }
  exists raw. split; [reflexivity|]. split; [exact Hsorted|]. split; [exact Hnd|].
  split; [exact Hnames|].
  intros Hvalid. apply writeNames_valid_keys. intros key Hkey.
  apply Hvalid, Hnames, Hkey.
Qed.

Lemma map_encode_members_witness :
  exists raw,
    JObject [("a"%string, JObject [("./polyjson_test.myFancyStruct"%string,
                                    JObject [("A"%string, JNumber 1)])]);
             ("b"%string, JObject [("./polyjson_test.myFancyStruct"%string,
                                    JObject [("A"%string, JNumber 2)])])]
    = JObject (json.writeNames raw)
    /\ Sorted json.key_le raw
    /\ NoDup raw.*1
    /\ (forall key, key ∈ raw.*1 <-> VString key ∈ sampleEntriesBA.*1)
    /\ ((forall key, VString key ∈ sampleEntriesBA.*1 -> utf8.ValidString key = true) ->
        json.writeNames raw = raw).
Proof.
  exact (map_encode_members TString TAny sampleEntriesBA TypeRegistry _
           (eq_refl : marshal (VMap TString TAny (Some sampleEntriesBA)) TypeRegistry
                      = Ok _)).
Defined.

(** ** When the encoder has an output *)






(** ** Fields the encoder does not visit *)

Lemma marshalFields_visited M r t fields : forall vals vals' i mf,
  length vals = length vals' ->
  (forall k fT, fields !! k = Some fT -> visited fT = true -> vals !! k = vals' !! k) ->
  marshalFields M r t vals fields i mf = marshalFields M r t vals' fields i mf.
Proof.
  induction fields as [|fT fields IH]; intros vals vals' i mf Hlen Hsame.
  - destruct vals, vals'; reflexivity.
  - destruct vals as [|fV vals], vals' as [|fV' vals']; try discriminate; [reflexivity|].
    rewrite !marshalFields_cons.
    assert (Hrec : forall mf', marshalFields M r t vals fields (S i) mf'
                               = marshalFields M r t vals' fields (S i) mf').
    { intros mf'. apply IH; [cbn in Hlen; lia|].
      intros k fT' Hk Hv. exact (Hsame (S k) fT' Hk Hv). }
    destruct (visited fT) eqn:Hv; [|apply Hrec].
    specialize (Hsame 0%nat fT eq_refl Hv). injection Hsame as <-.
    destruct (M fV); cbn [andThen]; try reflexivity.
    destruct (fieldValue r fT fV a); cbn [andThen]; try reflexivity. apply Hrec.
Qed.

(** X11.  What a struct holds in its unexported fields and in the fields
    tagged ["-"] has no part in the encoding: two structs of one type that
    agree on the other fields get the same result, output or error, also
    when such a field holds something the encoder has no output for. *)
Theorem struct_encode_frame (name : string) (vm pm : list string)
    (fields : list (StructField rtype)) (vals vals' : list GoValue) (r : TypeIDOfer) :
  length vals = length vals' ->
  (forall k fT, fields !! k = Some fT -> visited fT = true -> vals !! k = vals' !! k) ->
  marshal (VStruct name vm pm fields vals) r = marshal (VStruct name vm pm fields vals') r.
Proof.
  intros Hlen Hsame. rewrite !marshal_struct_eq.
  apply marshalFields_visited; assumption.
Qed.

(** A struct with an unexported field that holds a value of an unregistered
    type, and the same struct with the field left nil. *)
Lemma struct_encode_frame_witness :
  marshal sampleHidden TypeRegistry
  = marshal (VStruct "hider" [] [] [reflect.mkStructField "hidden" "polyjson_test" "" TAny]
               [VInterface [] None]) TypeRegistry.
Proof.
  apply (struct_encode_frame "hider" [] []
           [reflect.mkStructField "hidden" "polyjson_test" "" TAny]
           [VInterface [] (Some (VStruct "stranger" [] [] [] []))] [VInterface [] None]
           TypeRegistry eq_refl).
  intros [|k] fT Hk Hv; [|destruct k; discriminate].
  injection Hk as <-. discriminate.
Defined.

(** * The decoder returns *)

Lemma valueDepth_Zero (t : rtype) : valueDepth (reflect.Zero t) = typeDepth t.
Proof.
  induction t as [| | |elem IH|methods|key elem _ IH|name vm pm fields IH|]
    using rtype_ind_nested; try reflexivity.
  cbn [reflect.Zero valueDepth typeDepth]. do 3 f_equal.
  induction IH as [|f fields Hf _ IHfields]; [reflexivity|].
  cbn [List.map]. rewrite Hf, IHfields. reflexivity.
Qed.

Lemma ensureElem_depth elemType p flagAddr elem :
  ensureElem elemType p flagAddr = Ok elem ->
  valueDepth (VPointer elemType p) = S (valueDepth elem).
Proof.
  destruct p as [x|]; cbn.
  - intros [= <-]. reflexivity.
  - destruct flagAddr; [|discriminate]. intros [= <-]. rewrite valueDepth_Zero. reflexivity.
Qed.

Lemma Map_foldl_member (l : list (string * Result)) : forall (m : gmap string Result) key x,
  foldl (fun m kv => match m !! fst kv with
                     | Some _ => m
                     | None => <[fst kv := snd kv]> m
                     end) m l !! key = Some x ->
  (key, x) ∈ l \/ m !! key = Some x.
Proof.
  induction l as [|[k v] l IH]; intros m key x H; cbn [foldl] in H; [auto|].
  apply IH in H as [H|H]; [left; right; exact H|].
  cbn [fst snd] in H. destruct (m !! k) eqn:Hk; [auto|].
  destruct (decide (k = key)) as [->|Hne].
  - rewrite lookup_insert_eq in H. injection H as <-. left. left.
  - rewrite lookup_insert_ne in H by exact Hne. auto.
Qed.

(** The single member of a wrapper is a member of the document. *)
Lemma Map_singleton_member value typeID valueUnparsed :
  map_to_list (gjson.Map value) = [(typeID, valueUnparsed)] ->
  exists l, value = JObject l /\ (typeID, valueUnparsed) ∈ l.
Proof.
  intros H.
  assert (Hin : gjson.Map value !! typeID = Some valueUnparsed).
  { apply elem_of_map_to_list. rewrite H. left. }
  destruct value as [|b|z|s|a|l]; cbn [gjson.Map] in Hin;
    try (rewrite lookup_empty in Hin; discriminate).
  exists l. split; [reflexivity|].
  apply Map_foldl_member in Hin as [Hin|Hin]; [exact Hin|].
  rewrite lookup_empty in Hin. discriminate.
Qed.

Lemma andThen_OutOfFuel {A B} (r : result A) w (k : A -> result B) :
  andThen r w k = OutOfFuel -> r = OutOfFuel \/ exists a, r = Ok a /\ k a = OutOfFuel.
Proof. destruct r; cbn; eauto; discriminate. Qed.

Lemma andThen_returns {A B} (r : result A) w (k : A -> result B) :
  r <> OutOfFuel -> (forall a, k a <> OutOfFuel) -> andThen r w k <> OutOfFuel.
Proof.
  intros Hr Hk H. apply andThen_OutOfFuel in H as [H|(a & _ & H)];
    [exact (Hr H) | exact (Hk a H)].
Qed.

Lemma unmarshalEntry_stable fuel fuel' keyType valueType n m key value :
  (fuel <= fuel')%nat ->
  unmarshalEntry (unmarshal fuel) keyType valueType n m key value <> OutOfFuel ->
  unmarshalEntry (unmarshal fuel') keyType valueType n m key value
  = unmarshalEntry (unmarshal fuel) keyType valueType n m key value.
Proof.
  intros Hle H. unfold unmarshalEntry in *.
  destruct (unstringifyMapKey (reflect.Zero keyType) key); cbn [andThen] in *;
    try reflexivity.
  rewrite (unmarshalTo_body_ext_result (unmarshal fuel) (unmarshal fuel')); auto.
  - intros obj v Hv. apply unmarshal_budget_irrelevant; assumption.
  - eapply andThen_not_OutOfFuel; exact H.
Qed.

Lemma unmarshalField_stable fuel fuel' fields indexMap n vals key value :
  (fuel <= fuel')%nat ->
  unmarshalField (unmarshal fuel) fields indexMap n vals key value <> OutOfFuel ->
  unmarshalField (unmarshal fuel') fields indexMap n vals key value
  = unmarshalField (unmarshal fuel) fields indexMap n vals key value.
Proof.
  intros Hle H. unfold unmarshalField in *.
  destruct (indexMap !! key) as [fieldIndex|]; [|reflexivity].
  destruct (fields !! fieldIndex) as [fT|]; [|reflexivity].
  destruct (vals !! fieldIndex) as [fV|]; [|reflexivity].
  destruct (negb (String.eqb (reflect.PkgPath fT) "")); [reflexivity|].
  rewrite (unmarshalTo_body_ext_result (unmarshal fuel) (unmarshal fuel')); auto.
  - intros obj v Hv. apply unmarshal_budget_irrelevant; assumption.
  - eapply andThen_not_OutOfFuel; exact H.
Qed.

(** A loop over the members returns when its callback does on each member,
    whatever the state it is called in. *)
Lemma forEach_halts {S} (l : list (string * Result))
    (body : nat -> S -> string -> Result -> result S) :
  (forall fuel fuel' s key value, (fuel <= fuel')%nat ->
     body fuel s key value <> OutOfFuel ->
     body fuel' s key value = body fuel s key value) ->
  (forall key value, (key, value) ∈ l ->
     forall s, exists fuel, body fuel s key value <> OutOfFuel) ->
  forall s, exists fuel, forEach l (body fuel) s <> OutOfFuel.
Proof.
  intros Hstable. induction l as [|[key value] l IH]; intros Hbody s.
  - exists 0%nat. discriminate.
  - destruct (Hbody key value ltac:(left) s) as [f1 H1].
    destruct (body f1 s key value) as [s1|e|msg|] eqn:E1; [| | |contradiction H1; reflexivity].
    + destruct (IH ltac:(intros k v Hin; apply Hbody; right; exact Hin) s1) as [f2 H2].
      exists (Nat.max f1 f2). cbn [forEach].
      rewrite (Hstable f1 (Nat.max f1 f2)), E1 by (try lia; rewrite E1; discriminate).
      cbn [andThen].
      rewrite (forEach_ext_result l (body f2) (body (Nat.max f1 f2))); [exact H2| |exact H2].
      intros s' k v Hs'. apply Hstable; [lia | exact Hs'].
    + exists f1. cbn [forEach]. rewrite E1. discriminate.
    + exists f1. cbn [forEach]. rewrite E1. discriminate.
Qed.

Lemma list_sum_lookup (l : list nat) i a : l !! i = Some a -> (a <= list_sum l)%nat.
Proof.
  revert i. induction l as [|b l IH]; intros [|i] H; try discriminate;
    change (list_sum (b :: l)) with (b + list_sum l)%nat.
  - injection H as ->. lia.
  - apply (IH i) in H. lia.
Qed.

Lemma json_Unmarshal_returns raw cur : json.Unmarshal raw cur <> OutOfFuel.
Proof.
  destruct raw, cur; cbn; try discriminate.
  - destruct (json.int64_range z); discriminate.
  - destruct (json.roundFloat64 z); discriminate.
Qed.

Section Termination.

Variable n : NewByTypeIDer.
Hypothesis resolver_returns : forall typeID, NewByTypeID n typeID <> OutOfFuel.

(** [unmarshalTo] returns when the calls of [unmarshal] it can make do. *)
Lemma unmarshalTo_halts out outType value :
  halts n value (reflect.Addr out) ->
  (forall typeID valueUnparsed,
     map_to_list (gjson.Map value) = [(typeID, valueUnparsed)] ->
     forall v, halts n valueUnparsed v) ->
  exists fuel, unmarshalTo fuel out outType value n <> OutOfFuel.
Proof.
  intros [f1 H1] H2. unfold unmarshalTo, unmarshalTo_body.
  assert (Hcontent : forall fuel value' contentOut,
            unmarshal fuel value' contentOut n <> OutOfFuel ->
            andThen (unmarshal fuel value' contentOut n) ErrUnmarshal
              (fun contentOut0 =>
                 match contentOut0 with
                 | VPointer _ (Some elem) =>
                     if isInterface outType then
                       if reflect.AssignableTo (reflect.TypeOf elem) outType then
                         Ok (reflect.Set_ out elem)
                       else if reflect.AssignableTo (reflect.TypeOf contentOut0) outType then
                         Ok (reflect.Set_ out contentOut0)
                       else Err (ErrAssign outType)
                     else Ok elem
                 | _ => Panic "reflect: call of reflect.Value.Type on zero Value"
                 end) <> OutOfFuel).
  { intros fuel value' contentOut Hc H.
    apply andThen_OutOfFuel in H as [H|(a & _ & H)]; [exact (Hc H)|].
    destruct a as [| | |t [elem|]| | | |]; try discriminate.
    destruct (isInterface outType); [|discriminate].
    destruct (reflect.AssignableTo (reflect.TypeOf elem) outType); [discriminate|].
    destruct (reflect.AssignableTo _ outType); discriminate. }
  destruct (reflect.KindOf outType);
    try (exists f1; apply Hcontent; exact H1).
  - destruct (gjson.TypeOf value) eqn:Ht;
      try (exists 0%nat; discriminate);
      (destruct (map_to_list (gjson.Map value)) as [|[typeID valueUnparsed] [|]] eqn:Hm;
       try (exists 0%nat; discriminate);
       destruct (NewByTypeID n typeID) as [a|e|msg|] eqn:Hnew;
       [ destruct (H2 typeID valueUnparsed eq_refl (reflect.ValueOf a)) as [f2 Hf2];
         exists f2; cbn [andThen]; apply Hcontent; exact Hf2
       | exists 0%nat; discriminate
       | exists 0%nat; discriminate
       | contradiction (resolver_returns typeID) ]).
  - destruct (gjson.TypeOf value);
      try (exists 0%nat; discriminate); exists f1; apply Hcontent; exact H1.
Qed.

Lemma unmarshalEntry_halts keyType valueType m key value :
  (exists fuel, unmarshalTo fuel (reflect.Zero valueType) valueType value n <> OutOfFuel) ->
  exists fuel, unmarshalEntry (unmarshal fuel) keyType valueType n m key value <> OutOfFuel.
Proof.
  intros [f Hf]. exists f. unfold unmarshalEntry.
  destruct (unstringifyMapKey (reflect.Zero keyType) key) as [keyValue|e|msg|] eqn:Hk;
    cbn [andThen]; try discriminate.
  - intros H. apply andThen_OutOfFuel in H as [H|(a & _ & H)]; [exact (Hf H)|discriminate].
  - unfold unstringifyMapKey in Hk. destruct (reflect.KindOf _); discriminate.
Qed.

Lemma unmarshalField_halts fields indexMap vals key value :
  (forall k fT fV, fields !! k = Some fT -> vals !! k = Some fV ->
     exists fuel, unmarshalTo fuel fV (reflect.Type_ fT) value n <> OutOfFuel) ->
  exists fuel, unmarshalField (unmarshal fuel) fields indexMap n vals key value <> OutOfFuel.
Proof.
  intros Hto. unfold unmarshalField.
  destruct (indexMap !! key) as [k|]; [|exists 0%nat; discriminate].
  destruct (fields !! k) as [fT|] eqn:HfT; [|exists 0%nat; discriminate].
  destruct (vals !! k) as [fV|] eqn:HfV; [|exists 0%nat; discriminate].
  destruct (negb _); [exists 0%nat; discriminate|].
  destruct (Hto k fT fV HfT HfV) as [f Hf]. exists f.
  intros H. apply andThen_OutOfFuel in H as [H|(a & _ & H)]; [exact (Hf H)|discriminate].
Qed.

Lemma scalar_Map obj typeID valueUnparsed :
  isScalar obj = true ->
  map_to_list (gjson.Map obj) <> [(typeID, valueUnparsed)].
Proof.
  intros Hs H. apply Map_singleton_member in H as (l & -> & _). discriminate.
Qed.

Lemma scalar_ForEach obj : isScalar obj = true -> gjson.ForEach obj = [(""%string, obj)].
Proof. destruct obj; try discriminate; reflexivity. Qed.

(** On a given document [unmarshal] returns for every destination, by
    induction on the depth of the destination: a scalar document is passed
    on as it is, to a destination of a smaller depth. *)
Lemma unmarshal_halts_depth obj :
  isScalar obj = true \/ membersHalt n obj ->
  forall k x flagAddr, (valueDepth x < k)%nat -> halts n obj (Val x flagAddr).
Proof.
  intros HM. induction k as [|k IH]; intros x flagAddr Hk; [lia|].
  destruct x as [b|z|s|elemType p|methods dyn|keyT elemT m|name vm pm fields vals|f64];
    try (exists 1%nat; discriminate).
  destruct (ensureElem elemType p flagAddr) as [elem|e|msg|] eqn:He;
    try (exists 1%nat; cbn [unmarshal]; rewrite He; discriminate);
    try (destruct p, flagAddr; discriminate).
  rewrite (ensureElem_depth _ _ _ _ He) in Hk.
  assert (Hend : forall f (r : result GoValue),
            r <> OutOfFuel ->
            unmarshal (S f) obj (Val (VPointer elemType p) flagAddr) n
            = (elem' <- r ; Ok (VPointer elemType (Some elem'))) ->
            halts n obj (Val (VPointer elemType p) flagAddr)).
  { intros f r Hr Heq. exists (S f). rewrite Heq. intros H.
    apply andThen_OutOfFuel in H as [H|(a & _ & H)]; [exact (Hr H)|discriminate]. }
  destruct elem as [b|z|s|elemType' p'|methods dyn|keyT elemT m|name vm pm fields vals|f64].
  - apply (Hend 0%nat (json.Unmarshal obj (VBool b))); [apply json_Unmarshal_returns|].
    cbn [unmarshal]. rewrite He. reflexivity.
  - apply (Hend 0%nat (json.Unmarshal obj (VInt z))); [apply json_Unmarshal_returns|].
    cbn [unmarshal]. rewrite He. reflexivity.
  - apply (Hend 0%nat (json.Unmarshal obj (VString s))); [apply json_Unmarshal_returns|].
    cbn [unmarshal]. rewrite He. reflexivity.
  - destruct (IH (VPointer elemType' p') true ltac:(lia)) as [f Hf].
    apply (Hend f (unmarshal f obj (Val (VPointer elemType' p') true) n)); [exact Hf|].
    cbn [unmarshal]. rewrite He. reflexivity.
  - apply (Hend 1%nat (unmarshal 1 obj (Val (VInterface methods dyn) true) n));
      [discriminate|].
    cbn [unmarshal]. rewrite He. reflexivity.
  - (* a map *)
    cbn [valueDepth] in Hk.
    assert (Hentries : exists f,
              forEach (gjson.ForEach obj) (unmarshalEntry (unmarshal f) keyT elemT n)
                (deleteAllEntries m) <> OutOfFuel).
    { destruct HM as [Hs|HM].
      - rewrite (scalar_ForEach obj Hs).
        destruct (unmarshalEntry_halts keyT elemT (deleteAllEntries m) "" obj) as [f Hf].
        { apply unmarshalTo_halts.
          - apply IH. cbn [valueDepth]. rewrite valueDepth_Zero. lia.
          - intros typeID vu Hm. contradiction (scalar_Map obj typeID vu Hs Hm). }
        exists f. cbn [forEach]. apply andThen_returns; [exact Hf|discriminate].
      - apply (forEach_halts (gjson.ForEach obj)
                 (fun f => unmarshalEntry (unmarshal f) keyT elemT n)).
        + intros f f' s key value Hle. apply unmarshalEntry_stable. exact Hle.
        + intros key value Hin s. destruct (HM key value Hin) as [H1 H2].
          apply unmarshalEntry_halts, unmarshalTo_halts; [apply H1 | exact H2]. }
    destruct Hentries as [f Hf].
    apply (Hend f (m' <- forEach (gjson.ForEach obj)
                           (unmarshalEntry (unmarshal f) keyT elemT n)
                           (deleteAllEntries m) ;
                   Ok (VMap keyT elemT m'))).
    + apply andThen_returns; [exact Hf|discriminate].
    + cbn [unmarshal]. rewrite He. reflexivity.
  - (* a struct *)
    cbn [valueDepth] in Hk.
    assert (Hmembers : exists f,
              forEach (gjson.ForEach obj)
                (unmarshalField (unmarshal f) fields (indexFields 0 fields ∅) n) vals
              <> OutOfFuel).
    { destruct HM as [Hs|HM].
      - rewrite (scalar_ForEach obj Hs).
        destruct (unmarshalField_halts fields (indexFields 0 fields ∅) vals "" obj)
          as [f Hf].
        { intros i fT fV _ HfV. apply unmarshalTo_halts.
          - apply IH. cbn [valueDepth].
            assert (valueDepth fV <= list_sum (List.map valueDepth vals))%nat; [|lia].
            apply (list_sum_lookup _ i). rewrite list_lookup_fmap, HfV. reflexivity.
          - intros typeID vu Hm. contradiction (scalar_Map obj typeID vu Hs Hm). }
        exists f. cbn [forEach]. apply andThen_returns; [exact Hf|discriminate].
      - apply (forEach_halts (gjson.ForEach obj)
                 (fun f => unmarshalField (unmarshal f) fields (indexFields 0 fields ∅) n)).
        + intros f f' s key value Hle. apply unmarshalField_stable. exact Hle.
        + intros key value Hin s. destruct (HM key value Hin) as [H1 H2].
          apply unmarshalField_halts. intros i fT fV _ _.
          apply unmarshalTo_halts; [apply H1 | exact H2]. }
    destruct Hmembers as [f Hf].
    apply (Hend f (vals' <- forEach (gjson.ForEach obj)
                              (unmarshalField (unmarshal f) fields
                                 (indexFields 0 fields ∅) n) vals ;
                   Ok (VStruct name vm pm fields vals'))).
    + apply andThen_returns; [exact Hf|discriminate].
    + cbn [unmarshal]. rewrite He. reflexivity.
  - apply (Hend 0%nat (json.Unmarshal obj (VFloat64 f64))); [apply json_Unmarshal_returns|].
    cbn [unmarshal]. rewrite He. reflexivity.
Qed.

Lemma unmarshal_halts obj :
  (forall v, halts n obj v)
  /\ (forall typeID valueUnparsed,
        map_to_list (gjson.Map obj) = [(typeID, valueUnparsed)] ->
        forall v, halts n valueUnparsed v).
Proof.
  assert (Hall : forall obj, isScalar obj = true \/ membersHalt n obj ->
                             forall v, halts n obj v).
  { intros obj' HM [|x flagAddr]; [exists 1%nat; discriminate|].
    apply (unmarshal_halts_depth obj' HM (S (valueDepth x))). lia. }
  induction obj as [|b|z|s|l IH|l IH] using Result_ind_nested;
    try (split; [apply Hall; left; reflexivity
                |intros typeID vu Hm; apply Map_singleton_member in Hm as (l & [=] & _)]).
  - split.
    + apply Hall. right. intros key value Hin. cbn [gjson.ForEach] in Hin.
      apply list_elem_of_In, in_map_iff in Hin as (x & [= <- <-] & Hin).
      apply list_elem_of_In in Hin.
      exact (proj1 (Forall_forall _ _) IH x Hin).
    + intros typeID vu Hm. apply Map_singleton_member in Hm as (l' & [=] & _).
  - split.
    + apply Hall. right. intros key value Hin.
      exact (proj1 (Forall_forall _ _) IH (key, value) Hin).
    + intros typeID vu Hm. apply Map_singleton_member in Hm as (l' & [= <-] & Hin).
      exact (proj1 (proj1 (Forall_forall _ _) IH (typeID, vu) Hin)).
Qed.

End Termination.

(** X12.  The decoder returns: for every document and every destination of
    the fragment (whose types are finite, none referring to itself), with a
    resolver whose calls return, [UnmarshalWithTypeIDs] gives a result (a
    value, an error or a panic) that is the same for every budget from some
    budget on. *)
Theorem UnmarshalWithTypeIDs_returns (n : NewByTypeIDer) (b : Result) (dst : any) :
  (forall typeID, NewByTypeID n typeID <> OutOfFuel) ->
  exists budget r,
    r <> OutOfFuel
    /\ forall fuel, (budget <= fuel)%nat -> UnmarshalWithTypeIDs fuel b dst n = r.
Proof.
  intros Hn. unfold UnmarshalWithTypeIDs.
  destruct (proj1 (unmarshal_halts n Hn b) (reflect.ValueOf dst)) as [budget Hb].
  exists budget, (unmarshal budget b (reflect.ValueOf dst) n). split; [exact Hb|].
  intros fuel Hle. apply unmarshal_budget_irrelevant; assumption.
Qed.

Lemma UnmarshalWithTypeIDs_returns_witness :
  exists budget r,
    r <> OutOfFuel
    /\ forall fuel, (budget <= fuel)%nat ->
         UnmarshalWithTypeIDs fuel sampleNestedDoc
           (Some (reflect.New (TMap TString sampleHolder))) TypeRegistry = r.
Proof.
  apply (UnmarshalWithTypeIDs_returns TypeRegistry sampleNestedDoc
           (Some (reflect.New (TMap TString sampleHolder)))).
  intros typeID. cbn.
  destruct (String.eqb typeID "./polyjson_test.myFancyStruct"); discriminate.
Defined.

(** * The decoder keeps the destination well typed *)

Lemma wellTyped_struct name vm pm fields vals :
  wellTyped (VStruct name vm pm fields vals) = true
  <-> Forall2 (fun fV fT => reflect.TypeOf fV = reflect.Type_ fT /\ wellTyped fV = true)
        vals fields.
Proof.
  cbn [wellTyped]. revert fields.
  induction vals as [|fV vals IH]; intros [|fT fields]; split; intros H;
    try discriminate; try (inversion H; fail); try constructor; try reflexivity.
  - apply andb_true_iff in H as [H _]. apply andb_true_iff in H as [H1 H2].
    apply rtype_eqb_eq in H1. auto.
  - apply andb_true_iff in H as [_ H]. apply IH. exact H.
  - inversion H as [|? ? ? ? [H1 H2] Hrest]; subst.
    rewrite H1, rtype_eqb_refl, H2. cbn [andb]. apply IH. exact Hrest.
Qed.

Lemma wellTyped_map key elem entries :
  wellTyped (VMap key elem (Some entries)) = true
  <-> Forall (fun kv => reflect.TypeOf (fst kv) = key /\ wellTyped (fst kv) = true
                        /\ reflect.TypeOf (snd kv) = elem /\ wellTyped (snd kv) = true)
        entries.
Proof.
  cbn [wellTyped]. rewrite forallb_forall, Forall_forall.
  split; intros H kv Hin.
  - apply list_elem_of_In, H in Hin. repeat (apply andb_true_iff in Hin as [Hin ?]).
    apply rtype_eqb_eq in Hin, H1. auto.
  - apply list_elem_of_In, H in Hin. destruct Hin as (-> & -> & -> & ->).
    rewrite !rtype_eqb_refl. reflexivity.
Qed.

Lemma wellTyped_Zero (t : rtype) : wellTyped (reflect.Zero t) = true.
Proof.
  induction t as [| | |elem IH|methods|key elem _ _|name vm pm fields IH|]
    using rtype_ind_nested; try reflexivity.
  cbn [reflect.Zero]. apply wellTyped_struct.
  induction IH as [|f fields Hf _ IHfields]; constructor; [|exact IHfields].
  split; [apply TypeOf_Zero | exact Hf].
Qed.

Lemma MapAssign_Forall (P : GoValue * GoValue -> Prop) l key e :
  P (key, e) -> (forall k e', P (k, e') -> P (k, e)) ->
  Forall P l -> Forall P (reflect.MapAssign l key e).
Proof.
  intros Hnew Hrepl. induction 1 as [|[k e'] l Hhead Htail IH]; cbn [reflect.MapAssign].
  - constructor; [exact Hnew|constructor].
  - destruct (reflect.GoValue_eqb k key); constructor; eauto.
Qed.

Lemma json_Unmarshal_TypeOf raw cur x :
  json.Unmarshal raw cur = Ok x -> reflect.TypeOf x = reflect.TypeOf cur /\ wellTyped x = true.
Proof.
  unfold json.Unmarshal.
  destruct raw, cur; try discriminate; try (intros [= <-]; split; reflexivity).
  - destruct (json.int64_range _); [intros [= <-]; split; reflexivity | discriminate].
  - destruct (json.roundFloat64 _); [intros [= <-]; split; reflexivity | discriminate].
Qed.

Lemma json_Unmarshal_no_panic raw cur msg : json.Unmarshal raw cur <> Panic msg.
Proof.
  destruct raw, cur; cbn; try discriminate.
  - destruct (json.int64_range z); discriminate.
  - destruct (json.roundFloat64 z); discriminate.
Qed.

(** What a successful [unmarshal] leaves behind the pointer is not of an
    interface type. *)
Lemma unmarshal_Ok_concrete fuel obj v r elemType elem :
  unmarshal fuel obj v r = Ok (VPointer elemType (Some elem)) ->
  isInterface (reflect.TypeOf elem) = false.
Proof.
  destruct fuel as [|fuel]; [discriminate|]. cbn [unmarshal].
  destruct v as [|[] flagAddr]; try discriminate.
  intros H. apply andThen_Ok in H as (e1 & _ & H).
  apply andThen_Ok in H as (e2 & H & [= _ <-]).
  destruct e1.
  - apply json_Unmarshal_TypeOf in H as [-> _]. reflexivity.
  - apply json_Unmarshal_TypeOf in H as [-> _]. reflexivity.
  - apply json_Unmarshal_TypeOf in H as [-> _]. reflexivity.
  - apply unmarshal_Ok_pointer in H as (? & ? & ? & ? & _ & ->). reflexivity.
  - destruct fuel; discriminate.
  - apply andThen_Ok in H as (? & _ & [= <-]). reflexivity.
  - apply andThen_Ok in H as (? & _ & [= <-]). reflexivity.
  - apply json_Unmarshal_TypeOf in H as [-> _]. reflexivity.
Qed.

Lemma forEach_safe {S} (Inv : S -> Prop) (l : list (string * Result))
    (body : S -> string -> Result -> result S) :
  (forall s key value, Inv s ->
     match body s key value with
     | Ok s' => Inv s'
     | Panic _ => False
     | _ => True
     end) ->
  forall s, Inv s ->
    match forEach l body s with
    | Ok s' => Inv s'
    | Panic _ => False
    | _ => True
    end.
Proof.
  intros Hbody. induction l as [|[key value] l IH]; intros s Hs; [exact Hs|].
  cbn [forEach]. specialize (Hbody s key value Hs).
  destruct (body s key value) as [s1| | |]; cbn [andThen];
    [apply IH; exact Hbody | exact I | exact Hbody | exact I].
Qed.

Section Typing.

Variable n : NewByTypeIDer.
Hypothesis resolver_sound : soundResolver n.

(** [unmarshalTo] keeps a slot well typed when the calls of [unmarshal] it
    makes keep their destinations well typed. *)
Lemma unmarshalTo_safe fuel :
  (forall obj x flagAddr,
     wellTyped x = true -> flagAddr = true \/ allocated x = true ->
     safeResult (reflect.TypeOf x) (unmarshal fuel obj (Val x flagAddr) n)) ->
  forall out outType value,
    wellTyped out = true -> reflect.TypeOf out = outType ->
    safeResult outType (unmarshalTo fuel out outType value n).
Proof.
  intros IH out outType value Hout Ht.
  assert (Hzero : safeResult outType (Ok (reflect.Zero outType)))
    by (split; [apply wellTyped_Zero | apply TypeOf_Zero]).
  assert (Hcontent : forall value' x flagAddr,
            wellTyped x = true -> flagAddr = true \/ allocated x = true ->
            match unmarshal fuel value' (Val x flagAddr) n with
            | Ok res =>
                exists elem, res = VPointer (reflect.TypeOf elem) (Some elem)
                             /\ reflect.TypeOf res = reflect.TypeOf x
                             /\ wellTyped elem = true
                             /\ isInterface (reflect.TypeOf elem) = false
            | Panic _ => False
            | _ => True
            end).
  { intros value' x flagAddr Hx Hfa. pose proof (IH value' x flagAddr Hx Hfa) as Hs.
    destruct (unmarshal fuel value' (Val x flagAddr) n) as [res| | |] eqn:E;
      try exact Hs; try exact I.
    destruct Hs as [Hres Hty].
    pose proof E as E'. apply unmarshal_Ok_pointer in E' as (t & p & fa & elem & _ & ->).
    apply unmarshal_Ok_concrete in E.
    cbn [wellTyped] in Hres. apply andb_true_iff in Hres as [Ht' Hres].
    apply rtype_eqb_eq in Ht'. subst t. eauto. }
  assert (Hplain : isInterface outType = false ->
            safeResult outType
              (contentOut <- unmarshal fuel value (reflect.Addr out) n wrapped ErrUnmarshal ;
               match contentOut with
               | VPointer _ (Some elem) =>
                   if isInterface outType then
                     if reflect.AssignableTo (reflect.TypeOf elem) outType then
                       Ok (reflect.Set_ out elem)
                     else if reflect.AssignableTo (reflect.TypeOf contentOut) outType then
                       Ok (reflect.Set_ out contentOut)
                     else Err (ErrAssign outType)
                   else Ok elem
               | _ => Panic "reflect: call of reflect.Value.Type on zero Value"
               end)).
  { intros Hif. unfold reflect.Addr.
    pose proof (Hcontent value (VPointer (reflect.TypeOf out) (Some out)) false) as Hc.
    destruct (unmarshal fuel value (Val (VPointer (reflect.TypeOf out) (Some out)) false) n)
      as [res| | |]; cbn [andThen]; try exact I.
    - destruct Hc as (elem & -> & Hty & Helem & _);
        [cbn [wellTyped]; rewrite rtype_eqb_refl; exact Hout | right; reflexivity |].
      cbn [reflect.TypeOf] in Hty. injection Hty as Hty.
      rewrite Hif. split; [exact Helem | congruence].
    - apply Hc; [cbn [wellTyped]; rewrite rtype_eqb_refl; exact Hout | right; reflexivity]. }
  unfold unmarshalTo, unmarshalTo_body.
  destruct outType as [| | |elemT|methods|keyT elemT|name vm pm fields|];
    cbn [reflect.KindOf]; try (apply Hplain; reflexivity).
  - (* a pointer *)
    destruct (gjson.TypeOf value); try (apply Hplain; reflexivity). exact Hzero.
  - (* an interface *)
    destruct out as [| | | |methods' dyn| | |]; try discriminate. injection Ht as ->.
    assert (Hwrapper :
      safeResult (TInterface methods)
        match map_to_list (gjson.Map value) with
        | [(typeID, valueUnparsed)] =>
            typedValuePtr <- NewByTypeID n typeID wrapped ErrConstruct typeID ;
            contentOut <- unmarshal fuel valueUnparsed (reflect.ValueOf typedValuePtr) n
              wrapped ErrUnmarshal ;
            match contentOut with
            | VPointer _ (Some elem) =>
                if isInterface (TInterface methods) then
                  if reflect.AssignableTo (reflect.TypeOf elem) (TInterface methods) then
                    Ok (reflect.Set_ (VInterface methods dyn) elem)
                  else if reflect.AssignableTo (reflect.TypeOf contentOut)
                            (TInterface methods) then
                    Ok (reflect.Set_ (VInterface methods dyn) contentOut)
                  else Err (ErrAssign (TInterface methods))
                else Ok elem
            | _ => Panic "reflect: call of reflect.Value.Type on zero Value"
            end
        | _ => Err (ErrExpectedExactlyOne (size (gjson.Map value)))
        end).
    { destruct (map_to_list (gjson.Map value)) as [|[typeID valueUnparsed] [|]];
        try exact I.
      pose proof (resolver_sound typeID) as Hn.
      destruct (NewByTypeID n typeID) as [[a|]|e|msg|]; cbn [andThen];
        try exact I; try contradiction.
      destruct Hn as [Ha Halloc].
      pose proof (Hcontent valueUnparsed a false Ha (or_intror Halloc)) as Hc.
      cbn [reflect.ValueOf].
      destruct (unmarshal fuel valueUnparsed (Val a false) n) as [res| | |];
        cbn [andThen]; try exact I; try exact Hc.
      destruct Hc as (elem & -> & Hty & Helem & Hconcrete).
      cbn [isInterface reflect.KindOf reflect.Set_].
      destruct (reflect.AssignableTo (reflect.TypeOf elem) (TInterface methods)) eqn:Hassign.
      - assert (reflect.Interface_ elem = Some elem) as ->
          by (destruct elem; try discriminate; reflexivity).
        split; [|reflexivity].
        cbn [wellTyped]. rewrite Hassign, Helem, Hconcrete. reflexivity.
      - destruct (reflect.AssignableTo (reflect.TypeOf (VPointer _ _)) (TInterface methods))
          eqn:Hassign'; [|exact I].
        cbn [reflect.Interface_]. split; [|reflexivity].
        cbn [wellTyped reflect.TypeOf isInterface reflect.KindOf negb andb] in *.
        rewrite Hassign', rtype_eqb_refl, Helem. reflexivity. }
    destruct (gjson.TypeOf value); try exact Hwrapper. exact Hzero.
Qed.


Lemma unmarshal_safe fuel : forall obj x flagAddr,
  wellTyped x = true -> flagAddr = true \/ allocated x = true ->
  safeResult (reflect.TypeOf x) (unmarshal fuel obj (Val x flagAddr) n).
Proof.
  induction fuel as [|fuel IH]; intros obj x flagAddr Hx Hfa; [exact I|].
  destruct x as [b|z|s|elemType p|methods dyn|keyT elemT m|name vm pm fields vals|f64];
    try exact I.
  assert (He : exists elem,
            ensureElem elemType p flagAddr = Ok elem
            /\ wellTyped elem = true /\ reflect.TypeOf elem = elemType).
  { destruct p as [x|].
    - cbn [wellTyped] in Hx. apply andb_true_iff in Hx as [Ht Hx].
      apply rtype_eqb_eq in Ht. exists x. auto.
    - destruct Hfa as [->|Hfa]; [|discriminate].
      exists (reflect.Zero elemType). split; [reflexivity|].
      split; [apply wellTyped_Zero | apply TypeOf_Zero]. }
  destruct He as (elem & He & Helem & Hty).
  cbn [unmarshal]. rewrite He. cbn [andThen reflect.TypeOf].
  assert (Hwrap : forall r : result GoValue,
            safeResult elemType r ->
            safeResult (TPointer elemType)
              (elem' <- r ; Ok (VPointer elemType (Some elem')))).
  { intros [res| | |]; cbn [andThen safeResult]; auto.
    intros [Hres <-]. cbn [wellTyped reflect.TypeOf].
    rewrite rtype_eqb_refl, Hres. auto. }
  apply Hwrap. clear Hwrap He Hx Hfa p flagAddr.
  destruct elem as [b|z|s|elemType' p'|methods dyn|keyT elemT m|name vm pm fields vals|f64].
  - destruct (json.Unmarshal obj (VBool b)) as [res| | |] eqn:E; try exact I.
    + apply json_Unmarshal_TypeOf in E as [E1 E2]. split; congruence.
    + exact (json_Unmarshal_no_panic _ _ _ E).
  - destruct (json.Unmarshal obj (VInt z)) as [res| | |] eqn:E; try exact I.
    + apply json_Unmarshal_TypeOf in E as [E1 E2]. split; congruence.
    + exact (json_Unmarshal_no_panic _ _ _ E).
  - destruct (json.Unmarshal obj (VString s)) as [res| | |] eqn:E; try exact I.
    + apply json_Unmarshal_TypeOf in E as [E1 E2]. split; congruence.
    + exact (json_Unmarshal_no_panic _ _ _ E).
  - rewrite <- Hty. apply IH; auto.
  - rewrite <- Hty. apply IH; auto.
  - (* a map *)
    cbn [reflect.TypeOf] in Hty. subst elemType.
    assert (Hbody : forall m' key value,
              wellTyped (VMap keyT elemT m') = true ->
              match unmarshalEntry (unmarshal fuel) keyT elemT n m' key value with
              | Ok m'' => wellTyped (VMap keyT elemT m'') = true
              | Panic _ => False
              | _ => True
              end).
    { intros m' key value Hm'. unfold unmarshalEntry.
      destruct keyT; cbn [unstringifyMapKey reflect.Zero reflect.TypeOf reflect.KindOf
                            andThen reflect.SetString]; try exact I.
      pose proof (unmarshalTo_safe fuel IH (reflect.Zero elemT) elemT value
                    (wellTyped_Zero elemT) (TypeOf_Zero elemT)) as Hto.
      fold (unmarshalTo fuel).
      destruct (unmarshalTo fuel (reflect.Zero elemT) elemT value n) as [valueValue| | |];
        cbn [andThen]; try exact I; try exact Hto.
      destruct Hto as [Hv Hvt].
      apply wellTyped_map. cbn [reflect.SetMapIndex].
      apply MapAssign_Forall.
      - cbn [fst snd reflect.TypeOf]. auto.
      - intros k e' (Hk1 & Hk2 & _ & _). cbn [fst snd] in *. auto.
      - destruct m' as [l|]; [apply wellTyped_map; exact Hm' | constructor]. }
    assert (Hinit : wellTyped (VMap keyT elemT (deleteAllEntries m)) = true).
    { destruct m as [l|]; [|reflexivity].
      apply wellTyped_map. apply wellTyped_map in Helem.
      rewrite Forall_forall in *. intros kv Hin. apply Helem.
      exact (deleteAllEntries_subseteq (Some l) kv Hin). }
    pose proof (forEach_safe (fun m' => wellTyped (VMap keyT elemT m') = true)
                  (gjson.ForEach obj) _ Hbody _ Hinit) as Hres.
    destruct (forEach (gjson.ForEach obj) (unmarshalEntry (unmarshal fuel) keyT elemT n)
                (deleteAllEntries m)) as [m'| | |]; cbn [andThen safeResult];
      try exact I; [|exact Hres].
    split; [exact Hres | reflexivity].
  - (* a struct *)
    cbn [reflect.TypeOf] in Hty. subst elemType.
    assert (Hbody : forall vals' key value,
              wellTyped (VStruct name vm pm fields vals') = true ->
              match unmarshalField (unmarshal fuel) fields (indexFields 0 fields ∅) n
                      vals' key value with
              | Ok vals'' => wellTyped (VStruct name vm pm fields vals'') = true
              | Panic _ => False
              | _ => True
              end).
    { intros vals' key value Hvals'. unfold unmarshalField.
      destruct (indexFields 0 fields ∅ !! key) as [k|] eqn:Hk; [|exact Hvals'].
      apply indexFields_range in Hk as [Hk|Hk]; [rewrite lookup_empty in Hk; discriminate|].
      pose proof (proj1 (wellTyped_struct _ _ _ _ _) Hvals') as Hall.
      destruct (lookup_lt_is_Some_2 fields k ltac:(lia)) as [fT HfT].
      destruct (Forall2_lookup_r _ _ _ _ _ Hall HfT) as (fV & HfV & HfVt & HfVw).
      rewrite HfT, HfV.
      destruct (negb (String.eqb (reflect.PkgPath fT) "")); [exact Hvals'|].
      pose proof (unmarshalTo_safe fuel IH fV (reflect.Type_ fT) value HfVw HfVt) as Hto.
      fold (unmarshalTo fuel).
      destruct (unmarshalTo fuel fV (reflect.Type_ fT) value n) as [fV'| | |];
        cbn [andThen]; try exact I; try exact Hto.
      apply wellTyped_struct.
      rewrite <- (list_insert_id fields k fT HfT).
      apply Forall2_insert; [exact Hall|]. destruct Hto. auto. }
    pose proof (forEach_safe (fun vals' => wellTyped (VStruct name vm pm fields vals') = true)
                  (gjson.ForEach obj) _ Hbody _ Helem) as Hres.
    destruct (forEach (gjson.ForEach obj)
                (unmarshalField (unmarshal fuel) fields (indexFields 0 fields ∅) n) vals)
      as [vals'| | |]; cbn [andThen safeResult]; try exact I; [|exact Hres].
    split; [exact Hres | reflexivity].
  - destruct (json.Unmarshal obj (VFloat64 f64)) as [res| | |] eqn:E; try exact I.
    + apply json_Unmarshal_TypeOf in E as [E1 E2]. split; congruence.
    + exact (json_Unmarshal_no_panic _ _ _ E).
Qed.

End Typing.

Lemma TypeRegistry_sound : soundResolver TypeRegistry.
Proof.
  intros typeID. cbn.
  destruct (String.eqb typeID "./polyjson_test.myFancyStruct"); [|exact I].
  split; reflexivity.
Qed.

(** X13.  The decoder keeps the destination well typed.  With a resolver
    that returns errors or well-typed values that are not nil, a successful
    [UnmarshalWithTypeIDs] into a well-typed destination leaves a well-typed
    value of the same type: every field and map entry holds a value of its
    declared type, and every interface slot a value that implements the
    interface. *)
Theorem decode_preserves_typing (n : NewByTypeIDer) (fuel : nat) (b : Result)
    (dst res : GoValue) :
  soundResolver n ->
  wellTyped dst = true ->
  UnmarshalWithTypeIDs fuel b (Some dst) n = Ok res ->
  wellTyped res = true /\ reflect.TypeOf res = reflect.TypeOf dst.
Proof.
  intros Hn Hdst H. unfold UnmarshalWithTypeIDs in H. cbn [reflect.ValueOf] in H.
  assert (Halloc : allocated dst = true).
  { destruct dst as [| | |t [x|]| | | |]; try reflexivity.
    destruct fuel; discriminate. }
  pose proof (unmarshal_safe n Hn fuel b dst false Hdst (or_intror Halloc)) as Hs.
  rewrite H in Hs. exact Hs.
Qed.

(** The package's example: the decoded map is well typed. *)
Lemma decode_preserves_typing_witness :
  wellTyped (VPointer (TMap TString TAny) (Some sampleFancyMap)) = true
  /\ reflect.TypeOf (VPointer (TMap TString TAny) (Some sampleFancyMap))
     = reflect.TypeOf (reflect.New (TMap TString TAny)).
Proof.
  exact (decode_preserves_typing TypeRegistry 4
           (JObject [("B"%string,
                      JObject [("./polyjson_test.myFancyStruct"%string,
                                JObject [("A"%string, JNumber 1)])])])
           (reflect.New (TMap TString TAny)) _ TypeRegistry_sound eq_refl eq_refl).
Defined.

(** X14.  The decoder does not panic on a destination that is a well-typed
    pointer and not nil, with a resolver that returns errors or well-typed
    values that are not nil: whatever the document, the call returns a value
    or an error. *)
Theorem decode_no_panic (n : NewByTypeIDer) (fuel : nat) (b : Result) (dst : GoValue)
    (msg : string) :
  soundResolver n ->
  wellTyped dst = true ->
  allocated dst = true ->
  UnmarshalWithTypeIDs fuel b (Some dst) n <> Panic msg.
Proof.
  intros Hn Hdst Halloc H. unfold UnmarshalWithTypeIDs in H. cbn [reflect.ValueOf] in H.
  pose proof (unmarshal_safe n Hn fuel b dst false Hdst (or_intror Halloc)) as Hs.
  rewrite H in Hs. exact Hs.
Qed.

Lemma decode_no_panic_witness :
  UnmarshalWithTypeIDs 3 sampleNestedDoc (Some (reflect.New (TMap TString sampleHolder)))
    TypeRegistry
  <> Panic "reflect: reflect.Value.Set using unaddressable value".
Proof.
  exact (decode_no_panic TypeRegistry 3 sampleNestedDoc
           (reflect.New (TMap TString sampleHolder)) _ TypeRegistry_sound eq_refl eq_refl).
Defined.
